(** * EtherDFS server (ethersrv): a shallow embedding of [ethersrv.c] and [fs.c]

    The development follows the two C files function by function.  Bytes are
    integers in [0, 256), C strings are the lists of the bytes that precede
    their NUL terminator, the frame buffers are byte lists updated in place,
    the handle table is a finite map from the 16-bit id to its slot, and
    every call into the host operating system goes through an explicit
    interface, so that the file-system state is threaded through the
    dispatcher.  A computation that would end the process (a NULL
    dereference, a failed [assert], a [memcpy] of negative size) has no
    result.

    The platform is the one the sources are written for: Linux (the [#else]
    branches of [fs.c]) on a little-endian machine with 64-bit [long].  The
    fixed-size path buffers on the stack are taken to be large enough, and
    [calloc] to succeed.  [getitemss_mem] carries the outcome of [strdup] as
    an argument; the dispatcher is run where [strdup] succeeds. *)

From Stdlib Require Import ZArith List Lia String Ascii Bool.
From stdpp Require Import base list option gmap.

Local Open Scope Z_scope.

(** ** Bytes and C strings *)

(** A byte is an integer; the values the code stores lie in [0, 256). *)
Abbreviation byte := Z.

Definition chr (c : ascii) : byte := Z.of_N (N_of_ascii c).

(** The bytes of a string literal (without terminator). *)
Definition cstr (s : string) : list byte := chr <$> list_ascii_of_string s.

Definition NUL : byte := 0.
Definition SPACE : byte := 32.      (* ' '  *)
Definition DOT : byte := 46.        (* '.'  *)
Definition SLASH : byte := 47.      (* '/'  *)
Definition COLON : byte := 58.      (* ':'  *)
Definition QMARK : byte := 63.      (* '?'  *)
Definition BACKSLASH : byte := 92.  (* backslash *)

(** [s[i]] on a C string: the terminator is read at index [length s].  The
    model also reads NUL at any later index; the source only reads there
    after it has copied the terminator itself (see [name_loop]), where C
    leaves the result undefined. *)
Definition ch (s : list byte) (i : nat) : byte := default NUL (s !! i).

(** The C string held by a buffer: everything before the first NUL. *)
Fixpoint c_str (buf : list byte) : list byte :=
  match buf with
  | [] => []
  | b :: rest => if b =? NUL then [] else b :: c_str rest
  end.

Definition le16 (lo hi : byte) : Z := lo + 256 * hi.
Definition le32 (b0 b1 b2 b3 : byte) : Z :=
  b0 + 256 * b1 + 65536 * b2 + 16777216 * b3.

(** ** fs.c: names *)

(** [upchar]: turns a character into its upper-case variant. *)
Definition upchar (c : byte) : byte :=
  if (chr "a" <=? c) && (c <=? chr "z") then c - (chr "a" - chr "A") else c.

(** [tolower] of the C locale, as [lostring] applies it. *)
Definition tolower (c : byte) : byte :=
  if (chr "A" <=? c) && (c <=? chr "Z") then c + (chr "a" - chr "A") else c.

Module Fcb.

(** [for (i = 0; i < 8; i++) { if (s[i] != '.') break; d[i] = '.'; }] *)
Fixpoint dots_loop (fuel i : nat) (s d : list byte) : nat * list byte :=
  match fuel with
  | O => (i, d)
  | S fuel' =>
      if ch s i =? DOT then dots_loop fuel' (S i) s (<[i := DOT]> d)
      else (i, d)
  end.

(** [while (s[j] == ' ') j++;] *)
Fixpoint skip_spaces (fuel : nat) (s : list byte) (j : nat) : nat :=
  match fuel with
  | O => j
  | S fuel' => if ch s j =? SPACE then skip_spaces fuel' s (S j) else j
  end.

(** [for (; i < 8; i++) { if (s[j] == '.' || s[j] == 0) break;
       while (s[j] == ' ') j++;  d[i] = upchar(s[j]);  j++; }] *)
Fixpoint name_loop (fuel i j : nat) (s d : list byte) : nat * list byte :=
  match fuel with
  | O => (i, d)
  | S fuel' =>
      if (ch s j =? DOT) || (ch s j =? NUL) then (i, d)
      else
        let j1 := skip_spaces (length s) s j in
        name_loop fuel' (S i) (S j1) s (<[i := upchar (ch s j1)]> d)
  end.

(** The fast-forward [for (; s[0] != '.' && s[0] != 0; s++);], with [s] at
    offset [k]. *)
Fixpoint find_dot (fuel : nat) (s : list byte) (k : nat) : nat :=
  match fuel with
  | O => k
  | S fuel' =>
      if (ch s k =? DOT) || (ch s k =? NUL) then k
      else find_dot fuel' s (S k)
  end.

(** [for (j = 0; j < 3; j++) { if (s[j] == '.' || s[j] == 0 || s[j] == ' ')
       break;  d[0] = upchar(s[j]);  d++; }] with [s] at offset [k], [d] at 8. *)
Fixpoint ext_loop (fuel j : nat) (s : list byte) (k : nat) (d : list byte)
  : list byte :=
  match fuel with
  | O => d
  | S fuel' =>
      let c := ch s (k + j) in
      if (c =? DOT) || (c =? NUL) || (c =? SPACE) then d
      else ext_loop fuel' (S j) s k (<[(8 + j)%nat := upchar c]> d)
  end.

(** [filename2fcb]: translates a filename string into a FCB-style block. *)
Definition filename2fcb (s : list byte) : list byte :=
  let d := replicate 11 SPACE in
  let '(i, d) := dots_loop 8 0 s d in
  let '(i, d) := name_loop (8 - i) i i s d in
  let k := find_dot (length s) s i in
  if ch s k =? NUL then d
  else ext_loop 3 0 s (S k) d.

(** [matchfile2mask]: 0 when the FCB name fits the FCB mask, -1 otherwise. *)
Fixpoint matchfile2mask_loop (fuel i : nat) (msk fil : list byte) : Z :=
  match fuel with
  | O => 0
  | S fuel' =>
      if negb (upchar (ch fil i) =? upchar (ch msk i)) && negb (ch msk i =? QMARK)
      then -1
      else matchfile2mask_loop fuel' (S i) msk fil
  end.

Definition matchfile2mask (msk fil : list byte) : Z :=
  matchfile2mask_loop 11 0 msk fil.

End Fcb.
Export Fcb.

(** ** fs.c: the host interface

    [struct fileprops], the [FAT_*] attribute bits and the [FFILE_*] flags are
    declared in [fs.h]. *)

(** Modelled from the spec: [struct fileprops] of [fs.h], which is not part
    of the sources at hand; the spec gives it as an 11-byte FCB name, an
    attribute byte, a size and a DOS packed time.  [fsize] and [ftime] are
    printed with [%lu] by the dispatcher, so they are kept as 64-bit unsigned
    values, of which the wire carries the low 32 bits. *)
Record fileprops := Fileprops {
  fcbname : list byte;
  fsize : Z;
  ftime : Z;
  fattr : byte;
}.

(** A zeroed [struct fileprops] ([calloc], [memset]); locals that the source
    leaves uninitialised are read as zero too. *)
Definition fileprops_zero : fileprops :=
  Fileprops (replicate 11 NUL) 0 0 0.

(** Modelled from the spec: the DOS attribute bits of [fs.h]. *)
Definition FAT_VOL : Z := 8.
Definition FAT_DIR : Z := 16.

(** Modelled from the spec: the [findfile] flags of [fs.h]; the spec names
    them, the values are two distinct bits. *)
Definition FFILE_ISROOT : Z := 1.
Definition FFILE_ISFAT : Z := 2.

Definition DT_DIR : Z := 4.

Record stat_t := Stat { st_isdir : bool; st_size : Z; st_mtime : Z }.

Record dirent := Dirent { d_name : list byte; d_type : Z }.

Record tm := Tm {
  tm_year : Z; tm_mon : Z; tm_mday : Z; tm_hour : Z; tm_min : Z; tm_sec : Z
}.

Record statvfs_t := Statvfs { f_blocks : Z; f_frsize : Z; f_bfree : Z; f_bsize : Z }.

(** What [open] followed by the [FAT_IOCTL_GET_ATTRIBUTES] ioctl gives. *)
Inductive fat_ioctl := OpenFailed | IoctlFailed | FatAttr (attr : Z).

(** The system calls the server makes, over an abstract host state [H].
    Calls that only inspect the host are functions of the state; calls that
    may change it return the new state with their result.  A directory is
    enumerated as the list [readdir] would return from [opendir] on. *)
Class HostOps (H : Type) := {
  sys_time : H → Z;
  sys_localtime : H → Z → option tm;
  sys_stat : H → list byte → option stat_t;
  sys_fat_ioctl_get : H → list byte → fat_ioctl;
  (* open + FAT_IOCTL_SET_ATTRIBUTES: None when open fails, else ioctl's value *)
  sys_fat_ioctl_set : list byte → byte → H → option Z * H;
  sys_opendir : H → list byte → option (list dirent);
  sys_statvfs : H → list byte → option statvfs_t;
  (* fopen "rb" + fseek + fread of at most len bytes; None when fopen or fseek fails *)
  sys_fread : H → list byte → Z → Z → option (list byte);
  (* fopen "r+b" + fseek + fwrite; None when fopen or fseek fails *)
  sys_fwrite : list byte → Z → list byte → H → option Z * H;
  (* fopen "wb" + fclose; false when fopen fails *)
  sys_fopen_wb : list byte → H → bool * H;
  sys_truncate : list byte → Z → H → Z * H;
  sys_unlink : list byte → H → Z * H;
  sys_mkdir : list byte → Z → H → Z * H;
  sys_rmdir : list byte → H → Z * H;
  sys_chdir : list byte → H → Z * H;
  sys_rename : list byte → list byte → H → Z * H;
}.

(** One slot of the handle table [fsdb]: [name] is [None] for a NULL pointer,
    [dirlist] is the linked list of the cached listing, [[]] for NULL. *)
Record sfsdb := Sfsdb {
  name : option (list byte);
  lastused : Z;
  dirlist : list fileprops;
}.

Definition sfsdb_zero : sfsdb := Sfsdb None 0 [].

(** [fsdb[65536]]: the table maps an index to its slot; an index without
    an entry holds the zeroed slot, so the empty map is the zero-initialised
    array. *)
Definition fsdb_init : gmap Z sfsdb := ∅.

Definition fsdb_get (db : gmap Z sfsdb) (i : Z) : sfsdb :=
  default sfsdb_zero (db !! i).

(** The state the dispatcher works on: the host and the handle table. *)
Record world (H : Type) := World { w_host : H; w_fsdb : gmap Z sfsdb }.
Arguments World {H} _ _.
Arguments w_host {H} _.
Arguments w_fsdb {H} _.

(** Computations over the world that may end the process (a NULL
    dereference, a failed [assert], a [memcpy] of negative size). *)
Definition M (H A : Type) : Type := world H → option (A * world H).

Global Instance M_ret {H} : MRet (M H) := λ A a w, Some (a, w).
Global Instance M_bind {H} : MBind (M H) := λ A B f m w,
  match m w with
  | Some (a, w') => f a w'
  | None => None
  end.

Definition crash {H A} : M H A := λ _, None.
Definition get_host {H} : M H H := λ w, Some (w_host w, w).
Definition get_fsdb {H} : M H (gmap Z sfsdb) := λ w, Some (w_fsdb w, w).
Definition put_fsdb {H} (db : gmap Z sfsdb) : M H unit :=
  λ w, Some (tt, World (w_host w) db).
(** Runs a state-changing system call. *)
Definition sys {H A} (f : H → A * H) : M H A :=
  λ w, let '(a, h) := f (w_host w) in Some (a, World h (w_fsdb w)).

Definition u64 (x : Z) : Z := x mod 2 ^ 64.
Definition u16 (x : Z) : Z := x mod 2 ^ 16.
(** Conversion to a signed type of [w] bits (wrap-around, as gcc does). *)
Definition signed (w : Z) (x : Z) : Z :=
  let y := x mod 2 ^ w in if y <? 2 ^ (w - 1) then y else y - 2 ^ w.
Definition s64 : Z → Z := signed 64.
Definition s32 : Z → Z := signed 32.

(** [strcmp(a, b) == 0] on buffers. *)
Definition streq (a b : list byte) : bool := bool_decide (c_str a = c_str b).

Section Fs.
Context {H : Type} `{!HostOps H}.

Definition set_slot (i : Z) (e : sfsdb) : M H unit :=
  db ← get_fsdb; put_fsdb (<[i := e]> db).

(** One turn of the scan of [getitemss]; the last component is the value
    returned from inside the loop, if any. *)
Fixpoint getitemss_loop (fuel : nat) (i now : Z) (f : list byte)
    (db : gmap Z sfsdb) (firstfree oldest : Z) : gmap Z sfsdb * Z * Z * option Z :=
  match fuel with
  | O => (db, firstfree, oldest, None)
  | S fuel' =>
      let e := fsdb_get db i in
      if bool_decide (name e = Some f) then
        (<[i := Sfsdb (name e) now (dirlist e)]> db, firstfree, oldest, Some i)
      else
        let db :=
          if bool_decide (name e ≠ None) && (3600 <? now - lastused e)
          then <[i := sfsdb_zero]> db else db in
        let '(firstfree, oldest) :=
          if (firstfree =? 65535) && bool_decide (name (fsdb_get db i) = None)
          then (i, oldest)
          else if lastused (fsdb_get db i) <? lastused (fsdb_get db oldest)
               then (firstfree, i) else (firstfree, oldest) in
        getitemss_loop fuel' (i + 1) now f db firstfree oldest
  end.

(** [getitemss]: returns the "start sector" of a filesystem item.  [mem]
    tells whether [strdup] finds the memory for the name: when it does not,
    the slot chosen keeps a NULL name and its time of last use, and the
    result is 0xffff. *)
Definition getitemss_mem (mem : bool) (f : list byte) : M H Z :=
  h ← get_host;
  db ← get_fsdb;
  let now := sys_time h in
  let '(db, firstfree, oldest, found) :=
    getitemss_loop (Z.to_nat 65535) 0 now f db 65535 0 in
  match found with
  | Some i => put_fsdb db;; mret i
  | None =>
      let '(db, firstfree) :=
        if firstfree =? 65535
        then (<[oldest := sfsdb_zero]> db, oldest)
        else (db, firstfree) in
      let e := fsdb_get db firstfree in
      if mem then
        put_fsdb (<[firstfree := Sfsdb (Some f) now (dirlist e)]> db);;
        mret firstfree
      else
        put_fsdb (<[firstfree := Sfsdb None (lastused e) (dirlist e)]> db);;
        mret 65535
  end.

(** [getitemss] as the dispatcher below runs it: [strdup] succeeds. *)
Definition getitemss (f : list byte) : M H Z := getitemss_mem true f.

(** [sstoitem]: [None] is the NULL pointer. *)
Definition sstoitem (ss : Z) : M H (option (list byte)) :=
  db ← get_fsdb; mret (name (fsdb_get db ss)).

(** [time2dos]: a [time_t] as a DOS (FAT-style) timestamp. *)
Definition time2dos (h : H) (t : Z) : Z :=
  match sys_localtime h t with
  | None => 0
  | Some ltime =>
      let res := u64 (tm_year ltime - 80) in
      let res := u64 (Z.shiftl res 4) in
      let res := Z.lor res (u64 (tm_mon ltime + 1)) in
      let res := u64 (Z.shiftl res 5) in
      let res := Z.lor res (u64 (tm_mday ltime)) in
      let res := u64 (Z.shiftl res 5) in
      let res := Z.lor res (u64 (tm_hour ltime)) in
      let res := u64 (Z.shiftl res 6) in
      let res := Z.lor res (u64 (tm_min ltime)) in
      let res := u64 (Z.shiftl res 5) in
      Z.lor res (u64 (Z.shiftr (tm_sec ltime) 1))
  end.

(** The loop of [getitemattr] that sets [fname] to the file part of [i]. *)
Fixpoint fname_loop (ptr fname : list byte) : list byte :=
  match ptr with
  | [] => fname
  | c :: rest =>
      if ((c =? SLASH) || (c =? BACKSLASH)) && negb (ch rest 0 =? NUL)
      then fname_loop rest rest
      else fname_loop rest fname
  end.

(** [getitemattr] (the Linux variant): DOS-like attributes of item [i].
    [fprops] is the structure the caller points at; the second component is
    its content afterwards.  A caller that passes NULL drops it. *)
Definition getitemattr (h : H) (i : list byte) (fprops : fileprops)
    (fatflag : Z) : Z * fileprops :=
  match sys_stat h i with
  | None => (255, fprops)
  | Some statbuf =>
      let fprops :=
        Fileprops (filename2fcb (fname_loop i i)) 0
                  (time2dos h (st_mtime statbuf)) 0 in
      if st_isdir statbuf then
        (16, Fileprops (fcbname fprops) (fsize fprops) (ftime fprops) 16)
      else
        let fprops :=
          Fileprops (fcbname fprops) (u64 (st_size statbuf)) (ftime fprops)
                    (fattr fprops) in
        if fatflag =? 0 then (32, fprops)
        else match sys_fat_ioctl_get h i with
             | OpenFailed => (255, fprops)
             | IoctlFailed => (0, fprops)
             | FatAttr attr =>
                 (attr mod 256,
                  Fileprops (fcbname fprops) (fsize fprops) (ftime fprops)
                            (attr mod 256))
             end
  end.

(** [setitemattr] (the Linux variant). *)
Definition setitemattr (i : list byte) (fattr : byte) : M H Z :=
  res ← sys (sys_fat_ioctl_set i fattr);
  match res with
  | None => mret (-1)
  | Some res => if res <? 0 then mret (-1) else mret 0
  end.

(** [gendirlist]: generates the directory listing of slot [root].  [calloc]
    is taken to succeed. *)
Definition gendirlist (root : Z) (fatflag : Z) : M H Z :=
  db ← get_fsdb;
  let e := fsdb_get db root in
  set_slot root (Sfsdb (name e) (lastused e) []);;
  match name e with
  | None => crash
  | Some rootname =>
      h ← get_host;
      match sys_opendir h rootname with
      | None => mret (-1)
      | Some entries =>
          let fullpathoffset := Z.of_nat (length rootname) + 1 in
          let node (diridx : dirent) :=
            if fullpathoffset + Z.of_nat (length (d_name diridx)) <? 1023
            then snd (getitemattr h (rootname ++ [SLASH] ++ d_name diridx)
                                  fileprops_zero fatflag)
            else fileprops_zero in
          set_slot root (Sfsdb (name e) (lastused e) (node <$> entries));;
          mret (Z.of_nat (length entries))
      end
  end.

(** The test each candidate of [findfile] goes through once it lies after
    the cursor: [true] when none of the three [continue] fires. *)
Definition candidate_ok (fcbtmpl : list byte) (attr : byte) (flags : Z)
    (e : fileprops) : bool :=
  if (ch (fcbname e) 0 =? DOT) && negb (Z.land flags FFILE_ISROOT =? 0)
  then false
  else if negb (matchfile2mask fcbtmpl (fcbname e) =? 0) then false
  else if attr =? 8 then negb (Z.land (fattr e) 8 =? 0)
  else Z.lor attr (Z.land (fattr e) 22) =? attr.

(** The scan of [findfile] over the linked list; [n] counts the nodes seen. *)
Fixpoint findfile_loop (dirlist : list fileprops) (n nth : Z)
    (fcbtmpl : list byte) (attr : byte) (flags : Z) : option (Z * fileprops) :=
  match dirlist with
  | [] => None
  | e :: next =>
      let n := n + 1 in
      if n <=? nth then findfile_loop next n nth fcbtmpl attr flags
      else if candidate_ok fcbtmpl attr flags e then Some (n, e)
      else findfile_loop next n nth fcbtmpl attr flags
  end.

(** [findfile]: searches for a file matching the FCB-style template.  The
    result is the return value, the content of [f] and of [nth] afterwards.
    (The source copies [sizeof(struct sdirlist)] bytes into [f], the entry
    and the [next] pointer behind it; the model copies the entry.) *)
Definition findfile (f : fileprops) (dss : Z) (fcbtmpl : list byte)
    (attr : byte) (nth : Z) (flags : Z) : M H (Z * fileprops * Z) :=
  db ← get_fsdb;
  count ←
    (if (nth =? 0) || bool_decide (dirlist (fsdb_get db dss) = [])
     then gendirlist dss (Z.land flags FFILE_ISFAT) else mret 0);
  if count <? 0 then mret (-1, f, nth)
  else
    db ← get_fsdb;
    match findfile_loop (dirlist (fsdb_get db dss)) 0 nth fcbtmpl attr flags with
    | Some (n, e) => mret (0, e, u16 n)
    | None => mret (-1, f, nth)
    end.

(** [createfile]: creates or truncates file [fn] in directory [d]. *)
Definition createfile (f : fileprops) (d fn : list byte) (attr : byte)
    (fatflag : Z) : M H (Z * fileprops) :=
  let fullpath := d ++ [SLASH] ++ fn in
  ok ← sys (sys_fopen_wb fullpath);
  if negb ok then mret (-1, f)
  else
    (if negb (fatflag =? 0) then setitemattr fullpath attr else mret 0);;
    h ← get_host;
    mret (0, snd (getitemattr h fullpath f fatflag)).

(** [diskinfo]: total size in bytes, and the content of [dfree] afterwards. *)
Definition diskinfo (h : H) (path : list byte) (dfree : Z) : Z * Z :=
  match sys_statvfs h path with
  | None => (0, dfree)
  | Some buf =>
      (u64 (f_blocks buf * f_frsize buf), u64 (f_bfree buf * f_bsize buf))
  end.

Definition makedir (d : list byte) : M H Z := sys (sys_mkdir d 0).
Definition remdir (d : list byte) : M H Z := sys (sys_rmdir d).
Definition changedir (d : list byte) : M H Z := sys (sys_chdir d).
Definition renfile (fn1 fn2 : list byte) : M H Z := sys (sys_rename fn1 fn2).

(** [readfile]: the return value and the bytes stored at [buff]. *)
Definition readfile (fss offset len : Z) : M H (Z * list byte) :=
  db ← get_fsdb;
  match name (fsdb_get db fss) with
  | None => mret (-1, [])
  | Some fname =>
      h ← get_host;
      match sys_fread h fname offset len with
      | None => mret (-1, [])
      | Some data => mret (Z.of_nat (length data), data)
      end
  end.

(** [writefile]: writes [len] bytes from [buff] to the file. *)
Definition writefile (buff : list byte) (fss offset len : Z) : M H Z :=
  db ← get_fsdb;
  match name (fsdb_get db fss) with
  | None => mret (-1)
  | Some fname =>
      if len =? 0 then
        sys (sys_truncate fname offset);; mret 0
      else
        res ← sys (sys_fwrite fname offset buff);
        match res with
        | None => mret (-1)
        | Some res => mret res
        end
  end.

(** The first loop of [delfiles]: is there a ['?'], where is the last ['/']. *)
Fixpoint delfiles_scan (pattern : list byte) (i : Z) (ispattern : bool)
    (fileoffset : Z) : bool * Z :=
  match pattern with
  | [] => (ispattern, fileoffset)
  | c :: rest =>
      delfiles_scan rest (i + 1)
        (if c =? QMARK then true else ispattern)
        (if c =? SLASH then i else fileoffset)
  end.

(** The [readdir] loop of [delfiles]. *)
Fixpoint delfiles_loop (entries : list dirent) (dir filfcb : list byte)
    : M H unit :=
  match entries with
  | [] => mret tt
  | diridx :: rest =>
      (if d_type diridx =? DT_DIR then mret tt
       else if matchfile2mask filfcb (filename2fcb (d_name diridx)) =? 0
            then sys (sys_unlink (dir ++ [SLASH] ++ d_name diridx));; mret tt
            else mret tt);;
      delfiles_loop rest dir filfcb
  end.

(** [delfiles]: removes all files matching the pattern. *)
Definition delfiles (pattern : list byte) : M H Z :=
  let '(ispattern, fileoffset) := delfiles_scan pattern 0 false 0 in
  if negb ispattern then
    res ← sys (sys_unlink pattern);
    if negb (res =? 0) then mret (-1) else mret 1
  else
    let dir := take (Z.to_nat fileoffset) pattern in
    let fil := drop (Z.to_nat fileoffset + 1) pattern in
    let filfcb := filename2fcb fil in
    h ← get_host;
    match sys_opendir h dir with
    | None => mret (-1)
    | Some entries => delfiles_loop entries dir filfcb;; mret 0
    end.

(** [getfopsize]: the size of an open file. *)
Definition getfopsize (fss : Z) : M H Z :=
  db ← get_fsdb;
  match name (fsdb_get db fss) with
  | None => mret (-1)
  | Some fname =>
      h ← get_host;
      let '(attr, fprops) := getitemattr h fname fileprops_zero 0 in
      if attr =? 255 then mret (-1) else mret (s64 (fsize fprops))
  end.

(** The tokens [strtok(src, "/")] and [strtok(NULL, "/")] hand out. *)
Fixpoint strtok_slash (src tok : list byte) : list (list byte) :=
  match src with
  | [] => match tok with [] => [] | _ => [tok] end
  | c :: rest =>
      if c =? SLASH then
        match tok with
        | [] => strtok_slash rest []
        | _ => tok :: strtok_slash rest []
        end
      else strtok_slash rest (tok ++ [c])
  end.

(** The inner [readdir] loop of [shorttolong]: the name of the first entry
    whose FCB form is [to_find_fcb] (and that is a directory when another
    token follows). *)
Fixpoint shorttolong_walk (entries : list dirent) (to_find_fcb : list byte)
    (has_next : bool) : option (list byte) :=
  match entries with
  | [] => None
  | entry :: rest =>
      if bool_decide (d_name entry = [DOT]) || bool_decide (d_name entry = [DOT; DOT])
      then shorttolong_walk rest to_find_fcb has_next
      else if streq (filename2fcb (d_name entry)) to_find_fcb then
        if has_next && negb (d_type entry =? DT_DIR)
        then shorttolong_walk rest to_find_fcb has_next
        else Some (d_name entry)
      else shorttolong_walk rest to_find_fcb has_next
  end.

(** The token loop of [shorttolong]; [dst] grows as [writeptr] advances. *)
Fixpoint shorttolong_loop (h : H) (tokens : list (list byte))
    (dst : list byte) : Z * list byte :=
  match tokens with
  | [] => (0, dst)
  | tmpdir :: tmpdir_next =>
      let has_next := match tmpdir_next with [] => false | _ => true end in
      match sys_opendir h dst with
      | None => (-1, dst)
      | Some entries =>
          match shorttolong_walk entries (filename2fcb tmpdir) has_next with
          | Some found =>
              shorttolong_loop h tmpdir_next
                (dst ++ found ++ (if has_next then [SLASH] else []))
          | None => (-1, dst ++ tmpdir)
          end
      end
  end.

(** [shorttolong]: translates a DOS 8.3 path to a host path.  The result is
    the return value and the string left in [dst]; the [assert] ends the
    process when [src] does not start with [root]. *)
Definition shorttolong (src root : list byte) : M H (Z * list byte) :=
  if negb (bool_decide (take (length root) src = root)) then crash
  else
    let src := drop (length root) src in
    let dst := root ++ [SLASH] in
    if negb (ch src 0 =? SLASH) then mret (-1, dst)
    else
      h ← get_host;
      mret (shorttolong_loop h (strtok_slash (drop 1 src) []) dst).
End Fs.

(** ** ethersrv.c *)

Definition PROTOVER : Z := 2.
Definition ANSWCACHESZ : Z := 16.
Definition BUFF_LEN : Z := 2048.

(** [struct struct_answcache]: [frame] is the 1520-byte buffer, [len] an
    [unsigned short]. *)
Record struct_answcache := Answcache {
  frame : list byte;
  timestamp : Z;
  len : Z;
}.

Definition answcache_init : list struct_answcache :=
  replicate (Z.to_nat ANSWCACHESZ) (Answcache (replicate 1520 0) 0 0).

Definition AL_INSTALLCHK : Z := 0.
Definition AL_RMDIR : Z := 1.
Definition AL_MKDIR : Z := 3.
Definition AL_CHDIR : Z := 5.
Definition AL_CLSFIL : Z := 6.
Definition AL_CMMTFIL : Z := 7.
Definition AL_READFIL : Z := 8.
Definition AL_WRITEFIL : Z := 9.
Definition AL_LOCKFIL : Z := 10.
Definition AL_UNLOCKFIL : Z := 11.
Definition AL_DISKSPACE : Z := 12.
Definition AL_SETATTR : Z := 14.
Definition AL_GETATTR : Z := 15.
Definition AL_RENAME : Z := 17.
Definition AL_DELETE : Z := 19.
Definition AL_OPEN : Z := 22.
Definition AL_CREATE : Z := 23.
Definition AL_FINDFIRST : Z := 27.
Definition AL_FINDNEXT : Z := 28.
Definition AL_SKFMEND : Z := 33.
Definition AL_SPOPNFIL : Z := 46.

(** [buf[i]] on a byte buffer; buffers are long enough for every index the
    dispatcher uses, a shorter list reads as zero-filled. *)
Definition rd (buf : list byte) (i : Z) : byte := default 0 (buf !! Z.to_nat i).

(** The [n] bytes at [buf + off], nothing when [n] is not positive. *)
Definition slice (buf : list byte) (off n : Z) : list byte :=
  take (Z.to_nat n) (drop (Z.to_nat off) buf).

(** [memcpy(buf + off, data, length data)]; the bytes that would land
    behind the end of the list are dropped (there the source writes past its
    buffer). *)
Definition store (off : Z) (data : list byte) (buf : list byte) : list byte :=
  list_inserts (Z.to_nat off) data buf.

Definition bytes16 (v : Z) : list byte := [v mod 256; v / 256 mod 256].
Definition bytes32 (v : Z) : list byte :=
  [v mod 256; v / 256 mod 256; v / 65536 mod 256; v / 16777216 mod 256].

Definition rd16 (buf : list byte) (i : Z) : Z := le16 (rd buf i) (rd buf (i + 1)).
Definition rd32 (buf : list byte) (i : Z) : Z :=
  le32 (rd buf i) (rd buf (i + 1)) (rd buf (i + 2)) (rd buf (i + 3)).

(** [*ax = v]: the 16-bit word at bytes 58..59 of the answer, stored in the
    byte order of the (little-endian) host. *)
Definition set_ax (v : Z) (answ : list byte) : list byte := store 58 (bytes16 v) answ.

(** The AX word of a reply frame. *)
Definition ax_of (answ : list byte) : Z := rd16 answ 58.

(** [lostring(s, -1)]. *)
Definition lostring (s : list byte) : list byte := tolower <$> s.

(** [charreplace]. *)
Definition charreplace (s : list byte) (rep repby : byte) : list byte :=
  (λ c, if c =? rep then repby else c) <$> s.

(** The idiom every path-bearing query starts with: [sprintf(p, "%s/", root)],
    [memcpy] of the payload behind it, a terminator, [lostring] from the
    offset on and [charreplace] of ['\\'] by ['/'] over the whole string. *)
Definition dospath (root payload : list byte) : list byte :=
  charreplace (root ++ [SLASH] ++ lostring (c_str payload)) BACKSLASH SLASH.

(** [answcache[i]]. *)
Definition cache_get (answcache : list struct_answcache) (i : Z)
    : struct_answcache :=
  default (Answcache [] 0 0) (answcache !! Z.to_nat i).

(** [findcacheentry]: the index of the cache entry related to the client. *)
Fixpoint findcacheentry_loop (fuel : nat) (i oldest : Z)
    (answcache : list struct_answcache) (clientmac : list byte) : Z :=
  match fuel with
  | O => oldest
  | S fuel' =>
      let e := cache_get answcache i in
      if bool_decide (slice (frame e) 0 6 = clientmac) then i
      else
        let o := cache_get answcache oldest in
        findcacheentry_loop fuel' (i + 1)
          (if timestamp e <? timestamp o then i else oldest)
          answcache clientmac
  end.

Definition findcacheentry (answcache : list struct_answcache)
    (clientmac : list byte) : Z :=
  findcacheentry_loop (Z.to_nat ANSWCACHESZ) 0 0 answcache clientmac.

(** [isroot]: 1 when [dir] lies in the root directory, 0 otherwise. *)
Fixpoint skip_slashes (dir : list byte) : list byte :=
  match dir with
  | c :: rest => if c =? SLASH then skip_slashes rest else dir
  | [] => []
  end.

Definition isroot (root dir : list byte) : Z :=
  let dir := drop (length root) dir in
  let dir := skip_slashes dir in
  if bool_decide (SLASH ∈ dir) then 0 else 1.

(** [explodepath]: the strings left in [dir] and [file]; [None] when the
    second [memcpy] is asked for a negative size. *)
Fixpoint lastbackslash_loop (source : list byte) (i lastbackslash : Z) : Z :=
  match source with
  | [] => lastbackslash
  | c :: rest =>
      lastbackslash_loop rest (i + 1)
        (if (c =? BACKSLASH) || (c =? SLASH) then i else lastbackslash)
  end.

Definition explodepath (buf : list byte) (source sourcelen : Z)
    : option (list byte * list byte) :=
  let '(source, sourcelen) :=
    if (2 <=? sourcelen) && (rd buf (source + 1) =? COLON)
    then (source + 2, sourcelen - 2) else (source, sourcelen) in
  let lastbackslash := lastbackslash_loop (slice buf source sourcelen) 0 0 in
  if sourcelen - (lastbackslash + 1) <? 0 then None
  else Some (c_str (slice buf source (lastbackslash + 1)),
             c_str (slice buf (source + lastbackslash + 1)
                          (sourcelen - (lastbackslash + 1)))).

(** [copy_after_last_slash]: the content of [dst] afterwards. *)
Fixpoint after_last_slash (src : list byte) (found : option (list byte))
    : option (list byte) :=
  match src with
  | [] => found
  | c :: rest => after_last_slash rest (if c =? SLASH then Some rest else found)
  end.

Definition copy_after_last_slash (dst src : list byte) : list byte :=
  default dst (after_last_slash src None).

(** [bsdsum]: the BSD checksum of [l] bytes, on an [unsigned short]. *)
Definition bsdsum (data : list byte) : Z :=
  fold_left (λ res b,
    u16 (u16 (Z.lor (Z.shiftl res 15) (Z.shiftr res 1)) + b)) data 0.

Section Server.
Context {H : Type} `{!HostOps H}.

(** The 24 bytes both FINDFIRST and FINDNEXT answer with. *)
Definition found_file (answ : list byte) (fprops : fileprops)
    (dirss fpos : Z) : list byte :=
  store 60 ([fattr fprops] ++ take 11 (fcbname fprops)
            ++ bytes32 (ftime fprops) ++ bytes32 (fsize fprops)
            ++ bytes16 dirss ++ bytes16 fpos) answ.

(** Every query handler gets the answer frame (header done, AX cleared) and
    gives back the frame and the value [process] returns. *)

Definition q_diskspace (root : list byte) (answ : list byte)
    : M H (list byte * Z) :=
  h ← get_host;
  let '(diskspace, freespace) := diskinfo h root 0 in
  let diskspace := if 2147483647 <=? diskspace then 2147483647 else diskspace in
  let freespace := if 2147483647 <=? freespace then 2147483647 else freespace in
  let answ := set_ax 1 answ in
  let answ := store 62 (bytes16 32768) answ in
  let diskspace := Z.shiftr diskspace 15 in
  let freespace := Z.shiftr freespace 15 in
  let answ := store 60 (bytes16 diskspace) answ in
  let answ := store 64 (bytes16 freespace) answ in
  mret (answ, 6 + 60).

Definition q_readfil (reqbuff : list byte) (answ : list byte)
    : M H (list byte * Z) :=
  let offset := rd32 reqbuff 60 in
  let fileid := rd16 reqbuff 64 in
  let len := rd16 reqbuff 66 in
  '(readlen, data) ← readfile fileid offset len;
  if readlen <? 0 then mret (set_ax 5 answ, 60)
  else mret (store 60 data answ, readlen + 60).

Definition q_writefil (reqbuff : list byte) (reqbufflen : Z)
    (answ : list byte) : M H (list byte * Z) :=
  let offset := rd32 reqbuff 60 in
  let fileid := rd16 reqbuff 64 in
  writelen ← writefile (slice reqbuff 66 (reqbufflen - 6)) fileid offset
                       (u16 (reqbufflen - 6));
  if writelen <? 0 then mret (set_ax 5 answ, 60)
  else mret (store 60 (bytes16 writelen) answ, 2 + 60).

Definition find_flags (isroot_res : Z) (fat : byte) : Z :=
  let flags := 0 in
  let flags := if negb (isroot_res =? 0) then Z.lor flags FFILE_ISROOT else flags in
  if negb (fat =? 0) then Z.lor flags FFILE_ISFAT else flags.

Definition q_findfirst (reqdrv : Z) (root reqbuff : list byte)
    (reqbufflen : Z) (drivesfat : list byte) (answ : list byte)
    : M H (list byte * Z) :=
  let fattr := rd reqbuff 60 in
  match explodepath reqbuff 61 (reqbufflen - 1) with
  | None => crash
  | Some (dir, filemask) =>
      let directory :=
        charreplace (root ++ [SLASH] ++ lostring dir) BACKSLASH SLASH in
      let filemask := lostring filemask in
      let filemaskfcb := filename2fcb filemask in
      let flags := find_flags (isroot root directory) (rd drivesfat reqdrv) in
      '(_, host_directory) ← shorttolong directory root;
      dirss ← getitemss host_directory;
      if dirss =? 65535 then mret (set_ax 18 answ, 60)
      else
        '(res, fprops, fpos) ←
          findfile fileprops_zero dirss filemaskfcb fattr 0 flags;
        if negb (res =? 0) then mret (set_ax 18 answ, 60)
        else mret (found_file answ fprops dirss fpos, 24 + 60)
  end.

Definition q_findnext (reqdrv : Z) (root reqbuff : list byte)
    (drivesfat : list byte) (answ : list byte) : M H (list byte * Z) :=
  let dirss := rd16 reqbuff 60 in
  let fpos := rd16 reqbuff 62 in
  let fattr := rd reqbuff 64 in
  let fcbmask := slice reqbuff 65 11 in
  item ← sstoitem dirss;
  match item with
  | None => crash (* isroot reads through the NULL pointer *)
  | Some dir =>
      let flags := find_flags (isroot root dir) (rd drivesfat reqdrv) in
      '(res, fprops, fpos) ← findfile fileprops_zero dirss fcbmask fattr fpos flags;
      if negb (res =? 0) then mret (set_ax 18 answ, 60)
      else mret (found_file answ fprops dirss fpos, 24 + 60)
  end.

Definition q_mkdir_rmdir (query : Z) (root reqbuff : list byte)
    (reqbufflen : Z) (answ : list byte) : M H (list byte * Z) :=
  let directory := dospath root (slice reqbuff 60 reqbufflen) in
  '(_, host_directory) ← shorttolong directory root;
  res ← (if query =? AL_MKDIR then makedir host_directory
         else remdir host_directory);
  if negb (res =? 0) then mret (set_ax 29 answ, 60) else mret (answ, 60).

Definition q_chdir (root reqbuff : list byte) (reqbufflen : Z)
    (answ : list byte) : M H (list byte * Z) :=
  let directory := dospath root (slice reqbuff 60 reqbufflen) in
  '(res, host_directory) ← shorttolong directory root;
  if negb (res =? 0) then mret (set_ax 3 answ, 60)
  else
    res ← changedir host_directory;
    if negb (res =? 0) then mret (set_ax 3 answ, 60) else mret (answ, 60).

Definition q_setattr (reqdrv : Z) (root reqbuff : list byte)
    (reqbufflen : Z) (drivesfat : list byte) (answ : list byte)
    : M H (list byte * Z) :=
  let fattr := rd reqbuff 60 in
  let fullpathname := dospath root (slice reqbuff 61 (reqbufflen - 1)) in
  '(res, host_fullpathname) ← shorttolong fullpathname root;
  if negb (res =? 0) then mret (set_ax 2 answ, 60)
  else if negb (rd drivesfat reqdrv =? 0) then
    res ← setitemattr host_fullpathname fattr;
    if negb (res =? 0) then mret (set_ax 2 answ, 60) else mret (answ, 60)
  else mret (answ, 60).

Definition q_getattr (reqdrv : Z) (root reqbuff : list byte)
    (reqbufflen : Z) (drivesfat : list byte) (answ : list byte)
    : M H (list byte * Z) :=
  let fullpathname := dospath root (slice reqbuff 60 reqbufflen) in
  '(res, host_fullpathname) ← shorttolong fullpathname root;
  if negb (res =? 0) then mret (set_ax 2 answ, 60)
  else
    h ← get_host;
    let '(attr, fprops) :=
      getitemattr h host_fullpathname fileprops_zero (rd drivesfat reqdrv) in
    if attr =? 255 then mret (set_ax 2 answ, 60)
    else mret (store 60 (bytes32 (ftime fprops) ++ bytes32 (fsize fprops)
                         ++ [fattr fprops]) answ, 9 + 60).

Definition q_rename (root reqbuff : list byte) (reqbufflen : Z)
    (answ : list byte) : M H (list byte * Z) :=
  let fn1len := rd reqbuff 60 in
  let fn2len := reqbufflen - (1 + fn1len) in
  if fn1len <? reqbufflen then
    let fn1 := dospath root (slice reqbuff 61 fn1len) in
    let fn2 := dospath root (slice reqbuff (61 + fn1len) fn2len) in
    '(res, host_fn1) ← shorttolong fn1 root;
    if negb (res =? 0) then mret (answ, 60)
    else
      h ← get_host;
      if negb (fst (getitemattr h fn2 fileprops_zero 0) =? 255)
      then mret (set_ax 5 answ, 60)
      else
        res ← renfile host_fn1 fn2;
        if negb (res =? 0) then mret (set_ax 5 answ, 60) else mret (answ, 60)
  else mret (set_ax 2 answ, 60).

Definition q_delete (reqdrv : Z) (root reqbuff : list byte)
    (reqbufflen : Z) (drivesfat : list byte) (answ : list byte)
    : M H (list byte * Z) :=
  let fullpathname := dospath root (slice reqbuff 60 reqbufflen) in
  '(res, host_fullpathname) ← shorttolong fullpathname root;
  if negb (res =? 0) then mret (set_ax 2 answ, 60)
  else
    h ← get_host;
    if negb (Z.land (fst (getitemattr h host_fullpathname fileprops_zero
                                      (rd drivesfat reqdrv))) 1 =? 0)
    then mret (set_ax 5 answ, 60)
    else
      res ← delfiles host_fullpathname;
      if res <? 0 then mret (set_ax 2 answ, 60) else mret (answ, 60).

Definition q_skfmend (reqbuff : list byte) (answ : list byte)
    : M H (list byte * Z) :=
  let offs := s32 (rd32 reqbuff 60) in
  let fss := rd16 reqbuff 64 in
  let offs := if 0 <? offs then 0 else offs in
  fsize ← getfopsize fss;
  if fsize <? 0 then mret (set_ax 2 answ, 60)
  else
    let offs := s32 (offs + fsize) in
    let offs := if offs <? 0 then 0 else offs in
    mret (store 60 (bytes32 offs) answ, 4 + 60).

(** OPEN, CREATE and SPOPNFIL share one handler. *)
Definition q_open (query reqdrv : Z) (root reqbuff : list byte)
    (reqbufflen : Z) (drivesfat : list byte) (answ : list byte)
    : M H (list byte * Z) :=
  let stackattr := rd16 reqbuff 60 in
  let actioncode := rd16 reqbuff 62 in
  let spopen_openmode := rd16 reqbuff 64 in
  let fatflag := rd drivesfat reqdrv in
  if reqbufflen - 6 <? 0 then crash (* memcpy of a negative size *)
  else
  let fullpathname := dospath root (slice reqbuff 66 (reqbufflen - 6)) in
  match explodepath reqbuff 66 (reqbufflen - 6) with
  | None => crash
  | Some (dir, fname) =>
      let directory :=
        charreplace (root ++ [SLASH] ++ lostring dir) BACKSLASH SLASH in
      '(res, host_directory) ← shorttolong directory root;
      res ← (if negb (res =? 0) then mret res else changedir host_directory);
      if negb (res =? 0) then mret (set_ax 3 answ, 60)
      else
        '(res, host_fullpathname) ← shorttolong fullpathname root;
        let '(fname, host_fullpathname) :=
          if res =? 0
          then (copy_after_last_slash fname host_fullpathname, host_fullpathname)
          else (fname, host_directory ++ [SLASH] ++ fname) in
        '(fileres, fprops, spopres, resopenmode) ←
          (if query =? AL_CREATE then
             '(fileres, fprops) ←
               createfile fileprops_zero host_directory fname
                          (Z.land stackattr 255) fatflag;
             mret (fileres, fprops, 0, 2)
           else if query =? AL_SPOPNFIL then
             h ← get_host;
             let '(attr, fprops) :=
               getitemattr h host_fullpathname fileprops_zero fatflag in
             let resopenmode := Z.land spopen_openmode 127 in
             if attr =? 255 then
               if Z.land actioncode 240 =? 16 then
                 '(fileres, fprops) ←
                   createfile fprops host_directory fname
                              (Z.land stackattr 255) fatflag;
                 mret (fileres, fprops, if fileres =? 0 then 2 else 0, resopenmode)
               else mret (1, fprops, 0, resopenmode)
             else if negb (Z.land attr (Z.lor FAT_VOL FAT_DIR) =? 0) then
               mret (1, fprops, 0, resopenmode)
             else if Z.land actioncode 15 =? 1 then
               mret (0, fprops, 1, resopenmode)
             else if Z.land actioncode 15 =? 2 then
               '(fileres, fprops) ←
                 createfile fprops host_directory fname
                            (Z.land stackattr 255) fatflag;
               mret (fileres, fprops, if fileres =? 0 then 3 else 0, resopenmode)
             else mret (1, fprops, 0, resopenmode)
           else
             h ← get_host;
             let '(attr, fprops) :=
               getitemattr h host_fullpathname fileprops_zero fatflag in
             mret (if negb (attr =? 255)
                      && (Z.land attr (Z.lor FAT_VOL FAT_DIR) =? 0)
                   then 0 else 1,
                   fprops, 0, Z.land stackattr 255));
        if negb (fileres =? 0) then mret (set_ax 2 answ, 60)
        else
          fileid ← getitemss host_fullpathname;
          if fileid =? 65535 then mret (answ, -1)
          else
            mret (store 60 ([fattr fprops] ++ take 11 (fcbname fprops)
                            ++ bytes32 (ftime fprops) ++ bytes32 (fsize fprops)
                            ++ bytes16 fileid ++ bytes16 spopres
                            ++ [resopenmode]) answ, 25 + 60)
  end.

(** The chain of [if]s of [process] over the query byte; [reqbufflen] is the
    length of the payload. *)
Definition dispatch (query reqdrv : Z) (root reqbuff : list byte)
    (reqbufflen : Z) (drivesfat : list byte) (answ : list byte)
    : M H (list byte * Z) :=
  if query =? AL_DISKSPACE then q_diskspace root answ
  else if (query =? AL_READFIL) && (reqbufflen =? 8) then q_readfil reqbuff answ
  else if (query =? AL_WRITEFIL) && (6 <=? reqbufflen) then
    q_writefil reqbuff reqbufflen answ
  else if (query =? AL_LOCKFIL) || (query =? AL_UNLOCKFIL) then mret (answ, 60)
  else if query =? AL_FINDFIRST then
    q_findfirst reqdrv root reqbuff reqbufflen drivesfat answ
  else if query =? AL_FINDNEXT then q_findnext reqdrv root reqbuff drivesfat answ
  else if (query =? AL_MKDIR) || (query =? AL_RMDIR) then
    q_mkdir_rmdir query root reqbuff reqbufflen answ
  else if query =? AL_CHDIR then q_chdir root reqbuff reqbufflen answ
  else if query =? AL_CLSFIL then mret (set_ax 0 answ, 60)
  else if (query =? AL_SETATTR) && (1 <? reqbufflen) then
    q_setattr reqdrv root reqbuff reqbufflen drivesfat answ
  else if (query =? AL_GETATTR) && (0 <? reqbufflen) then
    q_getattr reqdrv root reqbuff reqbufflen drivesfat answ
  else if (query =? AL_RENAME) && (2 <? reqbufflen) then
    q_rename root reqbuff reqbufflen answ
  else if query =? AL_DELETE then
    q_delete reqdrv root reqbuff reqbufflen drivesfat answ
  else if (query =? AL_OPEN) || (query =? AL_CREATE) || (query =? AL_SPOPNFIL) then
    q_open query reqdrv root reqbuff reqbufflen drivesfat answ
  else if (query =? AL_SKFMEND) && (reqbufflen =? 6) then q_skfmend reqbuff answ
  else mret (answ, -1) (* unknown query - ignore *).

(** The entry with its frame buffer rewritten. *)
Definition with_frame (e : struct_answcache) (fr : list byte) : struct_answcache :=
  Answcache fr (timestamp e) (len e).

(** The reply header: the request's first 60 bytes, the source address
    moved into the destination field and [mymac] put in its place. *)
Definition reply_header (answ reqbuff mymac : list byte) : list byte :=
  let answ := store 0 (slice reqbuff 0 60) answ in
  let answ := store 0 (slice answ 6 6) answ in
  store 6 (slice mymac 0 6) answ.

(** The cache check at the head of [process]. *)
Definition cache_hit (answer : struct_answcache) (reqbuff : list byte) : bool :=
  (rd (frame answer) 57 =? rd reqbuff 57)
  && bool_decide (slice (frame answer) 0 6 = slice reqbuff 6 6)
  && (0 <? len answer).

(** [process]: the value returned and the cache entry as it is left. *)
Definition process (answer : struct_answcache) (reqbuff : list byte)
    (reqbufflen : Z) (mymac : list byte)
    (rootarray : list (option (list byte))) (drivesfat : list byte)
    : M H (Z * struct_answcache) :=
  let answ := frame answer in
  if reqbufflen <? 60 then mret (-1, answer)
  else if cache_hit answer reqbuff then mret (len answer, answer)
  else
    let answ := reply_header answ reqbuff mymac in
    let reqdrv := Z.land (rd reqbuff 58) 31 in
    let query := rd reqbuff 59 in
    let reqbufflen := reqbufflen - 60 in
    let left answ := with_frame answer answ in
    if (reqdrv <? 2) || (25 <? reqdrv) then mret (-3, left answ)
    else
      match default None (rootarray !! Z.to_nat reqdrv) with
      | None => mret (-3, left answ)
      | Some root =>
          let answ := set_ax 0 answ in
          '(answ, res) ←
            dispatch query reqdrv root reqbuff reqbufflen drivesfat answ;
          mret (res, left answ)
      end.

(** The server between two frames: the answer cache and the world. *)
Record server := Server {
  answcache : list struct_answcache;
  srv_world : world H;
}.

Definition ETHER_BROADCAST : list byte := [255; 255; 255; 255; 255; 255].

(** The checks of the main loop on a received frame: the length to go on
    with and the checksum flag, or [None] for [continue]. *)
Definition accept (mymac buff : list byte) (len : Z) : option (Z * Z) :=
  if len <? 60 then None
  else if negb (bool_decide (slice buff 0 6 = slice mymac 0 6))
          && negb (bool_decide (slice buff 0 6 = ETHER_BROADCAST)) then None
  else if negb ((rd buff 12 =? 237) && (rd buff 13 =? 245)) then None
  else if negb (Z.land (rd buff 56) 127 =? PROTOVER) then None
  else
    let cksumflag := Z.shiftr (rd buff 56) 7 in
    let edf5framelen := rd16 buff 52 in
    if (0 <? edf5framelen) && ((len <? edf5framelen) || (edf5framelen <? 60))
    then None
    else
      let len := if 0 <? edf5framelen then edf5framelen else len in
      if negb (cksumflag =? 0)
         && negb (bsdsum (slice buff 56 (u16 (len - 56))) =? rd16 buff 54)
      then None
      else Some (len, cksumflag).

(** The part of the main loop that prepares the outgoing frame. *)
Definition outgoing (fr : list byte) (len cksumflag : Z) : list byte :=
  let fr := <[52%nat := Z.land len 255]> fr in
  let fr := <[53%nat := Z.land (Z.shiftr len 8) 255]> fr in
  if negb (cksumflag =? 0) then
    let newcksum := bsdsum (slice fr 56 (u16 (len - 56))) in
    let fr := <[54%nat := Z.land newcksum 255]> fr in
    let fr := <[55%nat := Z.land (Z.shiftr newcksum 8) 255]> fr in
    <[56%nat := Z.lor (rd fr 56) 128]> fr
  else
    let fr := <[54%nat := 0]> fr in
    let fr := <[55%nat := 0]> fr in
    <[56%nat := Z.land (rd fr 56) 127]> fr.

(** One turn of the main loop on a frame of [len] bytes received into
    [buff]: the server afterwards and the frame sent, if any.  [send] is given
    the frame buffer and a length: the frame sent is what the buffer holds
    up to that length.  For a length above the size of the buffer the source
    goes on behind it, into the fields and entries that follow in
    [answcache], which the byte list does not hold: what is said below
    about a frame sent is said for a length within the buffer.  [None] when
    the process ends. *)
Definition serve (mymac : list byte) (rootarray : list (option (list byte)))
    (drivesfat : list byte) (st : server) (buff : list byte) (len : Z)
    : option (server * option (list byte)) :=
  match accept mymac buff len with
  | None => Some (st, None)
  | Some (len, cksumflag) =>
      let cacheptr := findcacheentry (answcache st) (slice buff 6 6) in
      let entry := cache_get (answcache st) cacheptr in
      match process entry buff len mymac rootarray drivesfat (srv_world st) with
      | None => None
      | Some ((n, entry), w) =>
          (* [n] is the new value of the variable [len] *)
          let entry :=
            if 0 <=? n
            then Answcache (frame entry) (sys_time (w_host w)) (u16 n)
            else Answcache (frame entry) (timestamp entry) 0 in
          let entry :=
            if 0 <? n
            then with_frame entry (outgoing (frame entry) n cksumflag)
            else entry in
          Some (Server (<[Z.to_nat cacheptr := entry]> (answcache st)) w,
                if 0 <? n then Some (slice (frame entry) 0 n) else None)
      end
  end.
End Server.
Arguments server : clear implicits.

(** ** A simulated host

    A small in-memory file system that implements the host interface; the
    concrete runs below are made on it.  Paths are compared by their
    components, every file reads as zero bytes, and a read-only host
    refuses every change. *)
Module Sim.

Inductive node := Dir | File (size : Z).

Record host := Host {
  nodes : list (list (list byte) * node);  (* components of the path, node *)
  now : Z;
  readonly : bool;
  vfs : option statvfs_t;
}.

Definition path (p : list byte) : list (list byte) := strtok_slash p [].

Definition lookup (h : host) (p : list (list byte)) : option node :=
  (λ r : nat * (list (list byte) * node), snd (snd r))
    <$> list_find (λ e, fst e = p) (nodes h).

Definition parent (p : list (list byte)) : list (list byte) :=
  take (length p - 1) p.

Definition children (h : host) (p : list (list byte)) : list dirent :=
  omap (λ e : list (list byte) * node,
          if bool_decide (fst e ≠ [] ∧ parent (fst e) = p)
          then Some (Dirent (List.last (fst e) [])
                            (match snd e with Dir => 4 | File _ => 8 end))
          else None) (nodes h).

Definition remove (h : host) (p : list (list byte)) : host :=
  Host (filter (λ e, fst e ≠ p) (nodes h)) (now h) (readonly h) (vfs h).

Definition add (h : host) (p : list (list byte)) (n : node) : host :=
  Host (nodes (remove h p) ++ [(p, n)]) (now h) (readonly h) (vfs h).

Definition change (ok : host → bool) (f : host → host) (h : host) : Z * host :=
  if negb (readonly h) && ok h then (0, f h) else (-1, h).

Definition is_dir (h : host) (p : list (list byte)) : bool :=
  match lookup h p with Some Dir => true | _ => false end.
Definition is_file (h : host) (p : list (list byte)) : bool :=
  match lookup h p with Some (File _) => true | _ => false end.
Definition size_of (h : host) (p : list (list byte)) : Z :=
  match lookup h p with Some (File n) => n | _ => 0 end.

Global Instance ops : HostOps host := {|
  sys_time h := now h;
  sys_localtime h t := None;
  sys_stat h p :=
    match lookup h (path p) with
    | Some Dir => Some (Stat true 4096 0)
    | Some (File n) => Some (Stat false n 0)
    | None => None
    end;
  sys_fat_ioctl_get h p := IoctlFailed;
  sys_fat_ioctl_set p a h := (Some (-1), h);
  sys_opendir h p :=
    if is_dir h (path p) then Some (children h (path p)) else None;
  sys_statvfs h p := vfs h;
  sys_fread h p offset n :=
    if is_file h (path p)
    then Some (replicate (Z.to_nat (Z.min n (size_of h (path p) - offset))) 0)
    else None;
  sys_fwrite p offset data h :=
    if negb (readonly h) && is_file h (path p)
    then (Some (Z.of_nat (length data)),
          add h (path p)
              (File (Z.max (size_of h (path p)) (offset + Z.of_nat (length data)))))
    else (None, h);
  sys_fopen_wb p h :=
    if negb (readonly h) && is_dir h (parent (path p)) && negb (is_dir h (path p))
    then (true, add h (path p) (File 0)) else (false, h);
  sys_truncate p n :=
    change (λ h, is_file h (path p)) (λ h, add h (path p) (File n));
  sys_unlink p :=
    change (λ h, is_file h (path p)) (λ h, remove h (path p));
  sys_mkdir p mode :=
    change (λ h, is_dir h (parent (path p))
                 && bool_decide (lookup h (path p) = None))
           (λ h, add h (path p) Dir);
  sys_rmdir p :=
    change (λ h, is_dir h (path p)
                 && bool_decide (children h (path p) = []))
           (λ h, remove h (path p));
  sys_chdir p h := (if is_dir h (path p) then 0 else -1, h);
  sys_rename p q :=
    change (λ h, is_file h (path p) && is_dir h (parent (path q)))
           (λ h, add (remove h (path p)) (path q) (File (size_of h (path p))));
|}.

End Sim.

(** ** The FCB layout, stated on lists

    The layout of the block [filename2fcb] fills, written with list
    functions instead of index loops, to compare the loops with. *)
Module FcbSpec.

(** The prefix of [s] before the first byte that satisfies [p]. *)
Fixpoint take_until (p : byte → bool) (s : list byte) : list byte :=
  match s with
  | [] => []
  | c :: rest => if p c then [] else c :: take_until p rest
  end.

(** The suffix of [s] that starts at the first byte that satisfies [p]. *)
Fixpoint drop_until (p : byte → bool) (s : list byte) : list byte :=
  match s with
  | [] => []
  | c :: rest => if p c then s else drop_until p rest
  end.

Definition is_dot (c : byte) : bool := c =? DOT.
Definition is_space (c : byte) : bool := c =? SPACE.

(** The number of leading dots kept, at most 8. *)
Definition lead_dots (s : list byte) : nat :=
  length (take_until (λ c, negb (is_dot c)) (take 8 s)).

(** What follows the leading dots. *)
Definition body (s : list byte) : list byte := drop (lead_dots s) s.

(** The name part: the body up to its first ['.']. *)
Definition name_part (s : list byte) : list byte := take_until is_dot (body s).

(** What follows the first ['.'] of the body. *)
Definition after_first_dot (s : list byte) : list byte :=
  drop 1 (drop_until is_dot (body s)).

(** What follows the last ['.'] of the body, nothing without a ['.']. *)
Fixpoint after_last_dot_from (s : list byte) (found : list byte) : list byte :=
  match s with
  | [] => found
  | c :: rest => after_last_dot_from rest (if is_dot c then rest else found)
  end.
Definition after_last_dot (s : list byte) : list byte :=
  after_last_dot_from (body s) [].

(** [l] cut or space-padded to [n] bytes. *)
Definition pad (n : nat) (l : list byte) : list byte :=
  take n (l ++ replicate n SPACE).

(** The name field: the leading dots, then the name bytes without spaces, in
    upper case. *)
Definition name_field (s : list byte) : list byte :=
  pad 8 (replicate (lead_dots s) DOT
         ++ (upchar <$> filter (λ c, c ≠ SPACE) (name_part s))).

(** The block with the extension taken after the LAST ['.'], as the
    specification words it. *)
Definition fcb_last_dot (s : list byte) : list byte :=
  name_field s ++ pad 3 (upchar <$> after_last_dot s).

(** The block with the extension taken after the FIRST ['.'] that follows
    the name part, up to the next ['.'] or space. *)
Definition fcb_first_dot (s : list byte) : list byte :=
  name_field s
  ++ pad 3 (upchar <$> take_until (λ c, is_dot c || is_space c) (after_first_dot s)).

(** Does the list end with a space? *)
Fixpoint last_is_space (l : list byte) : bool :=
  match l with
  | [] => false
  | [c] => c =? SPACE
  | _ :: rest => last_is_space rest
  end.

(** The name bytes [name_loop] writes when it may still write [fuel] bytes
    and reads at [r]. *)
Definition name_bytes (fuel : nat) (r : list byte) : list byte :=
  take fuel (upchar <$> filter (λ c, c ≠ SPACE) (take_until is_dot r)).

(** The extension bytes [ext_loop] writes when it may still write [fuel]
    bytes and reads at [r]. *)
Definition ext_bytes (fuel : nat) (r : list byte) : list byte :=
  take fuel (upchar <$> take_until (λ c, is_dot c || is_space c) r).

End FcbSpec.

(** [answ'] has the length of [answ] and its first 58 bytes: all of the
    header but the AX word. *)
Definition keeps_header (answ answ' : list byte) : Prop :=
  take 58 answ' = take 58 answ ∧ length answ' = length answ.

(** A query handler that leaves the header of [answ] alone, whatever it
    returns. *)
Definition header_safe {H} (answ : list byte) (m : M H (list byte * Z)) : Prop :=
  ∀ w answ' res w', m w = Some ((answ', res), w') → keeps_header answ answ'.

(** The attribute filter of the directory search in the spec's words: a
    request for the volume label wants the volume bit, any other request
    rejects a candidate that has a hidden (bit 1), system (bit 2) or
    directory (bit 4) bit the request does not have. *)
Definition attr_pass (attr fattr : Z) : Prop :=
  if decide (attr = 8) then Z.testbit fattr 3 = true
  else ∀ b, b ∈ [1; 2; 4] → Z.testbit fattr b = true → Z.testbit attr b = true.

(** ** ethersrv.c: the helpers of the main loop and the start-up *)

(** [cmpdata]: compares two chunks of data, 0 when they are the same. *)
Fixpoint cmpdata_loop (fuel : nat) (d1 d2 : list byte) (i : Z) : Z :=
  match fuel with
  | O => 0
  | S fuel' =>
      if negb (rd d1 i =? rd d2 i) then 1
      else cmpdata_loop fuel' d1 d2 (i + 1)
  end.

Definition cmpdata (d1 d2 : list byte) (len : Z) : Z :=
  cmpdata_loop (Z.to_nat len) d1 d2 0.

(** [lostring] on a buffer, with its bound: [n < 0] processes the string up
    to its terminator, [n >= 0] at most [n] characters of it. *)
Fixpoint lostring_bounded (n : nat) (s : list byte) : list byte :=
  match n, s with
  | S n', c :: rest =>
      if c =? NUL then s else tolower c :: lostring_bounded n' rest
  | _, _ => s
  end.

Definition lostring_n (s : list byte) (n : Z) : list byte :=
  if n <? 0 then lostring_bounded (length s) s
  else lostring_bounded (Z.to_nat n) s.

(** The two calls [main] makes on the host before it listens. *)
Class BootOps (H : Type) := {
  sys_realpath : H → list byte → option (list byte);
  (* statfs: the file-system type, None when the call fails *)
  sys_statfs : H → list byte → option Z;
}.

Definition MSDOS_SUPER_MAGIC : Z := 19780. (* 0x4d44, linux/magic.h *)

(** How [main] ends its start-up: with an exit code, or with the interface
    name and the drive tables it goes on with. *)
Inductive startup :=
  | Exit (code : Z)
  | Mapped (intname : list byte) (root : list (option (list byte)))
           (drivesfat : list byte).

Section Boot.
Context {H : Type} `{!BootOps H}.

(** [isfat] (fs.c, the Linux variant): 0 when the path resides on a FAT
    file system, -1 otherwise. *)
Definition isfat (h : H) (d : list byte) : Z :=
  match sys_statfs h d with
  | None => -1
  | Some f_type => if negb (f_type =? MSDOS_SUPER_MAGIC) then -1 else 0
  end.

(** The loop of [main] that loads the virtual drive paths, at index [i] with
    the arguments [argv] still to load.  [root] and [drivesfat] have 26
    entries; a store at index 26 or more lands behind them, and the
    computation has no result. *)
Fixpoint load_roots (h : H) (i : Z) (argv : list (list byte))
    (intname : list byte) (root : list (option (list byte)))
    (drivesfat : list byte) : option startup :=
  match argv with
  | [] => Some (Mapped intname root drivesfat)
  | arg :: rest =>
      match sys_realpath h arg with
      | None => Some (Exit 1)
      | Some tmppath =>
          if 26 <=? i + 2 then None
          else
            load_roots h (i + 1) rest intname
              (<[Z.to_nat (i + 2) := Some tmppath]> root)
              (<[Z.to_nat (i + 2) := if isfat h tmppath =? 0 then 1 else 0]>
                 drivesfat)
      end
  end.

(** The start of [main] once the options are read: [args] are the arguments
    from [optind] on, the interface name and the root paths. *)
Definition main_drives (h : H) (args : list (list byte)) : option startup :=
  let n := Z.of_nat (length args) in
  if (n <? 2) || (26 <? n) then Some (Exit 1)
  else
    match args with
    | [] => Some (Exit 1)
    | intname :: paths =>
        load_roots h 0 paths intname (replicate 26 None) (replicate 26 0)
    end.
End Boot.

(** ** Statements about paths *)

Section Resolved.
Context {H : Type} `{!HostOps H}.

(** [dst'] extends [dst] by one directory entry per token: each entry is
    listed in the directory reached so far, is neither [.] nor [..], has the
    FCB name of its token, and is a directory when another token follows. *)
Inductive resolves (h : H) : list byte → list (list byte) → list byte → Prop :=
  | resolves_nil dst : resolves h dst [] dst
  | resolves_cons dst tok rest entries entry dst' :
      sys_opendir h dst = Some entries →
      entry ∈ entries →
      d_name entry ≠ [DOT] → d_name entry ≠ [DOT; DOT] →
      streq (filename2fcb (d_name entry)) (filename2fcb tok) = true →
      (rest ≠ [] → d_type entry = DT_DIR) →
      resolves h (dst ++ d_name entry ++ (if rest is [] then [] else [SLASH]))
               rest dst' →
      resolves h dst (tok :: rest) dst'.

(** The host after the files [names] of directory [dir] have been unlinked
    in turn, whatever each [unlink] returns. *)
Definition unlink_all (dir : list byte) (names : list (list byte)) (h : H) : H :=
  foldl (λ h fn, snd (sys_unlink (dir ++ [SLASH] ++ fn) h)) h names.
End Resolved.

(** [b] is a lower-case letter. *)
Definition is_lower (b : byte) : Prop := chr "a" ≤ b ≤ chr "z".

(** The fields of a DOS timestamp. *)
Record dostime := Dostime {
  dos_year : Z; dos_month : Z; dos_day : Z;
  dos_hour : Z; dos_min : Z; dos_sec2 : Z
}.

(** A 32-bit DOS timestamp taken apart: seven bits of years since 1980, four
    of month, five of day, five of hours, six of minutes and five of
    two-second units. *)
Definition dos_decode (d : Z) : dostime :=
  Dostime (Z.shiftr d 25) (Z.land (Z.shiftr d 21) 15) (Z.land (Z.shiftr d 16) 31)
          (Z.land (Z.shiftr d 11) 31) (Z.land (Z.shiftr d 5) 63) (Z.land d 31).

(** A query handler that returns -1 or the length of a reply of at least
    60 bytes. *)
Definition reply_length_ok {H} (m : M H (list byte * Z)) : Prop :=
  ∀ w answ res w', m w = Some ((answ, res), w') → res = -1 ∨ 60 ≤ res.

(** ** A sample installation

    One client, one drive C: mapped to [/srv/c] on the simulated host, and
    the request frames the concrete runs below send. *)
Module Demo.

Definition MYMAC : list byte := [2; 0; 0; 0; 0; 254].
Definition CLIENT : list byte := [2; 0; 0; 0; 0; 1].

(** A request frame: addresses, ethertype, 38 bytes of padding, the length
    field left at 0 (the received length counts), no checksum, then the
    protocol byte, the sequence byte, the drive, the query and its payload. *)
Definition mk_frame (proto seq drv al : byte) (payload : list byte) : list byte :=
  MYMAC ++ CLIENT ++ [237; 245] ++ replicate 38 0 ++ [0; 0] ++ [0; 0]
  ++ [proto; seq; drv; al] ++ payload.

(** The same frame with the checksum flag set and the checksum filled in. *)
Definition with_cksum (fr : list byte) : list byte :=
  let fr := <[56%nat := Z.lor (rd fr 56) 128]> fr in
  let cksum := bsdsum (drop 56 fr) in
  <[55%nat := cksum / 256]> (<[54%nat := cksum mod 256]> fr).

Definition ROOT : list byte := cstr "/srv/c".
Definition rootarray : list (option (list byte)) := [None; None; Some ROOT].
Definition drivesfat : list byte := replicate 26 0.

(** 10 GiB in total, 4 GiB free; [tmp] holds three files, [big.bin] is a
    file of 2 GiB. *)
Definition host0 : Sim.host := Sim.Host
  [ (Sim.path (cstr "/srv"), Sim.Dir);
    (Sim.path (cstr "/srv/c"), Sim.Dir);
    (Sim.path (cstr "/srv/c/tmp"), Sim.Dir);
    (Sim.path (cstr "/srv/c/tmp/A.TMP"), Sim.File 10);
    (Sim.path (cstr "/srv/c/tmp/b.tmp"), Sim.File 20);
    (Sim.path (cstr "/srv/c/tmp/keep.txt"), Sim.File 30);
    (Sim.path (cstr "/srv/c/big.bin"), Sim.File 2147483648) ]
  1000 false (Some (Statvfs 2621440 4096 1048576 4096)).

(** The server as [main] starts it. *)
Definition st0 : server Sim.host := Server answcache_init (World host0 fsdb_init).

(** A frame as the main loop receives it. *)
Definition run (st : server Sim.host) (fr : list byte)
  : option (server Sim.host * option (list byte)) :=
  serve MYMAC rootarray drivesfat st fr (Z.of_nat (length fr)).

(** The server after it has handled the frames of [frs], oldest first. *)
Definition after (frs : list (list byte)) : option (server Sim.host) :=
  foldl (λ st fr, st ← st; fst <$> run st fr) (Some st0) frs.

(** The reply to [fr] of a server that has handled [frs] before. *)
Definition reply_after (frs : list (list byte)) (fr : list byte)
  : option (option (list byte)) :=
  st ← after frs; snd <$> run st fr.

Definition req_installchk : list byte := mk_frame 2 7 2 AL_INSTALLCHK [].
Definition req_diskspace : list byte := mk_frame 2 7 2 AL_DISKSPACE [].
Definition req_diskspace_cksum : list byte := with_cksum req_diskspace.

(** OPEN of [\BIG.BIN], sequence byte 1. *)
Definition req_open_big : list byte :=
  mk_frame 2 1 2 AL_OPEN ([0; 0; 0; 0; 0; 0] ++ cstr "\BIG.BIN").

(** READFIL of 2000 bytes at offset 0 of file 0, sequence byte 2. *)
Definition req_read_2000 : list byte :=
  mk_frame 2 2 2 AL_READFIL ([0; 0; 0; 0] ++ [0; 0] ++ bytes16 2000).

(** SKFMEND with offset 0 on file 0, sequence byte 3. *)
Definition req_seek_end : list byte :=
  mk_frame 2 3 2 AL_SKFMEND ([0; 0; 0; 0] ++ [0; 0]).

(** READFIL and FINDNEXT on id 5, which no request has handed out. *)
Definition req_read_stale : list byte :=
  mk_frame 2 4 2 AL_READFIL ([0; 0; 0; 0] ++ [5; 0] ++ bytes16 10).
Definition req_findnext_stale : list byte :=
  mk_frame 2 5 2 AL_FINDNEXT ([5; 0] ++ [0; 0] ++ [0] ++ replicate 11 QMARK).

(** DELETE of [\TMP\????????.TMP], as DOS sends [DEL C:\TMP\*.TMP]. *)
Definition req_delete_wild : list byte :=
  mk_frame 2 6 2 AL_DELETE (cstr "\TMP\????????.TMP").

(** OPEN of [\TMP\KEEP.TXT], sequence byte 9. *)
Definition req_open_keep : list byte :=
  mk_frame 2 9 2 AL_OPEN ([0; 0; 0; 0; 0; 0] ++ cstr "\TMP\KEEP.TXT").

(** WRITEFIL without data at offset 4 of file 1 (a truncation). *)
Definition req_truncate : list byte :=
  mk_frame 2 8 2 AL_WRITEFIL ([4; 0; 0; 0] ++ [1; 0]).

(** SKFMEND with offset -10 on file 1. *)
Definition req_seek_keep : list byte :=
  mk_frame 2 10 2 AL_SKFMEND ([246; 255; 255; 255] ++ [1; 0]).

(** The handle table once [big.bin] and [keep.txt] have been opened: ids 0
    and 1. *)
Definition fsdb_opened : gmap Z sfsdb :=
  <[1 := Sfsdb (Some (cstr "/srv/c/tmp/keep.txt")) 1000 []]>
    (<[0 := Sfsdb (Some (cstr "/srv/c/big.bin")) 1000 []]> fsdb_init).

Definition w_opened : world Sim.host := World host0 fsdb_opened.

(** The same with a host that refuses every change. *)
Definition host_ro : Sim.host :=
  Sim.Host (Sim.nodes host0) (Sim.now host0) true (Sim.vfs host0).
Definition w_opened_ro : world Sim.host := World host_ro fsdb_opened.

(** The cache entry a first request of the client is given. *)
Definition answer0 : struct_answcache := cache_get answcache_init 0.

End Demo.

(** ** More sample data

    Further request frames for the sample installation, a host that only
    has a clock, and a host for the start-up of [main]. *)
Module Cases.
Import Demo.

(** COMMIT FILE (07h), which the dispatcher has no branch for. *)
Definition req_commit : list byte := mk_frame 2 11 2 AL_CMMTFIL [0; 0].

(** READFIL with a payload of four bytes instead of eight. *)
Definition req_read_short : list byte :=
  mk_frame 2 12 2 AL_READFIL [0; 0; 0; 0].

(** DISKSPACE for drive B:. *)
Definition req_drive_b : list byte := mk_frame 2 13 1 AL_DISKSPACE [].

(** LOCKFIL on file 5, which no request has handed out. *)
Definition req_lock : list byte :=
  mk_frame 2 14 2 AL_LOCKFIL ([5; 0] ++ replicate 8 0).

(** RENAME of [\NOPE.TXT], which does not exist, to [\NEW.TXT]. *)
Definition req_rename_missing : list byte :=
  mk_frame 2 15 2 AL_RENAME ([9] ++ cstr "\NOPE.TXT" ++ cstr "\NEW.TXT").

(** FINDFIRST with the attribute byte and no search path. *)
Definition req_findfirst_empty : list byte := mk_frame 2 16 2 AL_FINDFIRST [0].

(** FINDNEXT in directory 2 behind position 1, any name. *)
Definition req_findnext : list byte :=
  mk_frame 2 17 2 AL_FINDNEXT ([2; 0] ++ [1; 0] ++ [0] ++ replicate 11 QMARK).

(** A handle table whose slot 2 holds a listing of two files. *)
Definition fsdb_listed : gmap Z sfsdb :=
  <[2 := Sfsdb (Some (cstr "/srv/c/tmp")) 1000
           [Fileprops (cstr "A       TMP") 10 0 0;
            Fileprops (cstr "KEEP    TXT") 30 0 0]]> fsdb_init.

(** The world once [big.bin] alone has been opened. *)
Definition w_big : world Sim.host :=
  World host0 (<[0 := Sfsdb (Some (cstr "/srv/c/big.bin")) 1000 []]> fsdb_init).

(** READFIL of 10 bytes at offset 0 of file 1. *)
Definition req_read_10 : list byte :=
  mk_frame 2 18 2 AL_READFIL ([0; 0; 0; 0] ++ [1; 0] ++ bytes16 10).

(** WRITEFIL of three bytes at offset 0 of file 1. *)
Definition req_write_3 : list byte :=
  mk_frame 2 19 2 AL_WRITEFIL ([0; 0; 0; 0] ++ [1; 0] ++ cstr "abc").

(** GETATTR of [\TMP\KEEP.TXT]. *)
Definition req_getattr : list byte :=
  mk_frame 2 20 2 AL_GETATTR (cstr "\TMP\KEEP.TXT").

(** A host that has a clock and nothing else: it is 30 October 2026 all
    day, the time of day follows the seconds given. *)
Record clock := Clock { clock_now : Z }.

Global Instance clock_ops : HostOps clock := {|
  sys_time h := clock_now h;
  sys_localtime h t :=
    Some (Tm 126 9 30 (t / 3600 mod 24) (t / 60 mod 60) (t mod 60));
  sys_stat h p := None;
  sys_fat_ioctl_get h p := OpenFailed;
  sys_fat_ioctl_set p a h := (None, h);
  sys_opendir h p := None;
  sys_statvfs h p := None;
  sys_fread h p offset n := None;
  sys_fwrite p offset data h := (None, h);
  sys_fopen_wb p h := (false, h);
  sys_truncate p n h := (-1, h);
  sys_unlink p h := (-1, h);
  sys_mkdir p mode h := (-1, h);
  sys_rmdir p h := (-1, h);
  sys_chdir p h := (-1, h);
  sys_rename p q h := (-1, h);
|}.

(** A host for the start-up: the paths that exist, each with the type of
    the file system it lies on. *)
Record boothost := Boothost { mounts : list (list byte * Z) }.

Fixpoint mount_type (ms : list (list byte * Z)) (p : list byte) : option Z :=
  match ms with
  | [] => None
  | (q, t) :: rest => if bool_decide (q = p) then Some t else mount_type rest p
  end.

Global Instance boot_ops : BootOps boothost := {|
  sys_realpath h p := (λ _, p) <$> mount_type (mounts h) p;
  sys_statfs h p := mount_type (mounts h) p;
|}.

(** [/srv/c] on ext4, [/mnt/fat] on FAT. *)
Definition boot0 : boothost :=
  Boothost [(cstr "/srv/c", 61267); (cstr "/mnt/fat", MSDOS_SUPER_MAGIC)].

End Cases.

(** * Theorems *)

(** ** The FCB conversion *)

Import FcbSpec.


Section FcbProofs.
Implicit Types (s d r : list byte) (i j k : nat).

Lemma ch_drop s i : ch s i = match drop i s with c :: _ => c | [] => NUL end.
Proof.
  unfold ch. rewrite <- (Nat.add_0_r i) at 1. rewrite <- lookup_drop.
  by destruct (drop i s).
Qed.

Lemma drop_S_tail s i c r : drop i s = c :: r → drop (S i) s = r.
Proof.
  intros E. replace (S i) with (i + 1)%nat by lia.
  by rewrite <- drop_drop, E.
Qed.

Lemma inserts_cons_comm d i (x : byte) (k : list byte) :
  list_inserts i (x :: k) d = list_inserts (S i) k (<[i := x]> d).
Proof. simpl. apply list_insert_inserts_lt. lia. Qed.

Lemma dots_loop_spec s fuel : ∀ i d,
  dots_loop fuel i s d =
    let m := length (take_until (λ c, negb (is_dot c)) (take fuel (drop i s))) in
    ((i + m)%nat, list_inserts i (replicate m DOT) d).
Proof.
  induction fuel as [|fuel IH]; intros i d; simpl.
  - by rewrite Nat.add_0_r.
  - rewrite ch_drop. destruct (drop i s) as [|c r] eqn:E; simpl.
    + by rewrite Nat.add_0_r.
    + change (c =? DOT) with (is_dot c). destruct (is_dot c) eqn:Ec; simpl.
      * rewrite IH. cbv zeta. rewrite (drop_S_tail _ _ _ _ E).
        f_equal; [lia|]. symmetry. apply list_insert_inserts_lt. lia.
      * by rewrite Nat.add_0_r.
Qed.

Lemma skip_spaces_spec s fuel : ∀ j,
  (length (drop j s) ≤ fuel)%nat →
  skip_spaces fuel s j =
    (j + length (take_until (λ c, negb (is_space c)) (drop j s)))%nat.
Proof.
  induction fuel as [|fuel IH]; intros j Hf; simpl.
  - destruct (drop j s); simpl in *; lia.
  - rewrite ch_drop. destruct (drop j s) as [|c r] eqn:E; simpl; [lia|].
    change (c =? SPACE) with (is_space c). destruct (is_space c) eqn:Ec; simpl; [|lia].
    rewrite IH; rewrite (drop_S_tail _ _ _ _ E); simpl in *; lia.
Qed.

Lemma take_until_spaces r :
  let sp := length (take_until (λ c, negb (is_space c)) r) in
  take_until is_dot r = replicate sp SPACE ++ take_until is_dot (drop sp r).
Proof.
  induction r as [|c r IH]; simpl; [done|].
  destruct (is_space c) eqn:Ec; simpl.
  - apply Z.eqb_eq in Ec. subst c. simpl. f_equal. apply IH.
  - done.
Qed.

Lemma last_is_space_replicate n : n ≠ 0%nat → last_is_space (replicate n SPACE) = true.
Proof.
  induction n as [|n IH]; [done|]. intros _. simpl.
  destruct n; [done|]. apply IH. lia.
Qed.

Lemma last_is_space_app l1 l2 : l2 ≠ [] → last_is_space (l1 ++ l2) = last_is_space l2.
Proof.
  intros Hl. induction l1 as [|c l1 IH]; simpl; [done|].
  destruct (l1 ++ l2) eqn:E; [|done].
  destruct l1, l2; simplify_eq/=.
Qed.

Lemma filter_spaces n r :
  filter (λ c, c ≠ SPACE) (replicate n SPACE ++ r) = filter (λ c, c ≠ SPACE) r.
Proof.
  induction n as [|n IH]; simpl; [done|].
  rewrite filter_cons_False by (intros ?; done). done.
Qed.

Lemma name_loop_spec s : NUL ∉ s → ∀ fuel i j d,
  last_is_space (take_until is_dot (drop j s)) = false →
  name_loop fuel i j s d =
    let w := name_bytes fuel (drop j s) in
    ((i + length w)%nat, list_inserts i w d).
Proof.
  intros Hnul. induction fuel as [|fuel IH]; intros i j d Hlast; simpl.
  - unfold name_bytes. simpl. by rewrite Nat.add_0_r.
  - rewrite ch_drop. destruct (drop j s) as [|c r] eqn:E.
    + simpl. by rewrite Nat.add_0_r.
    + assert (c ∈ s) as Hc.
      { apply (list_elem_of_lookup_2 _ j). rewrite <- (Nat.add_0_r j), <- lookup_drop. by rewrite E. }
      assert (c ≠ NUL) as Hc0 by (intros ->; done).
      change (c =? DOT) with (is_dot c). destruct (is_dot c) eqn:Ec; simpl.
      { unfold name_bytes. simpl. rewrite Ec. simpl. by rewrite Nat.add_0_r. }
      destruct (c =? NUL) eqn:Ec'; [apply Z.eqb_eq in Ec'; done|]. simpl.
      rewrite skip_spaces_spec by (rewrite !length_drop; lia).
      rewrite E.
      set (sp := length (take_until (λ c, negb (is_space c)) (c :: r))).
      pose proof (take_until_spaces (c :: r)) as Hsp. cbv zeta in Hsp. fold sp in Hsp.
      rewrite ch_drop.
      assert (drop (j + sp) s = drop sp (c :: r)) as Ed by (by rewrite <- drop_drop, E).
      rewrite Ed.
      destruct (drop sp (c :: r)) as [|c1 r1] eqn:E1.
      { (* only spaces up to the end *)
        exfalso. try rewrite E1 in Hsp. simpl take_until at 2 in Hsp. rewrite app_nil_r in Hsp.
        rewrite Hsp in Hlast. rewrite last_is_space_replicate in Hlast; [done|].
        subst sp. simpl. destruct (is_space c) eqn:Es; simpl; [lia|].
        simpl in E1. rewrite Es in E1. simpl in E1. done. }
      assert (c1 ≠ SPACE) as Hc1.
      { intros ->. clear -E1. subst sp. revert E1.
        generalize (c :: r). intros l. induction l as [|x l IH]; simpl; [done|].
        destruct (is_space x) eqn:Ex; simpl.
        - apply IH.
        - intros [= -> _]. done. }
      assert (is_dot c1 = false) as Hd1.
      { destruct (is_dot c1) eqn:Ed1; [|done]. exfalso.
        try rewrite E1 in Hsp. simpl take_until at 2 in Hsp. rewrite Ed1, app_nil_r in Hsp.
        rewrite Hsp in Hlast.
        destruct (decide (sp = 0%nat)) as [Hz|Hz].
        - rewrite Hz in E1. simpl in E1. injection E1 as -> ->.
          congruence.
        - rewrite last_is_space_replicate in Hlast; done. }
      rewrite IH.
      2:{ rewrite (drop_S_tail _ _ _ _ Ed).
          try rewrite E1 in Hsp. simpl take_until at 2 in Hsp. rewrite Hd1 in Hsp.
          rewrite Hsp in Hlast.
          destruct (take_until is_dot r1) eqn:Et; [done|].
          rewrite last_is_space_app in Hlast by done. simpl in Hlast. done. }
      cbv zeta. rewrite (drop_S_tail _ _ _ _ Ed).
      assert (name_bytes (S fuel) (c :: r) = upchar c1 :: name_bytes fuel r1) as ->.
      { unfold name_bytes. rewrite Hsp. rewrite filter_spaces. simpl take_until.
        rewrite Hd1. rewrite filter_cons_True by done. done. }
      simpl length. f_equal; [lia|].
      rewrite inserts_cons_comm. done.
Qed.


Lemma find_dot_spec s : NUL ∉ s → ∀ fuel k,
  (length (drop k s) ≤ fuel)%nat →
  find_dot fuel s k = (k + length (take_until is_dot (drop k s)))%nat.
Proof.
  intros Hnul. induction fuel as [|fuel IH]; intros k Hf; simpl.
  - destruct (drop k s); simpl in *; lia.
  - rewrite ch_drop. destruct (drop k s) as [|c r] eqn:E; simpl; [lia|].
    change (c =? DOT) with (is_dot c). destruct (is_dot c) eqn:Ec; simpl; [lia|].
    assert (c ∈ s) as Hc.
    { apply (list_elem_of_lookup_2 _ k). rewrite <- (Nat.add_0_r k), <- lookup_drop. by rewrite E. }
    destruct (c =? NUL) eqn:Ec'; [apply Z.eqb_eq in Ec'; subst; done|].
    rewrite IH; rewrite (drop_S_tail _ _ _ _ E); simpl in *; lia.
Qed.

Lemma take_until_drop (p : byte → bool) r m :
  (m ≤ length (take_until p r))%nat →
  (m + length (take_until p (drop m r)) = length (take_until p r))%nat.
Proof.
  revert m. induction r as [|c r IH]; intros m; simpl.
  - intros. destruct m; simpl; lia.
  - destruct (p c) eqn:Ec; simpl.
    + intros. assert (m = 0%nat) as -> by lia. simpl. by rewrite Ec.
    + destruct m as [|m]; simpl; [by rewrite Ec|]. intros. rewrite IH; lia.
Qed.

Lemma drop_take_until (p : byte → bool) r :
  drop (length (take_until p r)) r = drop_until p r.
Proof.
  induction r as [|c r IH]; simpl; [done|]. by destruct (p c).
Qed.

Lemma drop_until_head (p : byte → bool) r c r' :
  drop_until p r = c :: r' → p c = true.
Proof.
  induction r as [|x r IH]; simpl; [done|].
  destruct (p x) eqn:Ex; [|done]. by intros [= -> _].
Qed.

Lemma ext_loop_spec s k : NUL ∉ s → ∀ fuel j d,
  ext_loop fuel j s k d =
    list_inserts (8 + j) (ext_bytes fuel (drop (k + j) s)) d.
Proof.
  intros Hnul. induction fuel as [|fuel IH]; intros j d; simpl; [done|].
  rewrite ch_drop. destruct (drop (k + j) s) as [|c r] eqn:E; [done|].
  assert (c ∈ s) as Hc.
  { apply (list_elem_of_lookup_2 _ (k + j)).
    rewrite <- (Nat.add_0_r (k + j)), <- lookup_drop. by rewrite E. }
  assert ((c =? NUL) = false) as Hc0.
  { apply Z.eqb_neq. intros ->. done. }
  rewrite Hc0, orb_false_r.
  unfold ext_bytes. simpl take_until.
  change (c =? DOT) with (is_dot c). change (c =? SPACE) with (is_space c).
  destruct (is_dot c || is_space c) eqn:Ec; [done|].
  rewrite IH. replace (k + S j)%nat with (S (k + j)) by lia.
  rewrite (drop_S_tail _ _ _ _ E). simpl.
  symmetry. apply list_insert_inserts_lt. lia.
Qed.

Lemma inserts_fill (a k : list byte) n :
  (length k ≤ n)%nat →
  list_inserts (length a) k (a ++ replicate n SPACE)
  = (a ++ k) ++ replicate (n - length k) SPACE.
Proof.
  intros Hk. rewrite <- (Nat.add_0_r (length a)), list_inserts_app_r.
  rewrite <- app_assoc. f_equal.
  replace n with (length k + (n - length k))%nat at 1 by lia.
  rewrite replicate_add. apply list_inserts_0_r. by rewrite length_replicate.
Qed.

Lemma lead_dots_le s : (lead_dots s ≤ 8)%nat.
Proof.
  unfold lead_dots.
  assert (∀ p (r : list byte), length (take_until p r) ≤ length r)%nat as Hle.
  { intros p r. induction r as [|c r IH]; simpl; [done|]. destruct (p c); simpl; lia. }
  etrans; [apply Hle|]. rewrite length_take. lia.
Qed.

Lemma pad_take n (l : list byte) :
  pad n l = take n l ++ replicate (n - length l) SPACE.
Proof.
  unfold pad. rewrite take_app, take_replicate. do 2 f_equal. lia.
Qed.

(** C6, as amended: for every file name (a C string) whose name part does
    not end in a space, [filename2fcb] produces the 11-byte block that starts
    as all spaces, keeps the leading dots (at most 8), copies up to 8 name
    bytes in upper case, without the spaces, up to the first ['.'] or the end,
    and then copies up to 3 extension bytes, in upper case, taken after the
    FIRST ['.'] that follows the name part, up to the next ['.'] or space. *)
Theorem filename2fcb_layout s :
  NUL ∉ s →
  last_is_space (name_part s) = false →
  filename2fcb s = fcb_first_dot s.
Proof.
  intros Hnul Hlast. unfold filename2fcb.
  rewrite dots_loop_spec. cbv zeta. rewrite Nat.add_0_l.
  change (drop 0 s) with s. fold (lead_dots s).
  pose proof (lead_dots_le s) as Hi0.
  rewrite (name_loop_spec s Hnul) by exact Hlast. cbv zeta.
  fold (body s). fold (name_part s).
  set (i0 := lead_dots s) in *.
  set (w := name_bytes (8 - i0) (body s)).
  assert (length w ≤ 8 - i0)%nat as Hw by (subst w; unfold name_bytes; rewrite length_take; lia).
  assert (length (name_part s) = length (take_until is_dot (body s))) as Hnp by done.
  assert (length w ≤ length (name_part s))%nat as Hw'.
  { subst w. unfold name_bytes. fold (name_part s).
    rewrite length_take, length_fmap.
    etrans; [apply Nat.le_min_r|]. apply length_filter. }
  cbv beta iota.
  rewrite (find_dot_spec s Hnul) by (rewrite length_drop; lia).
  assert (drop (i0 + length w) s = drop (length w) (body s)) as Edrop.
  { unfold body. fold i0. rewrite drop_drop. done. }
  rewrite Edrop.
  pose proof (take_until_drop is_dot (body s) (length w) Hw') as Hp.
  replace (i0 + length w + length (take_until is_dot (drop (length w) (body s))))%nat
    with (i0 + length (take_until is_dot (body s)))%nat by lia.
  rewrite ch_drop.
  assert (drop (i0 + length (take_until is_dot (body s))) s = drop_until is_dot (body s)) as Ed.
  { rewrite <- drop_take_until. unfold body. fold i0. by rewrite drop_drop. }
  rewrite Ed.
  set (full := upchar <$> filter (λ c, c ≠ SPACE) (name_part s)).
  assert (w = take (8 - i0) full) as Hwf by done.
  assert (length w = (8 - i0) `min` length full)%nat as Hlw
    by (rewrite Hwf, length_take; done).
  assert (name_field s
          = (replicate i0 DOT ++ w) ++ replicate (8 - i0 - length w) SPACE) as Hnf.
  { unfold name_field. fold i0. fold full. rewrite pad_take.
    rewrite take_app, length_replicate, take_replicate, length_app, length_replicate.
    replace (8 `min` i0)%nat with i0 by lia. rewrite <- Hwf.
    f_equal. f_equal. lia. }
  assert (length (name_field s) = 8%nat) as Hnfl.
  { rewrite Hnf, !length_app, !length_replicate. lia. }
  assert (list_inserts i0 w (list_inserts 0 (replicate i0 DOT) (replicate 11 SPACE))
          = name_field s ++ replicate 3 SPACE) as ->.
  { assert (list_inserts 0 (replicate i0 DOT) (replicate 11 SPACE)
            = replicate i0 DOT ++ replicate (11 - i0) SPACE) as ->.
    { pose proof (inserts_fill [] (replicate i0 DOT) 11) as Hf1.
      rewrite length_replicate in Hf1. apply Hf1. lia. }
    rewrite <- (length_replicate i0 DOT) at 1.
    rewrite inserts_fill by lia.
    rewrite Hnf, <- !app_assoc. do 2 f_equal.
    rewrite <- replicate_add. f_equal. lia. }
  unfold fcb_first_dot.
  destruct (drop_until is_dot (body s)) as [|c r] eqn:Edu.
  - simpl. unfold after_first_dot. rewrite Edu. done.
  - pose proof (drop_until_head _ _ _ _ Edu) as Hc. unfold is_dot in Hc.
    apply Z.eqb_eq in Hc. subst c. change (DOT =? NUL) with false. cbv beta iota.
    rewrite (ext_loop_spec s _ Hnul). rewrite !Nat.add_0_r.
    rewrite (drop_S_tail _ _ _ _ Ed).
    unfold after_first_dot. rewrite Edu. simpl drop.
    set (e := ext_bytes 3 r).
    assert (length e ≤ 3)%nat by (subst e; unfold ext_bytes; rewrite length_take; lia).
    change (8 + 0)%nat with 8%nat. rewrite <- Hnfl at 1.
    rewrite inserts_fill by done. rewrite <- app_assoc. f_equal.
    rewrite pad_take. fold (ext_bytes 3 r). fold e. f_equal. f_equal.
    subst e. unfold ext_bytes. rewrite length_take, !length_fmap.
    change (drop 0 r) with r. lia.
Qed.

End FcbProofs.

(** ** Buffers, conversions and the way into the dispatcher *)


(** * Buffers *)

Lemma length_store off data buf : length (store off data buf) = length buf.
Proof. apply length_inserts. Qed.

Lemma rd_store_lt off data buf i :
  0 ≤ i < off → rd (store off data buf) i = rd buf i.
Proof.
  intros Hi. unfold rd, store. by rewrite list_lookup_inserts_lt by lia.
Qed.

Lemma rd_store_ge off data buf i :
  0 ≤ off → off + Z.of_nat (length data) ≤ i →
  rd (store off data buf) i = rd buf i.
Proof.
  intros Ho Hi. unfold rd, store. by rewrite list_lookup_inserts_ge by lia.
Qed.

Lemma rd_store_in off data buf i :
  0 ≤ off ≤ i → i < off + Z.of_nat (length data) →
  i < Z.of_nat (length buf) →
  rd (store off data buf) i = rd data (i - off).
Proof.
  intros Ho Hi Hl. unfold rd, store.
  rewrite list_lookup_inserts by lia. do 2 f_equal. lia.
Qed.

Lemma rd_insert_ne (i : nat) (j : Z) b buf :
  0 ≤ j → Z.of_nat i ≠ j → rd (<[i := b]> buf) j = rd buf j.
Proof.
  intros Hj Hne. unfold rd. by rewrite list_lookup_insert_ne by lia.
Qed.

Lemma rd_insert_eq (i : nat) b buf :
  (i < length buf)%nat → rd (<[i := b]> buf) (Z.of_nat i) = b.
Proof.
  intros Hl. unfold rd. rewrite Nat2Z.id. by rewrite list_lookup_insert_eq.
Qed.

Lemma bytes16_rd16 v off buf :
  0 ≤ v < 65536 → 0 ≤ off → off + 2 ≤ Z.of_nat (length buf) →
  rd16 (store off (bytes16 v) buf) off = v.
Proof.
  intros Hv Ho Hl. unfold rd16, le16.
  rewrite !rd_store_in by (simpl; lia).
  replace (off - off) with 0 by lia. replace (off + 1 - off) with 1 by lia.
  unfold bytes16, rd. simpl.
  rewrite (Z.mod_small (v / 256)) by (split; [apply Z.div_pos|apply Z.div_lt_upper_bound]; lia).
  pose proof (Z.div_mod v 256). lia.
Qed.

Lemma bytes32_rd32 v off buf :
  0 ≤ v < 4294967296 → 0 ≤ off → off + 4 ≤ Z.of_nat (length buf) →
  rd32 (store off (bytes32 v) buf) off = v.
Proof.
  intros Hv Ho Hl. unfold rd32, le32.
  rewrite !rd_store_in by (simpl; lia).
  replace (off - off) with 0 by lia. replace (off + 1 - off) with 1 by lia.
  replace (off + 2 - off) with 2 by lia. replace (off + 3 - off) with 3 by lia.
  unfold bytes32, rd. simpl.
  assert (v / 256 / 256 = v / 65536) as E2 by (by rewrite Z.div_div by lia).
  assert (v / 65536 / 256 = v / 16777216) as E3 by (by rewrite Z.div_div by lia).
  pose proof (Z.div_mod v 256 ltac:(lia)) as H1.
  pose proof (Z.div_mod (v / 256) 256 ltac:(lia)) as H2.
  pose proof (Z.div_mod (v / 65536) 256 ltac:(lia)) as H3.
  rewrite E2 in H2. rewrite E3 in H3.
  assert (v / 16777216 mod 256 = v / 16777216) as ->.
  { apply Z.mod_small. split; [apply Z.div_pos|apply Z.div_lt_upper_bound]; lia. }
  lia.
Qed.

Lemma rd16_store_lt off data buf i :
  0 ≤ i → i + 1 < off → rd16 (store off data buf) i = rd16 buf i.
Proof. intros. unfold rd16. by rewrite !rd_store_lt by lia. Qed.

Lemma rd16_store_ge off data buf i :
  0 ≤ off → off + Z.of_nat (length data) ≤ i →
  rd16 (store off data buf) i = rd16 buf i.
Proof. intros. unfold rd16. by rewrite !rd_store_ge by lia. Qed.

Lemma ax_of_set_ax v answ :
  0 ≤ v < 65536 → (60 ≤ length answ)%nat → ax_of (set_ax v answ) = v.
Proof. intros. unfold ax_of, set_ax. apply bytes16_rd16; lia. Qed.

Lemma ax_of_store off data answ :
  60 ≤ off → ax_of (store off data answ) = ax_of answ.
Proof. intros. unfold ax_of. apply rd16_store_lt; lia. Qed.

(** * Signed conversions *)

Lemma signed_range w x : 0 < w → - 2 ^ (w - 1) ≤ signed w x < 2 ^ (w - 1).
Proof.
  intros Hw. unfold signed.
  assert (2 ^ w = 2 * 2 ^ (w - 1)) as E.
  { rewrite <- Z.pow_succ_r by lia. f_equal. lia. }
  pose proof (Z.pow_pos_nonneg 2 (w - 1) ltac:(lia) ltac:(lia)).
  pose proof (Z.mod_pos_bound x (2 ^ w) ltac:(lia)).
  destruct (x mod 2 ^ w <? 2 ^ (w - 1)) eqn:E'; rewrite ?Z.ltb_lt, ?Z.ltb_ge in E'; lia.
Qed.

Lemma signed_small w x :
  0 < w → - 2 ^ (w - 1) ≤ x < 2 ^ (w - 1) → signed w x = x.
Proof.
  intros Hw Hx. unfold signed.
  assert (2 ^ w = 2 * 2 ^ (w - 1)) as E.
  { rewrite <- Z.pow_succ_r by lia. f_equal. lia. }
  pose proof (Z.pow_pos_nonneg 2 (w - 1) ltac:(lia) ltac:(lia)).
  destruct (decide (0 ≤ x)).
  - rewrite Z.mod_small by lia.
    destruct (x <? 2 ^ (w - 1)) eqn:E'; rewrite ?Z.ltb_lt, ?Z.ltb_ge in E'; lia.
  - assert (x mod 2 ^ w = x + 2 ^ w) as ->.
    { symmetry. apply (Z.mod_unique x (2 ^ w) (-1)); lia. }
    destruct (x + 2 ^ w <? 2 ^ (w - 1)) eqn:E'; rewrite ?Z.ltb_lt, ?Z.ltb_ge in E'; lia.
Qed.

(** * The monad *)

Lemma bind_eq {H A B} (m : M H A) (f : A → M H B) w :
  (m ≫= f) w = match m w with Some (a, w') => f a w' | None => None end.
Proof. done. Qed.

Section Process.
Context {H : Type} `{!HostOps H}.

(** How [process] reaches the dispatcher. *)
Lemma process_miss answer reqbuff reqbufflen mymac rootarray drivesfat root (w : world H) :
  60 ≤ reqbufflen →
  cache_hit answer reqbuff = false →
  2 ≤ Z.land (rd reqbuff 58) 31 ≤ 25 →
  rootarray !! Z.to_nat (Z.land (rd reqbuff 58) 31) = Some (Some root) →
  process answer reqbuff reqbufflen mymac rootarray drivesfat w =
    match dispatch (rd reqbuff 59) (Z.land (rd reqbuff 58) 31) root reqbuff
                   (reqbufflen - 60) drivesfat
                   (set_ax 0 (reply_header (frame answer) reqbuff mymac)) w with
    | Some ((answ, res), w') => Some ((res, with_frame answer answ), w')
    | None => None
    end.
Proof.
  intros Hlen Hmiss Hdrv Hroot. unfold process.
  destruct (reqbufflen <? 60) eqn:E; [apply Z.ltb_lt in E; lia|].
  rewrite Hmiss.
  destruct (Z.land (rd reqbuff 58) 31 <? 2) eqn:E1; [apply Z.ltb_lt in E1; lia|].
  destruct (25 <? Z.land (rd reqbuff 58) 31) eqn:E2; [apply Z.ltb_lt in E2; lia|].
  simpl. rewrite Hroot. simpl. rewrite bind_eq.
  destruct (dispatch _ _ _ _ _ _ _ w) as [[[answ res] w']|]; done.
Qed.

Lemma length_reply_header answ reqbuff mymac :
  length (reply_header answ reqbuff mymac) = length answ.
Proof. unfold reply_header. by rewrite !length_store. Qed.

Lemma length_set_ax v answ : length (set_ax v answ) = length answ.
Proof. apply length_store. Qed.

(** C7: a DISKSPACE request that reaches the dispatcher is answered with 66
    bytes: AX=1, CX=32768, and in BX and DX the total and free byte counts of
    the host, each capped at 2^31-1 and then shifted right by 15; a host with
    2 GiB or more in total (free) reports 65535 clusters in BX (DX). *)
Theorem diskspace_reply answer reqbuff reqbufflen mymac rootarray drivesfat root (w : world H) :
  (66 ≤ length (frame answer))%nat →
  60 ≤ reqbufflen →
  cache_hit answer reqbuff = false →
  2 ≤ Z.land (rd reqbuff 58) 31 ≤ 25 →
  rootarray !! Z.to_nat (Z.land (rd reqbuff 58) 31) = Some (Some root) →
  rd reqbuff 59 = AL_DISKSPACE →
  let total := fst (diskinfo (w_host w) root 0) in
  let free := snd (diskinfo (w_host w) root 0) in
  ∃ answ,
    process answer reqbuff reqbufflen mymac rootarray drivesfat w
      = Some ((66, with_frame answer answ), w)
    ∧ ax_of answ = 1
    ∧ rd16 answ 60 = Z.shiftr (Z.min total 2147483647) 15
    ∧ rd16 answ 62 = 32768
    ∧ rd16 answ 64 = Z.shiftr (Z.min free 2147483647) 15
    ∧ (2147483648 ≤ total → rd16 answ 60 = 65535)
    ∧ (2147483648 ≤ free → rd16 answ 64 = 65535).
Proof.
  intros Hfr Hlen Hmiss Hdrv Hroot Hq total free.
  rewrite (process_miss _ _ _ _ _ _ root) by done.
  rewrite Hq. unfold dispatch. simpl. unfold q_diskspace.
  rewrite bind_eq. unfold get_host. cbv beta iota.
  destruct (diskinfo (w_host w) root 0) as [t f] eqn:Ed.
  assert (0 ≤ t < 2 ^ 64 ∧ 0 ≤ f < 2 ^ 64) as [Ht Hf].
  { unfold diskinfo in Ed. destruct (sys_statvfs (w_host w) root).
    - injection Ed as <- <-. unfold u64. split; apply Z.mod_pos_bound; lia.
    - injection Ed as <- <-. lia. }
  subst total free. simpl fst. simpl snd.
  set (hdr := set_ax 0 (reply_header (frame answer) reqbuff mymac)).
  assert (length hdr = length (frame answer)) as Hl
    by (subst hdr; by rewrite length_set_ax, length_reply_header).
  assert (∀ x, 0 ≤ x < 2 ^ 64 →
    (if 2147483647 <=? x then 2147483647 else x) = Z.min x 2147483647) as Hmin.
  { intros x Hx. destruct (2147483647 <=? x) eqn:E; rewrite ?Z.leb_le, ?Z.leb_gt in E; lia. }
  rewrite !Hmin by done.
  assert (∀ x, 0 ≤ x → 0 ≤ Z.shiftr (Z.min x 2147483647) 15 < 65536) as Hsh.
  { intros x Hx. rewrite Z.shiftr_div_pow2 by lia. split.
    - apply Z.div_pos; lia.
    - apply Z.div_lt_upper_bound; lia. }
  assert (∀ x, 2147483648 ≤ x → Z.shiftr (Z.min x 2147483647) 15 = 65535) as Hbig.
  { intros x Hx. rewrite Z.min_r by lia. reflexivity. }
  eexists. split; [reflexivity|].
  set (T := Z.shiftr (Z.min t 2147483647) 15).
  set (F := Z.shiftr (Z.min f 2147483647) 15).
  assert (0 ≤ T < 65536) by (apply Hsh; lia).
  assert (0 ≤ F < 65536) by (apply Hsh; lia).
  set (a1 := store 62 (bytes16 32768) (set_ax 1 hdr)).
  assert (length a1 = length (frame answer)) as Hl1
    by (subst a1; by rewrite length_store, length_set_ax).
  assert (rd16 (store 64 (bytes16 F) (store 60 (bytes16 T) a1)) 60 = T) as E60.
  { rewrite rd16_store_lt by lia. apply bytes16_rd16; lia. }
  assert (rd16 (store 64 (bytes16 F) (store 60 (bytes16 T) a1)) 64 = F) as E64.
  { apply bytes16_rd16; rewrite ?length_store; lia. }
  rewrite E60, E64.
  split; [|split; [done|split; [|split; [done|split]]]].
  - rewrite !ax_of_store by lia. subst a1. rewrite ax_of_store by lia.
    apply ax_of_set_ax; lia.
  - rewrite rd16_store_lt by lia. rewrite rd16_store_ge by (simpl; lia).
    subst a1. apply bytes16_rd16; rewrite ?length_set_ax; lia.
  - intros Hx. subst T. by apply Hbig.
  - intros Hx. subst F. by apply Hbig.
Qed.
End Process.

(** ** The directory search *)


Lemma testbit_22 n : 0 ≤ n → Z.testbit 22 n = bool_decide (n ∈ [1; 2; 4]).
Proof.
  intros Hn. destruct (decide (n < 5)).
  - assert (n = 0 ∨ n = 1 ∨ n = 2 ∨ n = 3 ∨ n = 4) as Hc by lia.
    destruct Hc as [-> | [-> | [-> | [-> | ->]]]]; reflexivity.
  - rewrite Z.bits_above_log2 by (change (Z.log2 22) with 4; lia).
    symmetry. apply bool_decide_eq_false. rewrite !elem_of_cons, elem_of_nil. lia.
Qed.

Lemma land_8_testbit f : Z.land f 8 = 0 ↔ Z.testbit f 3 = false.
Proof.
  split.
  - intros Hz. pose proof (Z.land_spec f 8 3) as Hs. rewrite Hz in Hs.
    rewrite Z.bits_0 in Hs. change (Z.testbit 8 3) with true in Hs.
    rewrite andb_true_r in Hs. done.
  - intros Hb. apply Z.bits_inj'. intros n Hn. rewrite Z.land_spec, Z.bits_0.
    destruct (decide (n = 3)) as [-> | Hne]; [by rewrite Hb|].
    change 8 with (2 ^ 3). rewrite Z.pow2_bits_false by lia. apply andb_false_r.
Qed.

Lemma lor_land_22 attr f :
  Z.lor attr (Z.land f 22) = attr ↔
  ∀ b, b ∈ [1; 2; 4] → Z.testbit f b = true → Z.testbit attr b = true.
Proof.
  split.
  - intros He b Hb Hf.
    assert (0 ≤ b) by (rewrite !elem_of_cons, elem_of_nil in Hb; lia).
    rewrite <- He, Z.lor_spec, Z.land_spec, Hf, testbit_22 by done.
    rewrite bool_decide_eq_true_2 by done. apply orb_true_r.
  - intros Hb. apply Z.bits_inj'. intros n Hn.
    rewrite Z.lor_spec, Z.land_spec, testbit_22 by done.
    destruct (Z.testbit attr n) eqn:Ea; [done|]. simpl.
    destruct (Z.testbit f n) eqn:Ef; [|done]. simpl.
    apply bool_decide_eq_false. intros Hin. specialize (Hb n Hin Ef). congruence.
Qed.

Lemma attr_pass_tests attr a :
  attr_pass attr a ↔
  if decide (attr = 8) then Z.land a 8 ≠ 0
  else Z.lor attr (Z.land a 22) = attr.
Proof.
  unfold attr_pass. destruct (decide (attr = 8)) as [Ha|Ha].
  - split.
    + intros Hb Hz. apply land_8_testbit in Hz. congruence.
    + intros Hz. destruct (Z.testbit a 3) eqn:Eb; [done|].
      apply land_8_testbit in Eb. done.
  - symmetry. apply lor_land_22.
Qed.

(** The three [continue] tests of the loop of [findfile], one by one. *)
Lemma candidate_ok_tests fcbtmpl attr flags e :
  candidate_ok fcbtmpl attr flags e = true ↔
  ¬ (ch (fcbname e) 0 = DOT ∧ Z.land flags FFILE_ISROOT ≠ 0)
  ∧ matchfile2mask fcbtmpl (fcbname e) = 0
  ∧ if decide (attr = 8) then Z.land (fattr e) 8 ≠ 0
    else Z.lor attr (Z.land (fattr e) 22) = attr.
Proof.
  unfold candidate_ok.
  set (hidden := (ch (fcbname e) 0 =? DOT) && negb (Z.land flags FFILE_ISROOT =? 0)).
  assert (hidden = true
          ↔ ch (fcbname e) 0 = DOT ∧ Z.land flags FFILE_ISROOT ≠ 0) as Hhid.
  { subst hidden. by rewrite andb_true_iff, negb_true_iff, Z.eqb_eq, Z.eqb_neq. }
  destruct hidden.
  { split; [done|]. intros (Hn & _). exfalso. apply Hn. by apply Hhid. }
  assert (¬ (ch (fcbname e) 0 = DOT ∧ Z.land flags FFILE_ISROOT ≠ 0)) as Hvis.
  { intros Hh. apply Hhid in Hh. done. }
  destruct (matchfile2mask fcbtmpl (fcbname e) =? 0) eqn:Em; cbn [negb].
  2:{ split; [done|]. intros (_ & Hm & _). apply Z.eqb_neq in Em. done. }
  apply Z.eqb_eq in Em.
  destruct (attr =? 8) eqn:Ea.
  - apply Z.eqb_eq in Ea. rewrite decide_True by done.
    rewrite negb_true_iff, Z.eqb_neq. split; [done|by intros (_ & _ & ?)].
  - apply Z.eqb_neq in Ea. rewrite decide_False by done.
    rewrite Z.eqb_eq. split; [done|by intros (_ & _ & ?)].
Qed.

(** The loop of [findfile] stops at the first node behind the cursor that
    passes the tests, and runs to the end of the list when there is none.
    Node [k] of the list (from 0) is the [n0 + k + 1]-th the loop counts. *)
Lemma findfile_loop_first fcbtmpl attr flags nth listing : ∀ n0,
  match findfile_loop listing n0 nth fcbtmpl attr flags with
  | Some (n, e) =>
      ∃ k : nat,
        listing !! k = Some e ∧ n = n0 + Z.of_nat k + 1 ∧ nth < n
        ∧ candidate_ok fcbtmpl attr flags e = true
        ∧ ∀ (k' : nat) e', (k' < k)%nat → listing !! k' = Some e' →
            nth < n0 + Z.of_nat k' + 1 →
            candidate_ok fcbtmpl attr flags e' = false
  | None =>
      ∀ (k : nat) e, listing !! k = Some e → nth < n0 + Z.of_nat k + 1 →
        candidate_ok fcbtmpl attr flags e = false
  end.
Proof.
  induction listing as [|x listing IH]; intros n0; simpl; [done|].
  assert (
    match findfile_loop listing (n0 + 1) nth fcbtmpl attr flags with
    | Some (n, e) =>
        ∃ k : nat,
          listing !! k = Some e ∧ n = n0 + 1 + Z.of_nat k + 1 ∧ nth < n
          ∧ candidate_ok fcbtmpl attr flags e = true
          ∧ ∀ (k' : nat) e', (k' < k)%nat → listing !! k' = Some e' →
              nth < n0 + 1 + Z.of_nat k' + 1 →
              candidate_ok fcbtmpl attr flags e' = false
    | None =>
        ∀ (k : nat) e, listing !! k = Some e → nth < n0 + 1 + Z.of_nat k + 1 →
          candidate_ok fcbtmpl attr flags e = false
    end →
    (nth < n0 + 1 → candidate_ok fcbtmpl attr flags x = false) →
    match findfile_loop listing (n0 + 1) nth fcbtmpl attr flags with
    | Some (n, e) =>
        ∃ k : nat,
          (x :: listing) !! k = Some e ∧ n = n0 + Z.of_nat k + 1 ∧ nth < n
          ∧ candidate_ok fcbtmpl attr flags e = true
          ∧ ∀ (k' : nat) e', (k' < k)%nat → (x :: listing) !! k' = Some e' →
              nth < n0 + Z.of_nat k' + 1 →
              candidate_ok fcbtmpl attr flags e' = false
    | None =>
        ∀ (k : nat) e, (x :: listing) !! k = Some e →
          nth < n0 + Z.of_nat k + 1 →
          candidate_ok fcbtmpl attr flags e = false
    end) as Hshift.
  { destruct (findfile_loop listing (n0 + 1) nth fcbtmpl attr flags)
      as [[n e]|].
    - intros (k & Hk & -> & Hlt & Hok & Hprev) Hx.
      exists (S k). repeat split; [done|lia|lia|done|].
      intros [|k'] e' Hk' Hl Hn; simpl in *.
      + injection Hl as <-. apply Hx. lia.
      + apply (Hprev k' e'); [lia|done|lia].
    - intros Hnone Hx [|k] e Hl Hn; simpl in *.
      + injection Hl as <-. apply Hx. lia.
      + apply (Hnone k e); [done|lia]. }
  destruct (n0 + 1 <=? nth) eqn:En; rewrite ?Z.leb_le, ?Z.leb_gt in En.
  - apply Hshift; [apply IH|lia].
  - destruct (candidate_ok fcbtmpl attr flags x) eqn:Ex.
    + exists 0%nat. repeat split; [lia|lia|done|]. intros k' e' Hk'. lia.
    + apply Hshift; [apply IH|done].
Qed.

Section FindFile.
Context {H : Type} `{!HostOps H}.

(** [findfile] once the listing it searches is in place in slot [dss]. *)
Lemma findfile_search f dss fcbtmpl attr nth flags (w w1 : world H) count :
  0 ≤ count →
  (if (nth =? 0) || bool_decide (dirlist (fsdb_get (w_fsdb w) dss) = [])
   then gendirlist dss (Z.land flags FFILE_ISFAT) else mret 0) w
  = Some (count, w1) →
  findfile f dss fcbtmpl attr nth flags w =
    Some (match findfile_loop (dirlist (fsdb_get (w_fsdb w1) dss)) 0 nth
                              fcbtmpl attr flags with
          | Some (n, e) => (0, e, u16 n)
          | None => (-1, f, nth)
          end, w1).
Proof.
  intros Hc Hrun.
  unfold findfile. rewrite bind_eq. unfold get_fsdb at 1. cbv beta iota.
  rewrite bind_eq, Hrun. cbv beta iota.
  destruct (count <? 0) eqn:E; [apply Z.ltb_lt in E; lia|].
  rewrite bind_eq. unfold get_fsdb. cbv beta iota.
  by destruct (findfile_loop _ 0 nth fcbtmpl attr flags) as [[n e]|].
Qed.

(** C5: [findfile] gives the first candidate behind the cursor that is
    accepted, with its 1-based position, and -1 when no candidate behind the
    cursor is accepted; it searches the listing the slot holds when the
    cursor is not 0 and the listing is not empty, and the listing
    [gendirlist] makes otherwise.  A candidate is accepted iff it is not a
    dot entry of the root, its FCB name fits the mask and it passes the
    attribute filter: for [attr = 08h] its volume bit must be set, otherwise
    [(attr | (fattr & 16h)) == attr], that is, it has no hidden, system or
    directory bit that the request lacks. *)
Theorem findfile_attribute_filter f dss fcbtmpl attr nth flags (w : world H) :
  let accepted (e : fileprops) :=
    ¬ (ch (fcbname e) 0 = DOT ∧ Z.land flags FFILE_ISROOT ≠ 0)
    ∧ matchfile2mask fcbtmpl (fcbname e) = 0
    ∧ if decide (attr = 8) then Z.land (fattr e) 8 ≠ 0
      else Z.lor attr (Z.land (fattr e) 22) = attr in
  let searched (listing : list fileprops) (w1 : world H) :=
    (∃ (k : nat) e,
        listing !! k = Some e ∧ nth ≤ Z.of_nat k ∧ accepted e
        ∧ (∀ (k' : nat) e', nth ≤ Z.of_nat k' → (k' < k)%nat →
             listing !! k' = Some e' → ¬ accepted e')
        ∧ findfile f dss fcbtmpl attr nth flags w
          = Some ((0, e, u16 (Z.of_nat k + 1)), w1))
    ∨ ((∀ (k : nat) e, nth ≤ Z.of_nat k → listing !! k = Some e → ¬ accepted e)
       ∧ findfile f dss fcbtmpl attr nth flags w = Some ((-1, f, nth), w1)) in
  (∀ a, attr_pass attr a ↔
        if decide (attr = 8) then Z.land a 8 ≠ 0
        else Z.lor attr (Z.land a 22) = attr)
  ∧ (nth ≠ 0 → dirlist (fsdb_get (w_fsdb w) dss) ≠ [] →
     searched (dirlist (fsdb_get (w_fsdb w) dss)) w)
  ∧ (∀ count w1,
       nth = 0 ∨ dirlist (fsdb_get (w_fsdb w) dss) = [] →
       gendirlist dss (Z.land flags FFILE_ISFAT) w = Some (count, w1) →
       (0 ≤ count → searched (dirlist (fsdb_get (w_fsdb w1) dss)) w1)
       ∧ (count < 0 →
          findfile f dss fcbtmpl attr nth flags w = Some ((-1, f, nth), w1))).
Proof.
  intros accepted searched.
  assert (∀ e, candidate_ok fcbtmpl attr flags e = true ↔ accepted e) as Hacc
    by (intros e; apply candidate_ok_tests).
  assert (∀ w1,
    findfile f dss fcbtmpl attr nth flags w =
      Some (match findfile_loop (dirlist (fsdb_get (w_fsdb w1) dss)) 0 nth
                                fcbtmpl attr flags with
            | Some (n, e) => (0, e, u16 n)
            | None => (-1, f, nth)
            end, w1) →
    searched (dirlist (fsdb_get (w_fsdb w1) dss)) w1) as Hsearch.
  { intros w1 Hf. unfold searched.
    pose proof (findfile_loop_first fcbtmpl attr flags nth
                  (dirlist (fsdb_get (w_fsdb w1) dss)) 0) as Hloop.
    destruct (findfile_loop _ 0 nth fcbtmpl attr flags) as [[n e]|].
    - left. destruct Hloop as (k & Hk & -> & Hlt & Hok & Hprev).
      exists k, e. split; [done|]. split; [lia|]. split; [by apply Hacc|].
      split; [|by rewrite Hf; replace (0 + Z.of_nat k + 1) with (Z.of_nat k + 1) by lia].
      intros k' e' Hn Hk' Hl Ha. apply Hacc in Ha.
      rewrite (Hprev k' e') in Ha; [done|done|done|lia].
    - right. split; [|done]. intros k e Hn Hl Ha. apply Hacc in Ha.
      rewrite (Hloop k e) in Ha; [done|done|lia]. }
  split; [intros a; apply attr_pass_tests|]. split.
  - intros Hnth Hlist. apply Hsearch, (findfile_search _ _ _ _ _ _ _ _ 0); [lia|].
    destruct (nth =? 0) eqn:E; [apply Z.eqb_eq in E; done|].
    by rewrite bool_decide_eq_false_2.
  - intros count w1 Hfresh Hgen.
    assert ((if (nth =? 0) || bool_decide (dirlist (fsdb_get (w_fsdb w) dss) = [])
             then gendirlist dss (Z.land flags FFILE_ISFAT) else mret 0) w
            = Some (count, w1)) as Hrun.
    { destruct Hfresh as [-> | Hl]; [done|].
      rewrite (bool_decide_eq_true_2 _ Hl). by rewrite orb_true_r. }
    split.
    + intros Hc. by apply Hsearch, (findfile_search _ _ _ _ _ _ _ _ count).
    + intros Hc. unfold findfile. rewrite bind_eq. unfold get_fsdb at 1.
      cbv beta iota. rewrite bind_eq, Hrun. cbv beta iota.
      by destruct (count <? 0) eqn:E; [|apply Z.ltb_ge in E; lia].
Qed.

End FindFile.

(** ** Single queries *)


Section Process2.
Context {H : Type} `{!HostOps H}.

Lemma getfopsize_stale fss (w : world H) :
  name (fsdb_get (w_fsdb w) fss) = None → getfopsize fss w = Some (-1, w).
Proof. intros Hn. unfold getfopsize. rewrite bind_eq. simpl. by rewrite Hn. Qed.

Lemma readfile_stale fss offset len (w : world H) :
  name (fsdb_get (w_fsdb w) fss) = None →
  readfile fss offset len w = Some ((-1, []), w).
Proof. intros Hn. unfold readfile. rewrite bind_eq. simpl. by rewrite Hn. Qed.

Lemma writefile_stale buff fss offset len (w : world H) :
  name (fsdb_get (w_fsdb w) fss) = None →
  writefile buff fss offset len w = Some (-1, w).
Proof. intros Hn. unfold writefile. rewrite bind_eq. simpl. by rewrite Hn. Qed.

(** C2, as amended: READFIL, WRITEFIL and SKFMEND requests that carry a file
    id whose slot of the handle table is empty do not end the process and are
    answered with a bare 60-byte reply that carries a DOS error code: 5
    (access denied) for READFIL and WRITEFIL, 2 (file not found) for
    SKFMEND. *)
Theorem stale_file_id_reply answer reqbuff reqbufflen mymac rootarray drivesfat
    root (w : world H) :
  (60 ≤ length (frame answer))%nat →
  cache_hit answer reqbuff = false →
  2 ≤ Z.land (rd reqbuff 58) 31 ≤ 25 →
  rootarray !! Z.to_nat (Z.land (rd reqbuff 58) 31) = Some (Some root) →
  name (fsdb_get (w_fsdb w) (rd16 reqbuff 64)) = None →
  (rd reqbuff 59 = AL_READFIL ∧ reqbufflen = 68
   ∨ rd reqbuff 59 = AL_WRITEFIL ∧ 66 ≤ reqbufflen
   ∨ rd reqbuff 59 = AL_SKFMEND ∧ reqbufflen = 66) →
  ∃ answ,
    process answer reqbuff reqbufflen mymac rootarray drivesfat w
      = Some ((60, with_frame answer answ), w)
    ∧ ax_of answ = if rd reqbuff 59 =? AL_SKFMEND then 2 else 5.
Proof.
  intros Hfr Hmiss Hdrv Hroot Hstale Hq.
  assert (60 ≤ reqbufflen) by lia.
  rewrite (process_miss _ _ _ _ _ _ root) by done.
  set (hdr := set_ax 0 (reply_header (frame answer) reqbuff mymac)).
  assert (60 ≤ length hdr)%nat
    by (subst hdr; by rewrite length_set_ax, length_reply_header).
  unfold dispatch.
  destruct Hq as [[-> ->] | [[-> Hl] | [-> ->]]]; simpl.
  - unfold q_readfil. rewrite bind_eq, readfile_stale by done. simpl.
    eexists. split; [reflexivity|]. apply ax_of_set_ax; rewrite ?length_set_ax, ?length_reply_header; lia.
  - destruct (6 <=? reqbufflen - 60) eqn:E; [|apply Z.leb_gt in E; lia].
    unfold q_writefil. rewrite bind_eq, writefile_stale by done. simpl.
    eexists. split; [reflexivity|]. apply ax_of_set_ax; rewrite ?length_set_ax, ?length_reply_header; lia.
  - unfold q_skfmend. rewrite bind_eq, getfopsize_stale by done. simpl.
    eexists. split; [reflexivity|]. apply ax_of_set_ax; rewrite ?length_set_ax, ?length_reply_header; lia.
Qed.

(** FINDNEXT hands the name of the slot to [isroot] without a check: on an
    empty slot the process ends. *)
Lemma findnext_stale_id_crashes answer reqbuff reqbufflen mymac rootarray
    drivesfat root (w : world H) :
  60 ≤ reqbufflen →
  cache_hit answer reqbuff = false →
  2 ≤ Z.land (rd reqbuff 58) 31 ≤ 25 →
  rootarray !! Z.to_nat (Z.land (rd reqbuff 58) 31) = Some (Some root) →
  rd reqbuff 59 = AL_FINDNEXT →
  name (fsdb_get (w_fsdb w) (rd16 reqbuff 60)) = None →
  process answer reqbuff reqbufflen mymac rootarray drivesfat w = None.
Proof.
  intros Hlen Hmiss Hdrv Hroot Hq Hstale.
  rewrite (process_miss _ _ _ _ _ _ root) by done.
  rewrite Hq. unfold dispatch. simpl. unfold q_findnext, sstoitem.
  rewrite !bind_eq. simpl. by rewrite Hstale.
Qed.

(** C10: a WRITEFIL request without data bytes on a valid file id is
    answered with AX=0 and written=0; the reply is fixed before the world is
    known, so it does not depend on what [truncate] returns: the world
    afterwards is the one [truncate] leaves, its return value is dropped. *)
Theorem writefil_truncate_reply answer reqbuff mymac rootarray drivesfat root :
  (62 ≤ length (frame answer))%nat →
  cache_hit answer reqbuff = false →
  2 ≤ Z.land (rd reqbuff 58) 31 ≤ 25 →
  rootarray !! Z.to_nat (Z.land (rd reqbuff 58) 31) = Some (Some root) →
  rd reqbuff 59 = AL_WRITEFIL →
  ∃ answ,
    ax_of answ = 0 ∧ rd16 answ 60 = 0
    ∧ ∀ (w : world H) fname,
        name (fsdb_get (w_fsdb w) (rd16 reqbuff 64)) = Some fname →
        process answer reqbuff 66 mymac rootarray drivesfat w
          = Some ((62, with_frame answer answ),
                  World (snd (sys_truncate fname (rd32 reqbuff 60) (w_host w)))
                        (w_fsdb w)).
Proof.
  intros Hfr Hmiss Hdrv Hroot Hq.
  set (hdr := set_ax 0 (reply_header (frame answer) reqbuff mymac)).
  assert (length hdr = length (frame answer)) as Hl
    by (subst hdr; by rewrite length_set_ax, length_reply_header).
  exists (store 60 (bytes16 0) hdr). split; [|split].
  - rewrite ax_of_store by lia. subst hdr. apply ax_of_set_ax; rewrite ?length_reply_header; lia.
  - apply bytes16_rd16; lia.
  - intros w fname Hname.
    rewrite (process_miss _ _ _ _ _ _ root) by (done || lia).
    rewrite Hq. unfold dispatch. simpl. unfold q_writefil, writefile.
    rewrite !bind_eq. simpl. rewrite Hname. simpl.
    rewrite !bind_eq. unfold sys. simpl.
    destruct (sys_truncate fname (rd32 reqbuff 60) (w_host w)) as [res h'].
    done.
Qed.

(** C8, as amended: SKFMEND on an empty slot is answered with AX=2; on a
    slot that names a file of less than 2^31 bytes it is answered with the
    absolute offset [max 0 (size + min 0 offset)], where [offset] is the
    signed value of the four request bytes. *)
Theorem skfmend_reply answer reqbuff mymac rootarray drivesfat root (w : world H) :
  (64 ≤ length (frame answer))%nat →
  cache_hit answer reqbuff = false →
  2 ≤ Z.land (rd reqbuff 58) 31 ≤ 25 →
  rootarray !! Z.to_nat (Z.land (rd reqbuff 58) 31) = Some (Some root) →
  rd reqbuff 59 = AL_SKFMEND →
  let offs := s32 (rd32 reqbuff 60) in
  let fss := rd16 reqbuff 64 in
  (name (fsdb_get (w_fsdb w) fss) = None →
     ∃ answ,
       process answer reqbuff 66 mymac rootarray drivesfat w
         = Some ((60, with_frame answer answ), w)
       ∧ ax_of answ = 2)
  ∧ (∀ fname st,
       name (fsdb_get (w_fsdb w) fss) = Some fname →
       sys_stat (w_host w) fname = Some st →
       st_isdir st = false →
       0 ≤ st_size st < 2147483648 →
       ∃ answ,
         process answer reqbuff 66 mymac rootarray drivesfat w
           = Some ((64, with_frame answer answ), w)
         ∧ ax_of answ = 0
         ∧ rd32 answ 60 = Z.max 0 (st_size st + Z.min 0 offs)).
Proof.
  intros Hfr Hmiss Hdrv Hroot Hq offs fss.
  set (hdr := set_ax 0 (reply_header (frame answer) reqbuff mymac)).
  assert (length hdr = length (frame answer)) as Hl
    by (subst hdr; by rewrite length_set_ax, length_reply_header).
  rewrite (process_miss _ _ _ _ _ _ root) by (done || lia).
  rewrite Hq. unfold dispatch. simpl. unfold q_skfmend. fold offs. fold fss. fold hdr.
  split.
  - intros Hstale. rewrite bind_eq, getfopsize_stale by done. simpl.
    eexists. split; [reflexivity|]. apply ax_of_set_ax; rewrite ?length_set_ax, ?length_reply_header; lia.
  - intros fname st Hname Hstat Hdir Hsz.
    assert (getfopsize fss w = Some (st_size st, w)) as Hg.
    { unfold getfopsize. rewrite bind_eq. simpl. rewrite Hname. simpl.
      rewrite bind_eq. unfold get_host. cbv beta iota.
      unfold getitemattr. rewrite Hstat, Hdir. simpl.
      unfold u64. rewrite Z.mod_small by lia.
      unfold s64. rewrite signed_small; [done|lia|].
      change (2 ^ (64 - 1)) with 9223372036854775808. lia. }
    rewrite bind_eq, Hg.
    destruct (st_size st <? 0) eqn:E; [apply Z.ltb_lt in E; lia|].
    assert (- 2147483648 ≤ offs < 2147483648) as Ho by (apply (signed_range 32); lia).
    assert ((if 0 <? offs then 0 else offs) = Z.min 0 offs) as ->.
    { destruct (0 <? offs) eqn:E'; rewrite ?Z.ltb_lt, ?Z.ltb_ge in E'; lia. }
    set (sum := Z.min 0 offs + st_size st).
    assert (s32 sum = sum) as ->.
    { apply signed_small; [lia|]. change (2 ^ (32 - 1)) with 2147483648. subst sum.
      clearbody offs. lia. }
    assert ((if sum <? 0 then 0 else sum) = Z.max 0 (st_size st + Z.min 0 offs)) as ->.
    { clearbody offs. destruct (sum <? 0) eqn:E'; rewrite ?Z.ltb_lt, ?Z.ltb_ge in E'; subst sum; lia. }
    eexists. split; [reflexivity|]. split.
    + rewrite ax_of_store by lia. subst hdr. apply ax_of_set_ax; rewrite ?length_reply_header; lia.
    + apply bytes32_rd32; lia.
Qed.
(** READFIL answers with as many bytes as [fread] returns, however many the
    request asked for: nothing relates the length to the frame buffer. *)
Lemma readfil_reply_length answer reqbuff mymac rootarray drivesfat root
    (w : world H) fname data :
  cache_hit answer reqbuff = false →
  2 ≤ Z.land (rd reqbuff 58) 31 ≤ 25 →
  rootarray !! Z.to_nat (Z.land (rd reqbuff 58) 31) = Some (Some root) →
  rd reqbuff 59 = AL_READFIL →
  name (fsdb_get (w_fsdb w) (rd16 reqbuff 64)) = Some fname →
  sys_fread (w_host w) fname (rd32 reqbuff 60) (rd16 reqbuff 66) = Some data →
  ∃ answ,
    process answer reqbuff 68 mymac rootarray drivesfat w
    = Some ((Z.of_nat (length data) + 60, with_frame answer answ), w).
Proof.
  intros Hmiss Hdrv Hroot Hq Hname Hread.
  rewrite (process_miss _ _ _ _ _ _ root) by (done || lia).
  rewrite Hq. unfold dispatch. simpl. unfold q_readfil, readfile.
  rewrite !bind_eq. simpl. rewrite Hname. rewrite bind_eq. simpl.
  rewrite Hread. simpl.
  destruct (Z.of_nat (length data) <? 0) eqn:E; [apply Z.ltb_lt in E; lia|].
  eexists. reflexivity.
Qed.

(** A pattern with a ['?'] makes [delfiles] return 0 as soon as the
    directory opens, whether or not an entry matches. *)
Lemma delfiles_loop_total entries dir filfcb (w : world H) :
  ∃ w', delfiles_loop entries dir filfcb w = Some (tt, w').
Proof.
  revert w. induction entries as [|e entries IH]; intros w; simpl.
  - by eexists.
  - rewrite bind_eq.
    destruct (d_type e =? DT_DIR); [apply IH|].
    destruct (matchfile2mask filfcb (filename2fcb (d_name e)) =? 0); [|apply IH].
    rewrite bind_eq. unfold sys.
    destruct (sys_unlink _ (w_host w)) as [res h']. apply IH.
Qed.

Lemma delfiles_pattern_returns_0 pattern fileoffset entries (w : world H) :
  delfiles_scan pattern 0 false 0 = (true, fileoffset) →
  sys_opendir (w_host w) (take (Z.to_nat fileoffset) pattern) = Some entries →
  ∃ w', delfiles pattern w = Some (0, w').
Proof.
  intros Hscan Hdir. unfold delfiles. rewrite Hscan. simpl.
  rewrite bind_eq. simpl. rewrite Hdir. rewrite bind_eq.
  destruct (delfiles_loop_total entries (take (Z.to_nat fileoffset) pattern)
              (filename2fcb (drop (Z.to_nat fileoffset + 1) pattern)) w)
    as [w' ->].
  by eexists.
Qed.

(** DELETE resolves its whole payload with [shorttolong] first, the file
    part included; when that fails the answer is AX=2 and [delfiles] is not
    called, pattern or not. *)
Lemma delete_unresolved_answers_2 answer reqbuff reqbufflen mymac rootarray
    drivesfat root (w : world H) res dst :
  (60 ≤ length (frame answer))%nat →
  60 ≤ reqbufflen →
  cache_hit answer reqbuff = false →
  2 ≤ Z.land (rd reqbuff 58) 31 ≤ 25 →
  rootarray !! Z.to_nat (Z.land (rd reqbuff 58) 31) = Some (Some root) →
  rd reqbuff 59 = AL_DELETE →
  shorttolong (dospath root (slice reqbuff 60 (reqbufflen - 60))) root w
    = Some ((res, dst), w) →
  res ≠ 0 →
  ∃ answ,
    process answer reqbuff reqbufflen mymac rootarray drivesfat w
      = Some ((60, with_frame answer answ), w)
    ∧ ax_of answ = 2.
Proof.
  intros Hfr Hlen Hmiss Hdrv Hroot Hq Hres Hne.
  rewrite (process_miss _ _ _ _ _ _ root) by done.
  rewrite Hq. unfold dispatch. simpl. unfold q_delete.
  rewrite bind_eq, Hres.
  destruct (res =? 0) eqn:E; [apply Z.eqb_eq in E; done|]. simpl.
  eexists. split; [reflexivity|].
  apply ax_of_set_ax; rewrite ?length_set_ax, ?length_reply_header; lia.
Qed.

End Process2.

(** ** The dispatcher leaves the reply header alone *)

Lemma keeps_header_refl answ : keeps_header answ answ.
Proof. done. Qed.

Lemma take_store_ge n off data (buf : list byte) :
  Z.of_nat n ≤ off → take n (store off data buf) = take n buf.
Proof.
  intros Hn. unfold store. apply list_eq. intros i.
  destruct (decide (i < n)%nat).
  - rewrite !lookup_take_lt by done. apply list_lookup_inserts_lt. lia.
  - by rewrite !lookup_take_ge by lia.
Qed.

Lemma keeps_header_store answ x off data :
  58 ≤ off → keeps_header answ x → keeps_header answ (store off data x).
Proof.
  intros Ho [Ht Hl]. split.
  - rewrite take_store_ge by lia. done.
  - by rewrite length_store.
Qed.

Lemma keeps_header_set_ax answ x v :
  keeps_header answ x → keeps_header answ (set_ax v x).
Proof. apply keeps_header_store. lia. Qed.

Lemma keeps_header_trans a b c :
  keeps_header a b → keeps_header b c → keeps_header a c.
Proof. intros [? ?] [? ?]. split; congruence. Qed.

Section HeaderSafe.
Context {H : Type} `{!HostOps H}.
Implicit Types answ : list byte.

Lemma header_safe_ret answ x (n : Z) :
  keeps_header answ x → header_safe (H:=H) answ (mret (x, n)).
Proof. intros Hk w answ' res w' [= <- _ _]. done. Qed.

Lemma header_safe_bind {A} answ (m : M H A) f :
  (∀ a, header_safe answ (f a)) → header_safe answ (m ≫= f).
Proof.
  intros Hf w answ' res w'. rewrite bind_eq.
  destruct (m w) as [[a w1]|]; [|done]. apply Hf.
Qed.

Lemma header_safe_crash answ : header_safe (H:=H) answ crash.
Proof. intros w answ' res w'. done. Qed.

Ltac header_safe_step :=
  first
    [ apply header_safe_crash
    | apply header_safe_ret;
        unfold found_file;
        repeat first [apply keeps_header_set_ax | apply keeps_header_store; [lia|]];
        apply keeps_header_refl
    | apply header_safe_bind; intros ?; cbv beta
    | match goal with
      | |- header_safe _ (if ?c then _ else _) => destruct c
      | |- header_safe _ (match ?x with _ => _ end) => destruct x
      end ].

Ltac header_safe_go := repeat header_safe_step.

Lemma dispatch_header_safe query reqdrv root reqbuff reqbufflen drivesfat answ :
  header_safe answ (dispatch query reqdrv root reqbuff reqbufflen drivesfat answ).
Proof.
  unfold dispatch.
  repeat match goal with
         | |- header_safe _ (if ?c then _ else _) => destruct c
         end.
  - unfold q_diskspace. header_safe_go.
  - unfold q_readfil. header_safe_go.
  - unfold q_writefil. header_safe_go.
  - header_safe_go.
  - unfold q_findfirst. header_safe_go.
  - unfold q_findnext. header_safe_go.
  - unfold q_mkdir_rmdir. header_safe_go.
  - unfold q_chdir. header_safe_go.
  - header_safe_go.
  - unfold q_setattr. header_safe_go.
  - unfold q_getattr. header_safe_go.
  - unfold q_rename. header_safe_go.
  - unfold q_delete. header_safe_go.
  - unfold q_open. header_safe_go.
  - unfold q_skfmend. header_safe_go.
  - header_safe_go.
Qed.

End HeaderSafe.

(** ** The reply header *)

Lemma lookup_rd (buf : list byte) (i : nat) :
  (i < length buf)%nat → buf !! i = Some (rd buf (Z.of_nat i)).
Proof.
  intros Hi. unfold rd. rewrite Nat2Z.id.
  destruct (lookup_lt_is_Some_2 buf i Hi) as [x Hx]. by rewrite Hx.
Qed.


Lemma rd_take n (buf : list byte) i :
  0 ≤ i < Z.of_nat n → rd (take n buf) i = rd buf i.
Proof. intros Hi. unfold rd. by rewrite lookup_take_lt by lia. Qed.


Lemma length_slice (buf : list byte) off n :
  0 ≤ off → 0 ≤ n → off + n ≤ Z.of_nat (length buf) →
  length (slice buf off n) = Z.to_nat n.
Proof. intros. unfold slice. rewrite length_take, length_drop. lia. Qed.



Section Frames.
Context {H : Type} `{!HostOps H}.

(** What [process] leaves in the cache entry when it misses the cache. *)
Lemma process_frame answer reqbuff l mymac rootarray drivesfat
    (w w1 : world H) n e1 :
  process answer reqbuff l mymac rootarray drivesfat w = Some ((n, e1), w1) →
  60 ≤ l →
  cache_hit answer reqbuff = false →
  timestamp e1 = timestamp answer ∧ len e1 = len answer
  ∧ keeps_header (reply_header (frame answer) reqbuff mymac) (frame e1).
Proof.
  intros Hp Hl Hmiss. unfold process in Hp.
  destruct (l <? 60) eqn:E; [apply Z.ltb_lt in E; lia|].
  rewrite Hmiss in Hp.
  set (hdr := reply_header (frame answer) reqbuff mymac) in *.
  destruct ((Z.land (rd reqbuff 58) 31 <? 2) || (25 <? Z.land (rd reqbuff 58) 31)).
  { injection Hp as <- <- <-. done. }
  destruct (default None (rootarray !! Z.to_nat (Z.land (rd reqbuff 58) 31)))
    as [root|].
  2:{ injection Hp as <- <- <-. done. }
  rewrite bind_eq in Hp.
  destruct (dispatch _ _ _ _ _ _ _ w) as [[[answ res] w']|] eqn:Ed; [|done].
  injection Hp as <- <- <-. simpl. repeat split.
  1,2: apply (keeps_header_trans _ (set_ax 0 hdr));
    [apply keeps_header_set_ax, keeps_header_refl
    |apply (dispatch_header_safe _ _ _ _ _ _ _ _ _ _ _ Ed)].
Qed.

End Frames.

(** ** The answer cache *)



Lemma findcacheentry_loop_range c mac : ∀ (fuel : nat) i oldest,
  0 ≤ i → 0 ≤ oldest < i + Z.of_nat fuel →
  0 ≤ findcacheentry_loop fuel i oldest c mac < i + Z.of_nat fuel.
Proof.
  induction fuel as [|fuel IH]; intros i oldest Hi Ho; simpl; [lia|].
  destruct (bool_decide _); [lia|].
  destruct (timestamp (cache_get c i) <? timestamp (cache_get c oldest)).
  - pose proof (IH (i + 1) i ltac:(lia) ltac:(lia)). lia.
  - pose proof (IH (i + 1) oldest ltac:(lia) ltac:(lia)). lia.
Qed.

Lemma findcacheentry_range c mac : 0 ≤ findcacheentry c mac < 16.
Proof. apply (findcacheentry_loop_range c mac 16 0 0); lia. Qed.




(** ** The main loop *)

Lemma accept_spec mymac buff rlen l ck :
  accept mymac buff rlen = Some (l, ck) →
  60 ≤ l ∧ ck = Z.shiftr (rd buff 56) 7.
Proof.
  unfold accept. intros Ha.
  destruct (rlen <? 60) eqn:E1; [done|]. apply Z.ltb_ge in E1.
  destruct (negb _ && negb _) in Ha; [done|].
  destruct (negb (_ && _)) in Ha; [done|].
  destruct (negb (Z.land _ 127 =? PROTOVER)) in Ha; [done|].
  cbv zeta in Ha.
  destruct ((0 <? rd16 buff 52) && _) eqn:E2 in Ha; [done|].
  destruct (negb _ && negb _) in Ha; [done|].
  injection Ha as <- <-. split; [|done].
  destruct (0 <? rd16 buff 52); [|done].
  simpl in E2. apply orb_false_iff in E2 as [_ E2]. by apply Z.ltb_ge in E2.
Qed.

Lemma length_outgoing fr n ck : length (outgoing fr n ck) = length fr.
Proof.
  unfold outgoing. destruct (negb (ck =? 0)); by rewrite !length_insert.
Qed.

Lemma take_outgoing fr n ck : take 52 (outgoing fr n ck) = take 52 fr.
Proof.
  unfold outgoing. destruct (negb (ck =? 0)); by rewrite !take_insert_ge by lia.
Qed.

Lemma lookup_outgoing_57 fr n ck : outgoing fr n ck !! 57%nat = fr !! 57%nat.
Proof.
  unfold outgoing. destruct (negb (ck =? 0));
    by rewrite !list_lookup_insert_ne by lia.
Qed.

Lemma slice_insert_lt (buf : list byte) (i : nat) b off n :
  Z.of_nat i < off → slice (<[i := b]> buf) off n = slice buf off n.
Proof. intros Hi. unfold slice. by rewrite drop_insert_lt by lia. Qed.


Lemma lor_128_flagged x :
  0 ≤ x < 256 → Z.shiftr x 7 ≠ 0 → Z.lor x 128 = x.
Proof.
  intros Hx Hs. rewrite Z.shiftr_div_pow2 in Hs by lia.
  change (2 ^ 7) with 128 in Hs.
  assert (x / 128 = 1) as Hq.
  { assert (0 ≤ x / 128) by (apply Z.div_pos; lia).
    assert (x / 128 < 2) by (apply Z.div_lt_upper_bound; lia). lia. }
  apply Z.bits_inj'. intros i Hi. rewrite Z.lor_spec.
  destruct (decide (i = 7)) as [-> | Hne].
  - rewrite Z.testbit_odd, Z.shiftr_div_pow2 by lia.
    change (2 ^ 7) with 128. by rewrite Hq.
  - change 128 with (2 ^ 7). rewrite Z.pow2_bits_false by lia. apply orb_false_r.
Qed.

Section Serve.
Context {H : Type} `{!HostOps H}.

Lemma process_installchk answer buff l mymac rootarray drivesfat (w : world H) :
  60 ≤ l →
  cache_hit answer buff = false →
  rd buff 59 = AL_INSTALLCHK →
  ∃ n e, process answer buff l mymac rootarray drivesfat w = Some ((n, e), w)
         ∧ n < 0.
Proof.
  intros Hl Hmiss Hq. unfold process.
  destruct (l <? 60) eqn:E; [apply Z.ltb_lt in E; lia|]. rewrite Hmiss.
  destruct (_ || _); [eexists _, _; split; [reflexivity|lia]|].
  destruct (default None _) as [root|]; [|eexists _, _; split; [reflexivity|lia]].
  rewrite Hq. unfold dispatch. simpl. eexists _, _. split; [reflexivity|lia].
Qed.

(** C1, as amended: an INSTALLCHK request that misses the answer cache is
    not answered.  The dispatcher has no branch for query 00h: [process]
    returns a negative value, the main loop sends nothing, leaves the world
    as it is and sets the length of the client's cache entry to 0. *)
Theorem installchk_ignored mymac rootarray drivesfat (st : server H)
    buff rlen l ck :
  accept mymac buff rlen = Some (l, ck) →
  rd buff 59 = AL_INSTALLCHK →
  let idx := findcacheentry (answcache st) (slice buff 6 6) in
  cache_hit (cache_get (answcache st) idx) buff = false →
  ∃ entry,
    serve mymac rootarray drivesfat st buff rlen
      = Some (Server (<[Z.to_nat idx := entry]> (answcache st)) (srv_world st),
              None)
    ∧ len entry = 0.
Proof.
  intros Ha Hq idx Hmiss. destruct (accept_spec _ _ _ _ _ Ha) as [Hl _].
  unfold serve. rewrite Ha. fold idx.
  destruct (process_installchk _ _ _ mymac rootarray drivesfat (srv_world st)
              Hl Hmiss Hq) as (n & e & -> & Hn).
  destruct (0 <=? n) eqn:E1; [apply Z.leb_le in E1; lia|].
  destruct (0 <? n) eqn:E2; [apply Z.ltb_lt in E2; lia|].
  eexists. split; [reflexivity|done].
Qed.


End Serve.

(** ** Runs on the sample installation *)

Import Demo.

Example fcb_hello : filename2fcb (cstr "hello.txt") = cstr "HELLO   TXT".
Proof. reflexivity. Qed.
Example fcb_dotdot : filename2fcb (cstr "..") = cstr "..         ".
Proof. reflexivity. Qed.
Example fcb_spaces : filename2fcb (cstr "my file.c") = cstr "MYFILE  C  ".
Proof. reflexivity. Qed.
Example fcb_long : filename2fcb (cstr "longfilename.html") = cstr "LONGFILEHTM".
Proof. reflexivity. Qed.

(** C1, counterexample: the 60-byte INSTALLCHK frame (version 2, drive 2,
    mapped) sent to the freshly started server gets no reply at all. *)
Lemma installchk_no_reply :
  length req_installchk = 60%nat
  ∧ Z.land (rd req_installchk 56) 127 = 2
  ∧ Z.land (rd req_installchk 58) 31 = 2
  ∧ rootarray !! 2%nat = Some (Some ROOT)
  ∧ rd req_installchk 59 = 0
  ∧ ¬ ∃ st' reply, run st0 req_installchk = Some (st', Some reply).
Proof.
  repeat split; try reflexivity.
  intros (st' & reply & Hrun). vm_compute in Hrun. discriminate Hrun.
Qed.

Lemma installchk_ignored_witness :
  accept MYMAC req_installchk 60 = Some (60, 0)
  ∧ rd req_installchk 59 = AL_INSTALLCHK
  ∧ cache_hit (cache_get (answcache st0)
                 (findcacheentry (answcache st0) (slice req_installchk 6 6)))
              req_installchk = false
  ∧ ∃ entry,
      serve MYMAC rootarray drivesfat st0 req_installchk 60
        = Some (Server (<[Z.to_nat (findcacheentry (answcache st0)
                                      (slice req_installchk 6 6)) := entry]>
                          (answcache st0)) (srv_world st0), None)
      ∧ len entry = 0.
Proof.
  split; [reflexivity|]. split; [reflexivity|]. split; [reflexivity|].
  apply (installchk_ignored MYMAC rootarray drivesfat st0 req_installchk 60 60 0);
    reflexivity.
Defined.

(** C2, counterexample: READFIL on an id whose slot is empty is answered
    with error code 5, not 2; FINDNEXT on such an id ends the process. *)
Lemma stale_id_not_error_2 :
  name (fsdb_get (w_fsdb (srv_world st0)) 5) = None
  ∧ (∃ st' reply, run st0 req_read_stale = Some (st', Some reply)
                  ∧ ax_of reply = 5 ∧ ax_of reply ≠ 2)
  ∧ run st0 req_findnext_stale = None.
Proof.
  split; [reflexivity|]. split; [|by vm_compute].
  eexists _, _. split; [by vm_compute|]. by vm_compute.
Qed.

Lemma stale_file_id_reply_witness :
  (60 ≤ length (frame answer0))%nat
  ∧ cache_hit answer0 req_read_stale = false
  ∧ name (fsdb_get (w_fsdb w_opened) (rd16 req_read_stale 64)) = None
  ∧ ∃ answ,
      process answer0 req_read_stale 68 MYMAC rootarray drivesfat w_opened
        = Some ((60, with_frame answer0 answ), w_opened)
      ∧ ax_of answ = 5.
Proof.
  split; [vm_compute; lia|]. split; [reflexivity|]. split; [reflexivity|].
  apply (stale_file_id_reply answer0 req_read_stale 68 MYMAC rootarray
           drivesfat ROOT w_opened).
  - vm_compute. lia.
  - reflexivity.
  - vm_compute. split; discriminate.
  - reflexivity.
  - reflexivity.
  - left. split; reflexivity.
Defined.

(** The handle table of the sample runs is what two OPEN requests leave. *)
Lemma opened_reachable :
  (srv_world <$> after [req_open_big; req_open_keep]) = Some w_opened.
Proof. by vm_compute. Qed.



(** C4, the code at a failing input: DOS turns [DEL C:\TMP\*.TMP] into a
    DELETE of [\TMP\????????.TMP].  [shorttolong] looks for a directory
    entry whose FCB name is literally [????????TMP], finds none and fails, so
    the dispatcher answers AX=2 before it reaches [delfiles]: no file of
    [tmp] is deleted, although two of them match the mask. *)
Theorem delete_wildcard_answers_not_found :
  ∃ st1 reply,
    run st0 req_delete_wild = Some (st1, Some reply)
    ∧ ax_of reply = 2
    ∧ srv_world st1 = srv_world st0
    ∧ matchfile2mask (cstr "????????TMP") (filename2fcb (cstr "A.TMP")) = 0
    ∧ matchfile2mask (cstr "????????TMP") (filename2fcb (cstr "b.tmp")) = 0.
Proof.
  eexists _, _. split; [by vm_compute|]. by vm_compute.
Qed.

(** What [delfiles] does with that pattern once it is called: it returns 0
    and unlinks the two matching files, and only them. *)
Lemma delfiles_wildcard_run :
  ∃ w,
    delfiles (cstr "/srv/c/tmp/????????.tmp") (srv_world st0) = Some (0, w)
    ∧ Sim.children (w_host w) (Sim.path (cstr "/srv/c/tmp"))
      = [Dirent (cstr "keep.txt") 8].
Proof. eexists. split; by vm_compute. Qed.

(** [delfiles] answers 0 for a pattern with a ['?'] that matches nothing. *)
Lemma delfiles_wildcard_no_match :
  delfiles (cstr "/srv/c/tmp/????????.bak") (srv_world st0)
  = Some (0, srv_world st0).
Proof. by vm_compute. Qed.

(** C6, counterexample: for a name with two dots the extension is taken
    after the first dot, not after the last one. *)
Lemma fcb_extension_after_first_dot :
  filename2fcb (cstr "archive.tar.gz") = cstr "ARCHIVE TAR"
  ∧ fcb_last_dot (cstr "archive.tar.gz") = cstr "ARCHIVE GZ "
  ∧ filename2fcb (cstr "archive.tar.gz") ≠ fcb_last_dot (cstr "archive.tar.gz").
Proof. split; [reflexivity|]. split; [reflexivity|]. vm_compute. discriminate. Qed.

Lemma filename2fcb_layout_witness :
  (NUL ∉ cstr "my file.tar.gz")
  ∧ last_is_space (name_part (cstr "my file.tar.gz")) = false
  ∧ filename2fcb (cstr "my file.tar.gz") = fcb_first_dot (cstr "my file.tar.gz").
Proof.
  assert (NUL ∉ cstr "my file.tar.gz") as Hnul.
  { refine (bool_decide_unpack _ _). vm_compute. exact I. }
  split; [exact Hnul|]. split; [reflexivity|].
  apply (filename2fcb_layout (cstr "my file.tar.gz") Hnul). reflexivity.
Defined.

Lemma findfile_attribute_filter_witness :
  let listing :=
    [Fileprops (cstr ".          ") 0 0 16;
     Fileprops (cstr "HIDDEN  SYS") 0 0 2;
     Fileprops (cstr "HELLO   TXT") 5 0 32] in
  let w := World host0 (<[0 := Sfsdb (Some ROOT) 1000 listing]> fsdb_init) in
  ∃ (k : nat) e,
    listing !! k = Some e
    ∧ Z.lor 16 (Z.land (fattr e) 22) = 16
    ∧ fattr <$> listing !! 1%nat = Some 2
    ∧ (1 < k)%nat
    ∧ findfile fileprops_zero 0 (cstr "???????????") 16 1 FFILE_ISROOT w
      = Some ((0, e, u16 (Z.of_nat k + 1)), w).
Proof.
  intros listing w.
  destruct (findfile_attribute_filter fileprops_zero 0 (cstr "???????????") 16 1
              FFILE_ISROOT w) as (_ & Hcached & _).
  destruct Hcached as [(k & e & Hk & Hn & Ha & Hprev & Hf) | (_ & Hf)];
    [discriminate|discriminate| |vm_compute in Hf; discriminate Hf].
  exists k, e. destruct Ha as (_ & _ & Hattr).
  rewrite decide_False in Hattr by discriminate.
  split; [exact Hk|]. split; [exact Hattr|]. split; [reflexivity|].
  split; [|exact Hf].
  destruct k as [|[|k]]; [lia| |lia].
  exfalso. injection Hk as <-. vm_compute in Hattr. discriminate Hattr.
Defined.

Lemma diskspace_reply_witness :
  (66 ≤ length (frame answer0))%nat
  ∧ cache_hit answer0 req_diskspace = false
  ∧ rd req_diskspace 59 = AL_DISKSPACE
  ∧ diskinfo host0 ROOT 0 = (10737418240, 4294967296)
  ∧ ∃ answ,
      process answer0 req_diskspace 60 MYMAC rootarray drivesfat (srv_world st0)
        = Some ((66, with_frame answer0 answ), srv_world st0)
      ∧ ax_of answ = 1 ∧ rd16 answ 60 = 65535 ∧ rd16 answ 62 = 32768
      ∧ rd16 answ 64 = 65535.
Proof.
  split; [vm_compute; lia|]. split; [reflexivity|]. split; [reflexivity|].
  split; [reflexivity|].
  destruct (diskspace_reply answer0 req_diskspace 60 MYMAC rootarray drivesfat
              ROOT (srv_world st0))
    as (answ & Hp & Hax & _ & Hcx & _ & Hbx & Hdx).
  - vm_compute. lia.
  - lia.
  - reflexivity.
  - vm_compute. split; discriminate.
  - reflexivity.
  - reflexivity.
  - exists answ. split; [exact Hp|]. split; [exact Hax|].
    split; [apply Hbx; vm_compute; discriminate|].
    split; [exact Hcx|]. apply Hdx. vm_compute. discriminate.
Defined.

(** C8, counterexample: SKFMEND with offset 0 on a file of 2^31 bytes.  The
    sum no longer fits the 32-bit signed [offs], wraps to a negative value
    and is clamped: the reply carries offset 0, not the file size. *)
Lemma skfmend_2gib_file_wraps :
  sys_stat host0 (cstr "/srv/c/big.bin") = Some (Stat false 2147483648 0)
  ∧ s32 (rd32 req_seek_end 60) = 0
  ∧ ∃ reply,
      reply_after [req_open_big] req_seek_end = Some (Some reply)
      ∧ ax_of reply = 0
      ∧ rd32 reply 60 = 0
      ∧ rd32 reply 60 ≠ Z.max 0 (2147483648 + Z.min 0 0).
Proof.
  split; [reflexivity|]. split; [reflexivity|].
  eexists. split; [by vm_compute|]. by vm_compute.
Qed.

Lemma skfmend_reply_witness :
  (64 ≤ length (frame answer0))%nat
  ∧ cache_hit answer0 req_seek_keep = false
  ∧ rd req_seek_keep 59 = AL_SKFMEND
  ∧ s32 (rd32 req_seek_keep 60) = -10
  ∧ name (fsdb_get (w_fsdb w_opened) (rd16 req_seek_keep 64))
    = Some (cstr "/srv/c/tmp/keep.txt")
  ∧ sys_stat (w_host w_opened) (cstr "/srv/c/tmp/keep.txt")
    = Some (Stat false 30 0)
  ∧ ∃ answ,
      process answer0 req_seek_keep 66 MYMAC rootarray drivesfat w_opened
        = Some ((64, with_frame answer0 answ), w_opened)
      ∧ ax_of answ = 0 ∧ rd32 answ 60 = 20.
Proof.
  split; [vm_compute; lia|]. do 5 (split; [reflexivity|]).
  destruct (skfmend_reply answer0 req_seek_keep MYMAC rootarray drivesfat ROOT
              w_opened) as [_ Hvalid].
  - vm_compute. lia.
  - reflexivity.
  - vm_compute. split; discriminate.
  - reflexivity.
  - reflexivity.
  - destruct (Hvalid (cstr "/srv/c/tmp/keep.txt") (Stat false 30 0))
      as (answ & Hp & Hax & Hoff).
    + reflexivity.
    + reflexivity.
    + reflexivity.
    + simpl. lia.
    + exists answ. split; [exact Hp|]. split; [exact Hax|]. exact Hoff.
Defined.

(** C9, the code at a failing input: the client opens [big.bin] and asks
    for 2000 bytes of it.  [readfile] stores 2000 bytes behind the header and
    [process] returns 2060, more than the 1520 bytes of the frame buffer of
    the cache entry. *)
Theorem readfil_reply_exceeds_frame :
  ∃ st1 openreply entry w,
    run st0 req_open_big = Some (st1, Some openreply)
    ∧ rd16 openreply 80 = rd16 req_read_2000 64
    ∧ rd16 req_read_2000 66 = 2000
    ∧ length (frame (cache_get (answcache st1) 0)) = 1520%nat
    ∧ process (cache_get (answcache st1) 0) req_read_2000 68 MYMAC rootarray
              drivesfat (srv_world st1)
      = Some ((2060, entry), w)
    ∧ 1520 < 2060.
Proof.
  eexists _, _, _, _. split; [by vm_compute|]. split; [by vm_compute|].
  split; [reflexivity|]. split; [by vm_compute|]. split; [by vm_compute|]. lia.
Qed.

Lemma writefil_truncate_reply_witness :
  (62 ≤ length (frame answer0))%nat
  ∧ cache_hit answer0 req_truncate = false
  ∧ rd req_truncate 59 = AL_WRITEFIL
  ∧ ∃ answ,
      ax_of answ = 0 ∧ rd16 answ 60 = 0
      ∧ ∀ (w : world Sim.host) fname,
          name (fsdb_get (w_fsdb w) (rd16 req_truncate 64)) = Some fname →
          process answer0 req_truncate 66 MYMAC rootarray drivesfat w
          = Some ((62, with_frame answer0 answ),
                  World (snd (sys_truncate fname (rd32 req_truncate 60) (w_host w)))
                        (w_fsdb w)).
Proof.
  split; [vm_compute; lia|]. do 2 (split; [reflexivity|]).
  apply (writefil_truncate_reply answer0 req_truncate MYMAC rootarray drivesfat ROOT).
  - vm_compute. lia.
  - reflexivity.
  - vm_compute. split; discriminate.
  - reflexivity.
  - reflexivity.
Defined.

(** The truncation of [keep.txt] succeeds on the sample host and fails on
    the read-only one; the frame left in the cache entry and the value
    [process] returns are the same. *)
Lemma truncate_failure_invisible :
  ∃ e w w',
    fst (sys_truncate (cstr "/srv/c/tmp/keep.txt") 4 host0) = 0
    ∧ fst (sys_truncate (cstr "/srv/c/tmp/keep.txt") 4 host_ro) = -1
    ∧ process answer0 req_truncate 66 MYMAC rootarray drivesfat w_opened
      = Some ((62, e), w)
    ∧ process answer0 req_truncate 66 MYMAC rootarray drivesfat w_opened_ro
      = Some ((62, e), w')
    ∧ Sim.size_of (w_host w) (Sim.path (cstr "/srv/c/tmp/keep.txt")) = 4
    ∧ Sim.size_of (w_host w') (Sim.path (cstr "/srv/c/tmp/keep.txt")) = 30.
Proof.
  eexists _, _, _. split; [reflexivity|]. split; [reflexivity|].
  split; [by vm_compute|]. split; [by vm_compute|]. split; by vm_compute.
Qed.

(** ** Names: case, FCB blocks and masks *)

Lemma chr_values :
  chr "a" = 97 ∧ chr "z" = 122 ∧ chr "A" = 65 ∧ chr "Z" = 90.
Proof. done. Qed.

Ltac chr_norm :=
  change (chr "a") with 97 in *; change (chr "z") with 122 in *;
  change (chr "A") with 65 in *; change (chr "Z") with 90 in *.

Ltac no_if t :=
  lazymatch t with context [if _ then _ else _] => fail | _ => idtac end.

Ltac case_bool :=
  repeat match goal with
         | |- context [?a <=? ?b] =>
             no_if a; no_if b;
             let E := fresh "E" in
             destruct (a <=? b) eqn:E; [apply Z.leb_le in E|apply Z.leb_gt in E];
             cbn [andb orb negb]
         | |- context [?a =? ?b] =>
             no_if a; no_if b;
             let E := fresh "E" in
             destruct (a =? b) eqn:E; [apply Z.eqb_eq in E|apply Z.eqb_neq in E];
             cbn [andb orb negb]
         end.

Lemma upchar_tolower c : upchar (tolower c) = upchar c.
Proof. unfold upchar, tolower. chr_norm. case_bool; simpl; lia. Qed.

Lemma upchar_not_lower c : ¬ is_lower (upchar c).
Proof. unfold is_lower, upchar. chr_norm. case_bool; simpl; lia. Qed.

Lemma tolower_eqb c x :
  x < 65 → (tolower c =? x) = (c =? x).
Proof. intros Hx. unfold tolower. chr_norm. case_bool; simpl in *; lia. Qed.

Lemma ch_lostring s i : ch (lostring s) i = tolower (ch s i).
Proof.
  unfold ch, lostring. rewrite list_lookup_fmap. by destruct (s !! i).
Qed.

Section Lostring.
Variable s : list byte.

Lemma eq_dot i : (ch (lostring s) i =? DOT) = (ch s i =? DOT).
Proof. rewrite ch_lostring. by apply tolower_eqb. Qed.
Lemma eq_nul i : (ch (lostring s) i =? NUL) = (ch s i =? NUL).
Proof. rewrite ch_lostring. by apply tolower_eqb. Qed.
Lemma eq_space i : (ch (lostring s) i =? SPACE) = (ch s i =? SPACE).
Proof. rewrite ch_lostring. by apply tolower_eqb. Qed.
Lemma eq_up i : upchar (ch (lostring s) i) = upchar (ch s i).
Proof. rewrite ch_lostring. apply upchar_tolower. Qed.

Lemma dots_loop_lostring fuel : ∀ i d,
  dots_loop fuel i (lostring s) d = dots_loop fuel i s d.
Proof.
  induction fuel as [|fuel IH]; intros i d; simpl; [done|].
  rewrite eq_dot. by destruct (ch s i =? DOT).
Qed.

Lemma skip_spaces_lostring fuel : ∀ j,
  skip_spaces fuel (lostring s) j = skip_spaces fuel s j.
Proof.
  induction fuel as [|fuel IH]; intros j; simpl; [done|].
  rewrite eq_space. by destruct (ch s j =? SPACE).
Qed.

Lemma name_loop_lostring fuel : ∀ i j d,
  name_loop fuel i j (lostring s) d = name_loop fuel i j s d.
Proof.
  induction fuel as [|fuel IH]; intros i j d; simpl; [done|].
  rewrite eq_dot, eq_nul. destruct (_ || _); [done|].
  assert (length (lostring s) = length s) as -> by apply length_fmap.
  rewrite skip_spaces_lostring, eq_up. apply IH.
Qed.

Lemma find_dot_lostring fuel : ∀ k,
  find_dot fuel (lostring s) k = find_dot fuel s k.
Proof.
  induction fuel as [|fuel IH]; intros k; simpl; [done|].
  rewrite eq_dot, eq_nul. by destruct (_ || _).
Qed.

Lemma ext_loop_lostring fuel : ∀ j k d,
  ext_loop fuel j (lostring s) k d = ext_loop fuel j s k d.
Proof.
  induction fuel as [|fuel IH]; intros j k d; simpl; [done|].
  rewrite eq_dot, eq_nul, eq_space, eq_up. by destruct (_ || _ || _).
Qed.
End Lostring.

(** X1: the FCB block of a name does not depend on the case of its letters:
    the block of the lower-cased name, which is what the dispatcher hands to
    the path resolution, is the block of the name itself. *)
Theorem filename2fcb_lostring s :
  filename2fcb (lostring s) = filename2fcb s.
Proof.
  unfold filename2fcb. rewrite dots_loop_lostring.
  destruct (dots_loop 8 0 s (replicate 11 SPACE)) as [i d].
  rewrite name_loop_lostring.
  destruct (name_loop (8 - i) i i s d) as [i' d'].
  assert (length (lostring s) = length s) as -> by apply length_fmap.
  rewrite find_dot_lostring, ch_lostring, tolower_eqb by done.
  destruct (_ =? NUL); [done|]. apply ext_loop_lostring.
Qed.

Section FcbShape.
Variable s : list byte.
Local Abbreviation P d := (length d = 11%nat ∧ Forall (λ b, ¬ is_lower b) d).

Lemma fcb_shape_insert (d : list byte) i c :
  P d → ¬ is_lower c → P (<[i := c]> d).
Proof.
  intros [Hl Hf] Hc. split; [by rewrite length_insert|by apply Forall_insert].
Qed.

Lemma dots_loop_shape fuel : ∀ i d, P d → P (snd (dots_loop fuel i s d)).
Proof.
  induction fuel as [|fuel IH]; intros i d Hd; simpl; [done|].
  destruct (ch s i =? DOT); [|done].
  apply IH, fcb_shape_insert; [done|]. unfold is_lower, DOT. chr_norm. lia.
Qed.

Lemma name_loop_shape fuel : ∀ i j d, P d → P (snd (name_loop fuel i j s d)).
Proof.
  induction fuel as [|fuel IH]; intros i j d Hd; simpl; [done|].
  destruct (_ || _); [done|].
  apply IH, fcb_shape_insert; [done|]. apply upchar_not_lower.
Qed.

Lemma ext_loop_shape fuel : ∀ j k d, P d → P (ext_loop fuel j s k d).
Proof.
  induction fuel as [|fuel IH]; intros j k d Hd; simpl; [done|].
  destruct (_ || _ || _); [done|].
  apply IH, fcb_shape_insert; [done|]. apply upchar_not_lower.
Qed.

(** X2: whatever the name, its FCB block has 11 bytes and holds no
    lower-case letter. *)
Theorem filename2fcb_upper :
  length (filename2fcb s) = 11%nat
  ∧ Forall (λ b, ¬ is_lower b) (filename2fcb s).
Proof.
  unfold filename2fcb.
  assert (P (replicate 11 SPACE)) as H0.
  { split; [done|]. apply Forall_replicate. unfold is_lower, SPACE. chr_norm. lia. }
  pose proof (dots_loop_shape 8 0 _ H0) as H1.
  destruct (dots_loop 8 0 s (replicate 11 SPACE)) as [i d]. simpl in H1.
  pose proof (name_loop_shape (8 - i) i i _ H1) as H2.
  destruct (name_loop (8 - i) i i s d) as [i' d']. simpl in H2.
  destruct (_ =? NUL); [done|]. by apply ext_loop_shape.
Qed.
End FcbShape.

Lemma matchfile2mask_loop_spec msk fil fuel : ∀ i,
  (matchfile2mask_loop fuel i msk fil = 0
   ∨ matchfile2mask_loop fuel i msk fil = -1)
  ∧ (matchfile2mask_loop fuel i msk fil = 0 ↔
     ∀ k, (i ≤ k < i + fuel)%nat →
          upchar (ch fil k) = upchar (ch msk k) ∨ ch msk k = QMARK).
Proof.
  induction fuel as [|fuel IH]; intros i; simpl.
  - split; [by left|]. split; [intros _ k Hk; lia|done].
  - destruct (IH (S i)) as [Hv Hs].
    destruct (upchar (ch fil i) =? upchar (ch msk i)) eqn:E1;
      [apply Z.eqb_eq in E1|apply Z.eqb_neq in E1];
      (destruct (ch msk i =? QMARK) eqn:E2;
        [apply Z.eqb_eq in E2|apply Z.eqb_neq in E2]); simpl.
    4:{ split; [by right|]. split; [done|].
        intros Hall. destruct (Hall i ltac:(lia)); done. }
    all: split; [done|]; rewrite Hs; split.
    all: try (intros Hall k Hk; destruct (decide (k = i)) as [-> | Hne];
              [auto|apply Hall; lia]).
    all: intros Hall k Hk; apply Hall; lia.
Qed.

(** X3: a FCB name fits a FCB mask exactly when, at each of the 11
    positions, the mask holds a question mark or the same character up to
    case; the result is 0 then and -1 otherwise. *)
Theorem matchfile2mask_spec msk fil :
  (matchfile2mask msk fil = 0 ∨ matchfile2mask msk fil = -1)
  ∧ (matchfile2mask msk fil = 0 ↔
     ∀ k, (k < 11)%nat →
          upchar (ch fil k) = upchar (ch msk k) ∨ ch msk k = QMARK).
Proof.
  unfold matchfile2mask.
  destruct (matchfile2mask_loop_spec msk fil 11 0) as [Hv Hs].
  split; [done|]. rewrite Hs. split; intros Hall k Hk; apply Hall; lia.
Qed.

(** ** [cmpdata] and [lostring] *)

Lemma cmpdata_loop_spec d1 d2 fuel : ∀ i,
  (cmpdata_loop fuel d1 d2 i = 0 ∨ cmpdata_loop fuel d1 d2 i = 1)
  ∧ (cmpdata_loop fuel d1 d2 i = 0 ↔
     ∀ k, i ≤ k < i + Z.of_nat fuel → rd d1 k = rd d2 k).
Proof.
  induction fuel as [|fuel IH]; intros i; simpl.
  - split; [by left|]. split; [intros _ k Hk; lia|done].
  - destruct (IH (i + 1)) as [Hv Hs].
    destruct (rd d1 i =? rd d2 i) eqn:E;
      [apply Z.eqb_eq in E|apply Z.eqb_neq in E]; simpl.
    + split; [done|]. rewrite Hs. split; intros Hall k Hk.
      * destruct (decide (k = i)) as [-> | Hne]; [done|apply Hall; lia].
      * apply Hall; lia.
    + split; [by right|]. split; [done|]. intros Hall.
      destruct E. apply Hall. lia.
Qed.

Lemma slice_ext (d1 d2 : list byte) n :
  (n ≤ length d1)%nat → (n ≤ length d2)%nat →
  take n d1 = take n d2 ↔ ∀ k, 0 ≤ k < Z.of_nat n → rd d1 k = rd d2 k.
Proof.
  intros H1 H2. split.
  - intros He k Hk. by rewrite <- (rd_take n d1), He, rd_take by lia.
  - intros Hall. apply list_eq. intros i.
    destruct (decide (i < n)%nat) as [Hi|Hi].
    + rewrite !lookup_take_lt by done.
      rewrite (lookup_rd d1 i), (lookup_rd d2 i) by lia.
      f_equal. apply Hall. lia.
    + by rewrite !lookup_take_ge by lia.
Qed.

(** X15: [cmpdata] returns 0 or 1, and 0 exactly when the first [len] bytes
    of the two chunks are the same; a length that is not positive compares
    nothing. *)
Theorem cmpdata_spec d1 d2 len :
  len ≤ Z.of_nat (length d1) → len ≤ Z.of_nat (length d2) →
  (cmpdata d1 d2 len = 0 ∨ cmpdata d1 d2 len = 1)
  ∧ (cmpdata d1 d2 len = 0 ↔ slice d1 0 len = slice d2 0 len)
  ∧ (len ≤ 0 → cmpdata d1 d2 len = 0).
Proof.
  intros H1 H2. unfold cmpdata.
  destruct (cmpdata_loop_spec d1 d2 (Z.to_nat len) 0) as [Hv Hs].
  split; [done|]. split.
  - rewrite Hs. unfold slice. change (Z.to_nat 0) with 0%nat. rewrite !drop_0.
    rewrite slice_ext by lia. split; intros Hall k Hk; apply Hall; lia.
  - intros Hn. replace (Z.to_nat len) with 0%nat by lia. done.
Qed.

Lemma lostring_bounded_spec : ∀ n (s : list byte),
  lostring_bounded n s
  = lostring (take (n `min` length (c_str s)) s)
    ++ drop (n `min` length (c_str s)) s.
Proof.
  induction n as [|n IH]; intros s.
  - by destruct s.
  - destruct s as [|c rest]; [done|]. simpl.
    destruct (c =? NUL); [done|]. simpl. by rewrite IH.
Qed.

Lemma length_c_str (s : list byte) : (length (c_str s) ≤ length s)%nat.
Proof.
  induction s as [|c rest IH]; simpl; [done|].
  destruct (c =? NUL); simpl; lia.
Qed.

(** [lostring] turns into lower case the characters of the string a
    buffer holds, at most [n] of them when [n] is not negative, and leaves
    the rest of the buffer, terminator included, as it is. *)
Lemma lostring_n_spec (s : list byte) n :
  let k := if n <? 0 then length (c_str s)
           else (Z.to_nat n `min` length (c_str s))%nat in
  lostring_n s n = lostring (take k s) ++ drop k s.
Proof.
  unfold lostring_n. destruct (n <? 0); cbv zeta.
  - rewrite lostring_bounded_spec.
    by rewrite Nat.min_r by apply length_c_str.
  - apply lostring_bounded_spec.
Qed.

(** ** DOS timestamps *)

Lemma lor_shiftl_add a b k :
  0 ≤ k → 0 ≤ b < 2 ^ k → Z.lor (Z.shiftl a k) b = a * 2 ^ k + b.
Proof.
  intros Hk Hb. rewrite <- Z.shiftl_mul_pow2 by done.
  symmetry. apply Z.add_nocarry_lor.
  apply Z.bits_inj'. intros n Hn. rewrite Z.land_spec, Z.bits_0.
  destruct (decide (n < k)).
  - by rewrite Z.shiftl_spec_low.
  - rewrite <- (Z.mod_small b (2 ^ k)) by done.
    rewrite Z.mod_pow2_bits_high by lia. apply andb_false_r.
Qed.

Lemma land_low_bits a :
  Z.land a 15 = a mod 16 ∧ Z.land a 31 = a mod 32 ∧ Z.land a 63 = a mod 64.
Proof.
  split; [|split].
  - apply (Z.land_ones a 4). lia.
  - apply (Z.land_ones a 5). lia.
  - apply (Z.land_ones a 6). lia.
Qed.

Section Time.
Context {H : Type} `{!HostOps H}.

(** X4: for a date from 1980 to 2107 the DOS timestamp [time2dos] packs is
    a 32-bit value whose bit fields are, from the top, the year since 1980,
    the month counted from 1, the day, the hour, the minute and the second
    halved; it is 0 when [localtime] fails. *)
Theorem time2dos_fields (h : H) t ltime :
  sys_localtime h t = Some ltime →
  80 ≤ tm_year ltime < 208 →
  0 ≤ tm_mon ltime < 12 →
  1 ≤ tm_mday ltime ≤ 31 →
  0 ≤ tm_hour ltime < 24 →
  0 ≤ tm_min ltime < 60 →
  0 ≤ tm_sec ltime ≤ 60 →
  0 ≤ time2dos h t < 4294967296
  ∧ dos_decode (time2dos h t)
    = Dostime (tm_year ltime - 80) (tm_mon ltime + 1) (tm_mday ltime)
              (tm_hour ltime) (tm_min ltime) (tm_sec ltime / 2).
Proof.
  intros Hlt Hy Hmo Hd Hh Hmi Hs. unfold time2dos. rewrite Hlt.
  destruct ltime as [y mo d hh mi s]. simpl in *.
  assert (0 ≤ s / 2 < 32) as Hs2.
  { split; [apply Z.div_pos; lia|apply Z.div_lt_upper_bound; lia]. }
  rewrite (Z.shiftr_div_pow2 s 1) by lia. change (2 ^ 1) with 2.
  unfold u64.
  rewrite (Z.mod_small (y - 80)) by lia.
  rewrite (Z.mod_small (mo + 1)) by lia.
  rewrite (Z.mod_small d) by lia.
  rewrite (Z.mod_small hh) by lia.
  rewrite (Z.mod_small mi) by lia.
  rewrite (Z.mod_small (s / 2)) by lia.
  rewrite (Z.shiftl_mul_pow2 (y - 80)) by lia.
  rewrite (Z.mod_small ((y - 80) * 2 ^ 4)) by lia.
  rewrite <- (Z.shiftl_mul_pow2 (y - 80)) by lia.
  rewrite lor_shiftl_add by lia.
  set (r1 := (y - 80) * 2 ^ 4 + (mo + 1)).
  assert (0 ≤ r1 < 2048) by (subst r1; lia).
  rewrite (Z.shiftl_mul_pow2 r1) by lia.
  rewrite (Z.mod_small (r1 * 2 ^ 5)) by lia.
  rewrite <- (Z.shiftl_mul_pow2 r1) by lia.
  rewrite lor_shiftl_add by lia.
  set (r2 := r1 * 2 ^ 5 + d).
  assert (0 ≤ r2 < 65536) by (subst r2; lia).
  rewrite (Z.shiftl_mul_pow2 r2) by lia.
  rewrite (Z.mod_small (r2 * 2 ^ 5)) by lia.
  rewrite <- (Z.shiftl_mul_pow2 r2) by lia.
  rewrite lor_shiftl_add by lia.
  set (r3 := r2 * 2 ^ 5 + hh).
  assert (0 ≤ r3 < 2097152) by (subst r3; lia).
  rewrite (Z.shiftl_mul_pow2 r3) by lia.
  rewrite (Z.mod_small (r3 * 2 ^ 6)) by lia.
  rewrite <- (Z.shiftl_mul_pow2 r3) by lia.
  rewrite lor_shiftl_add by lia.
  set (r4 := r3 * 2 ^ 6 + mi).
  assert (0 ≤ r4 < 134217728) by (subst r4; lia).
  rewrite (Z.shiftl_mul_pow2 r4) by lia.
  rewrite (Z.mod_small (r4 * 2 ^ 5)) by lia.
  rewrite <- (Z.shiftl_mul_pow2 r4) by lia.
  rewrite lor_shiftl_add by lia.
  set (r5 := r4 * 2 ^ 5 + s / 2).
  split; [subst r5; lia|].
  unfold dos_decode.
  rewrite !Z.shiftr_div_pow2 by lia.
  repeat match goal with
         | |- context [Z.land ?a 15] => rewrite (proj1 (land_low_bits a))
         | |- context [Z.land ?a 31] => rewrite (proj1 (proj2 (land_low_bits a)))
         | |- context [Z.land ?a 63] => rewrite (proj2 (proj2 (land_low_bits a)))
         end.
  change (2 ^ 25) with 33554432. change (2 ^ 21) with 2097152.
  change (2 ^ 16) with 65536. change (2 ^ 11) with 2048.
  change (2 ^ 5) with 32 in *. change (2 ^ 4) with 16 in *.
  change (2 ^ 6) with 64 in *.
  generalize dependent (s / 2). intros s2 Hs2 r5.
  subst r5 r4 r3 r2 r1.
  f_equal; Z.div_mod_to_equations; lia.
Qed.

(** Without a broken-down time the timestamp is 0. *)
Lemma time2dos_no_localtime (h : H) t :
  sys_localtime h t = None → time2dos h t = 0.
Proof. intros Hlt. unfold time2dos. by rewrite Hlt. Qed.
End Time.

(** ** The handle table *)

Lemma fsdb_get_insert_eq db i e : fsdb_get (<[i := e]> db) i = e.
Proof. unfold fsdb_get. by rewrite lookup_insert_eq. Qed.

Lemma fsdb_get_insert_ne db i j e :
  i ≠ j → fsdb_get (<[i := e]> db) j = fsdb_get db j.
Proof. intros Hne. unfold fsdb_get. by rewrite lookup_insert_ne. Qed.

Section Scan.
Variables (now : Z) (f : list byte).

(** One turn of the scan that does not find [f] in slot [i]. *)
Lemma getitemss_loop_step fuel i db ff old :
  name (fsdb_get db i) ≠ Some f →
  let db1 :=
    if bool_decide (name (fsdb_get db i) ≠ None)
       && (3600 <? now - lastused (fsdb_get db i))
    then <[i := sfsdb_zero]> db else db in
  let ff1 :=
    if (ff =? 65535) && bool_decide (name (fsdb_get db1 i) = None)
    then i else ff in
  ∃ old1, (old1 = old ∨ old1 = i)
    ∧ getitemss_loop (S fuel) i now f db ff old
      = getitemss_loop fuel (i + 1) now f db1 ff1 old1.
Proof.
  intros Hne db1 ff1. cbn [getitemss_loop]. cbv zeta.
  rewrite bool_decide_eq_false_2 by done. fold db1.
  subst ff1.
  destruct ((ff =? 65535) && bool_decide (name (fsdb_get db1 i) = None)).
  - exists old. split; [by left|done].
  - destruct (lastused (fsdb_get db1 i) <? lastused (fsdb_get db1 old)).
    + exists i. split; [by right|done].
    + exists old. split; [by left|done].
Qed.

(** What the scan does to slot [i] when it is too old, and to no other. *)
Lemma scan_clean_spec (db : gmap Z sfsdb) i :
  let db1 :=
    if bool_decide (name (fsdb_get db i) ≠ None)
       && (3600 <? now - lastused (fsdb_get db i))
    then <[i := sfsdb_zero]> db else db in
  (∀ j, j ≠ i → fsdb_get db1 j = fsdb_get db j)
  ∧ (fsdb_get db1 i = fsdb_get db i
     ∨ (name (fsdb_get db i) ≠ None
        ∧ 3600 < now - lastused (fsdb_get db i)
        ∧ fsdb_get db1 i = sfsdb_zero)).
Proof.
  intros db1. subst db1.
  destruct (bool_decide (name (fsdb_get db i) ≠ None)) eqn:E1;
    [|split; [done|by left]].
  destruct (3600 <? now - lastused (fsdb_get db i)) eqn:E2;
    [|split; [done|by left]].
  apply bool_decide_eq_true in E1. apply Z.ltb_lt in E2. simpl. split.
  - intros j Hj. by rewrite fsdb_get_insert_ne.
  - right. by rewrite fsdb_get_insert_eq.
Qed.

Lemma getitemss_loop_inv fuel : ∀ i db ff old db' ff' old' found,
  getitemss_loop fuel i now f db ff old = (db', ff', old', found) →
  (∀ j, fsdb_get db' j = fsdb_get db j
        ∨ (found = Some j ∧ name (fsdb_get db j) = Some f
           ∧ fsdb_get db' j = Sfsdb (Some f) now (dirlist (fsdb_get db j)))
        ∨ (i ≤ j < i + Z.of_nat fuel ∧ name (fsdb_get db j) ≠ None
           ∧ name (fsdb_get db j) ≠ Some f
           ∧ 3600 < now - lastused (fsdb_get db j)
           ∧ fsdb_get db' j = sfsdb_zero))
  ∧ (∀ k, found = Some k →
          i ≤ k < i + Z.of_nat fuel ∧ name (fsdb_get db k) = Some f
          ∧ ∀ j, i ≤ j < k → name (fsdb_get db j) ≠ Some f)
  ∧ (found = None →
     ∀ j, i ≤ j < i + Z.of_nat fuel → name (fsdb_get db j) ≠ Some f)
  ∧ (found = None →
     ff' = ff ∨ (ff = 65535 ∧ i ≤ ff' < i + Z.of_nat fuel
                 ∧ name (fsdb_get db' ff') = None))
  ∧ (old' = old ∨ i ≤ old' < i + Z.of_nat fuel).
Proof.
  induction fuel as [|fuel IH]; intros i db ff old db' ff' old' found Hloop.
  { simpl in Hloop. injection Hloop as <- <- <- <-.
    repeat split; try done; [by left|intros; lia|by left|by left]. }
  destruct (decide (name (fsdb_get db i) = Some f)) as [Hm|Hm].
  { cbn [getitemss_loop] in Hloop. cbv zeta in Hloop.
    rewrite bool_decide_eq_true_2 in Hloop by done.
    injection Hloop as <- <- <- <-.
    split; [|split; [|split; [|split]]]; try done.
    - intros j. destruct (decide (j = i)) as [-> | Hne].
      + right; left. rewrite fsdb_get_insert_eq, Hm. done.
      + left. by rewrite fsdb_get_insert_ne.
    - intros k [= <-]. split; [lia|]. split; [done|]. intros j Hj. lia.
    - by left. }
  destruct (getitemss_loop_step fuel i db ff old Hm) as (old1 & Hold1 & Hstep).
  cbv zeta in Hstep. rewrite Hstep in Hloop. clear Hstep.
  destruct (scan_clean_spec db i) as [Hother Hi]. cbv zeta in Hother, Hi.
  revert Hloop Hother Hi.
  generalize (if bool_decide (name (fsdb_get db i) ≠ None)
                 && (3600 <? now - lastused (fsdb_get db i))
              then <[i := sfsdb_zero]> db else db).
  intros db1 Hloop Hother Hi.
  destruct (IH _ _ _ _ _ _ _ _ Hloop) as (I1 & I2 & I3 & I4 & I5).
  split; [|split; [|split; [|split]]].
  - intros j. destruct (decide (j = i)) as [-> | Hne].
    + destruct (I1 i) as [E | [(Hf & _) | (Hr & _)]]; [|apply I2 in Hf; lia|lia].
      destruct Hi as [Hi | (? & ? & Hi)]; rewrite E, Hi.
      * by left.
      * right; right. repeat split; try done; lia.
    + rewrite <- (Hother j Hne).
      destruct (I1 j) as [E | [(Hf & Hn & E) | (Hr & Hn & Hn' & Hx & E)]].
      * by left.
      * right; left. done.
      * right; right. repeat split; try done; lia.
  - intros k Hk. destruct (I2 k Hk) as (Hr & Hn & Hfirst).
    rewrite Hother in Hn by lia. split; [lia|]. split; [done|].
    intros j Hj. destruct (decide (j = i)) as [-> | Hne]; [done|].
    rewrite <- Hother by done. apply Hfirst. lia.
  - intros Hnone j Hj. destruct (decide (j = i)) as [-> | Hne]; [done|].
    rewrite <- Hother by done. apply I3; [done|lia].
  - intros Hnone. specialize (I4 Hnone).
    destruct ((ff =? 65535) && bool_decide (name (fsdb_get db1 i) = None)) eqn:E.
    + apply andb_true_iff in E as [E1 E2].
      apply Z.eqb_eq in E1. apply bool_decide_eq_true in E2.
      right. split; [done|].
      destruct I4 as [-> | (-> & Hr & Hn)].
      * split; [lia|].
        destruct (I1 i) as [E | [(Hf & _) | (Hr & _)]];
          [by rewrite E|congruence|lia].
      * split; [lia|done].
    + destruct I4 as [-> | (-> & Hr & Hn)]; [by left|].
      right. split; [done|]. split; [lia|done].
  - destruct I5 as [-> | Hr]; [|right; lia].
    destruct Hold1 as [-> | ->]; [by left|right; lia].
Qed.

(** The scan stops at the first slot that holds [f]. *)
Lemma getitemss_loop_finds fuel : ∀ i db ff old k,
  i ≤ k < i + Z.of_nat fuel →
  (∀ j, i ≤ j < k → name (fsdb_get db j) ≠ Some f) →
  name (fsdb_get db k) = Some f →
  ∃ db' ff' old',
    getitemss_loop fuel i now f db ff old = (db', ff', old', Some k)
    ∧ name (fsdb_get db' k) = Some f.
Proof.
  induction fuel as [|fuel IH]; intros i db ff old k Hk Hbefore Hat; [lia|].
  destruct (decide (i = k)) as [-> | Hne].
  - cbn [getitemss_loop]. cbv zeta.
    rewrite bool_decide_eq_true_2 by done.
    eexists _, _, _. split; [reflexivity|].
    by rewrite fsdb_get_insert_eq.
  - assert (name (fsdb_get db i) ≠ Some f) as Hm by (apply Hbefore; lia).
    destruct (getitemss_loop_step fuel i db ff old Hm) as (old1 & _ & Hstep).
    cbv zeta in Hstep. rewrite Hstep. clear Hstep.
    destruct (scan_clean_spec db i) as [Hother _]. cbv zeta in Hother.
    apply IH; [lia| |].
    + intros j Hj. rewrite Hother by lia. apply Hbefore. lia.
    + by rewrite Hother by lia.
Qed.

(** A name the table does not hold is given the first slot that is free or
    has not been used for more than an hour. *)
Lemma getitemss_loop_alloc fuel : ∀ i db old k,
  i ≤ k < i + Z.of_nat fuel → k ≠ 65535 →
  (∀ j, i ≤ j < i + Z.of_nat fuel → name (fsdb_get db j) ≠ Some f) →
  (∀ j, i ≤ j < k →
     name (fsdb_get db j) ≠ None
     ∧ now - lastused (fsdb_get db j) ≤ 3600) →
  name (fsdb_get db k) = None ∨ 3600 < now - lastused (fsdb_get db k) →
  ∃ db' old',
    getitemss_loop fuel i now f db 65535 old = (db', k, old', None).
Proof.
  induction fuel as [|fuel IH]; intros i db old k Hk Hk' Hnot Hbusy Hfree; [lia|].
  assert (name (fsdb_get db i) ≠ Some f) as Hm by (apply Hnot; lia).
  destruct (getitemss_loop_step fuel i db 65535 old Hm) as (old1 & _ & Hstep).
  cbv zeta in Hstep. rewrite Hstep. clear Hstep.
  destruct (scan_clean_spec db i) as [Hother Hi]. cbv zeta in Hother, Hi.
  set (db1 := if bool_decide (name (fsdb_get db i) ≠ None)
                 && (3600 <? now - lastused (fsdb_get db i))
              then <[i := sfsdb_zero]> db else db) in *.
  change (65535 =? 65535) with true. cbn [andb].
  destruct (decide (i = k)) as [-> | Hne].
  - assert (name (fsdb_get db1 k) = None) as Hn.
    { destruct Hi as [Hi | (_ & _ & Hi)]; [|by rewrite Hi].
      destruct Hfree as [Hfree | Hexp]; [by rewrite Hi|].
      subst db1. destruct (name (fsdb_get db k)) eqn:En; [|done].
      rewrite bool_decide_eq_true_2 by done.
      destruct (3600 <? now - lastused (fsdb_get db k)) eqn:E2;
        [|apply Z.ltb_ge in E2; lia].
      simpl. by rewrite fsdb_get_insert_eq. }
    rewrite bool_decide_eq_true_2 by done.
    destruct (getitemss_loop fuel (k + 1) now f db1 k old1)
      as [[[db' ff'] old'] found] eqn:E.
    destruct (getitemss_loop_inv _ _ _ _ _ _ _ _ _ E) as (_ & I2 & _ & I4 & _).
    destruct found as [m|].
    { destruct (I2 m eq_refl) as (Hr & Hn' & _).
      rewrite Hother in Hn' by lia. destruct (Hnot m ltac:(lia) Hn'). }
    destruct (I4 eq_refl) as [-> | (? & _)]; [|done].
    by eexists _, _.
  - destruct (Hbusy i ltac:(lia)) as [Hb1 Hb2].
    assert (db1 = db) as Hdb1.
    { subst db1. destruct (3600 <? now - lastused (fsdb_get db i)) eqn:E2;
        [apply Z.ltb_lt in E2; lia|]. by rewrite andb_false_r. }
    rewrite Hdb1. rewrite bool_decide_eq_false_2 by done.
    apply IH; [lia|done| | |done].
    + intros j Hj. apply Hnot. lia.
    + intros j Hj. apply Hbusy. lia.
Qed.
End Scan.

Section Table.
Context {H : Type} `{!HostOps H}.

Lemma getitemss_mem_run mem f (w : world H) :
  let now := sys_time (w_host w) in
  ∃ db' ff' old' found,
    getitemss_loop (Z.to_nat 65535) 0 now f (w_fsdb w) 65535 0
      = (db', ff', old', found)
    ∧ getitemss_mem mem f w =
        Some (match found with
              | Some i => (i, World (w_host w) db')
              | None =>
                  let id := if ff' =? 65535 then old' else ff' in
                  let db2 := if ff' =? 65535 then <[old' := sfsdb_zero]> db'
                             else db' in
                  let e := fsdb_get db2 id in
                  if mem
                  then (id, World (w_host w)
                              (<[id := Sfsdb (Some f) now (dirlist e)]> db2))
                  else (65535, World (w_host w)
                                 (<[id := Sfsdb None (lastused e) (dirlist e)]> db2))
              end).
Proof.
  intros now. unfold getitemss_mem. generalize (Z.to_nat 65535). intros fuel.
  unfold get_host, get_fsdb. rewrite !bind_eq. fold now.
  destruct (getitemss_loop fuel 0 now f (w_fsdb w) 65535 0)
    as [[[db' ff'] old'] found] eqn:E.
  eexists _, _, _, _. split; [reflexivity|].
  destruct found as [i|]; [done|].
  by destruct (ff' =? 65535), mem.
Qed.

Lemma getitemss_run f (w : world H) :
  let now := sys_time (w_host w) in
  ∃ db' ff' old' found,
    getitemss_loop (Z.to_nat 65535) 0 now f (w_fsdb w) 65535 0
      = (db', ff', old', found)
    ∧ getitemss f w =
        Some (match found with
              | Some i => (i, World (w_host w) db')
              | None =>
                  let id := if ff' =? 65535 then old' else ff' in
                  let db2 := if ff' =? 65535 then <[old' := sfsdb_zero]> db'
                             else db' in
                  (id, World (w_host w)
                         (<[id := Sfsdb (Some f) now (dirlist (fsdb_get db2 id))]> db2))
              end).
Proof.
  intros now.
  destruct (getitemss_mem_run true f w) as (db' & ff' & old' & found & Hloop & Hrun).
  exists db', ff', old', found. split; [exact Hloop|].
  unfold getitemss. rewrite Hrun. by destruct found.
Qed.

(** X5: [getitemss] leaves the host as it is.  It returns 0xffff exactly
    when [strdup] fails for a name that no slot holds; in every other case it
    returns an id between 0 and 65534, and afterwards the slot of that id
    holds the name it was asked for: [sstoitem] gives it back. *)
Theorem getitemss_sstoitem mem f (w : world H) :
  ∃ id w',
    getitemss_mem mem f w = Some (id, w')
    ∧ w_host w' = w_host w
    ∧ (id = 65535 ↔
       mem = false
       ∧ ∀ j, 0 ≤ j < 65535 → name (fsdb_get (w_fsdb w) j) ≠ Some f)
    ∧ (id ≠ 65535 →
       0 ≤ id < 65535 ∧ sstoitem id w' = Some (Some f, w')).
Proof.
  destruct (getitemss_mem_run mem f w) as (db' & ff' & old' & found & Hloop & ->).
  destruct (getitemss_loop_inv _ _ _ _ _ _ _ _ _ _ _ Hloop)
    as (I1 & I2 & I3 & I4 & I5).
  change (Z.of_nat (Z.to_nat 65535)) with 65535 in *.
  destruct found as [i|].
  - destruct (I2 i eq_refl) as (Hr & Hn & _).
    eexists _, _. split; [reflexivity|]. split; [done|]. split.
    + split; [lia|]. intros [_ Hnot]. destruct (Hnot i ltac:(lia) Hn).
    + intros _. split; [lia|].
      unfold sstoitem. rewrite bind_eq. simpl.
      destruct (I1 i) as [E | [(_ & _ & E) | (_ & _ & Hx & _)]];
        [by rewrite E, Hn|by rewrite E|done].
  - cbv zeta.
    assert (0 ≤ (if ff' =? 65535 then old' else ff') < 65535) as Hid.
    { destruct (ff' =? 65535) eqn:E.
      - destruct I5 as [-> | ?]; lia.
      - apply Z.eqb_neq in E. destruct (I4 eq_refl) as [-> | (_ & ? & _)]; lia. }
    destruct mem.
    + eexists _, _. split; [reflexivity|]. split; [done|]. split.
      * split; [lia|]. by intros [? _].
      * intros _. split; [done|].
        unfold sstoitem. rewrite bind_eq. simpl.
        by rewrite fsdb_get_insert_eq.
    + eexists _, _. split; [reflexivity|]. split; [done|]. split; [|done].
      split; [|done]. intros _. split; [done|].
      intros j Hj. apply I3; [done|lia].
Qed.

(** X6: once [getitemss] has returned [id] for a name, slot [id] holds the
    name and no slot below it does; and on every table of which this is
    true, the one the call leaves among them, a call for the same name
    returns [id] again and leaves the name in the slot, whatever the host
    and its clock are: the age of a slot is not tested for the name that is
    looked up. *)
Theorem getitemss_stable f (w w1 : world H) id :
  getitemss f w = Some (id, w1) →
  (name (fsdb_get (w_fsdb w1) id) = Some f
   ∧ ∀ j, 0 ≤ j < id → name (fsdb_get (w_fsdb w1) j) ≠ Some f)
  ∧ ∀ h2 db,
      name (fsdb_get db id) = Some f →
      (∀ j, 0 ≤ j < id → name (fsdb_get db j) ≠ Some f) →
      ∃ db2,
        getitemss f (World h2 db) = Some (id, World h2 db2)
        ∧ name (fsdb_get db2 id) = Some f.
Proof.
  intros Hg.
  assert (0 ≤ id < 65535
          ∧ name (fsdb_get (w_fsdb w1) id) = Some f
          ∧ ∀ j, 0 ≤ j < id → name (fsdb_get (w_fsdb w1) j) ≠ Some f)
    as (Hid & Hat & Hbefore).
  { destruct (getitemss_run f w) as (db' & ff' & old' & found & Hloop & Hrun).
    rewrite Hrun in Hg. clear Hrun.
    destruct (getitemss_loop_inv _ _ _ _ _ _ _ _ _ _ _ Hloop)
      as (I1 & I2 & I3 & I4 & I5).
    change (Z.of_nat (Z.to_nat 65535)) with 65535 in *.
    assert (∀ j, name (fsdb_get (w_fsdb w) j) ≠ Some f →
                 name (fsdb_get db' j) ≠ Some f) as Hkeep.
    { intros j Hj.
      destruct (I1 j) as [E | [(_ & Hn & _) | (_ & _ & _ & _ & E)]];
        [by rewrite E|done|by rewrite E]. }
    destruct found as [i|].
    - injection Hg as <- <-. simpl.
      destruct (I2 i eq_refl) as (Hr & Hn & Hfirst).
      split; [lia|]. split.
      + destruct (I1 i) as [E | [(_ & _ & E) | (_ & _ & Hx & _)]];
          [by rewrite E, Hn|by rewrite E|done].
      + intros j Hj. apply Hkeep, Hfirst. lia.
    - cbv zeta in Hg. injection Hg as <- <-. simpl.
      set (id := if ff' =? 65535 then old' else ff').
      assert (0 ≤ id < 65535) as Hid.
      { subst id. destruct (ff' =? 65535) eqn:E.
        - destruct I5 as [-> | ?]; lia.
        - apply Z.eqb_neq in E.
          destruct (I4 eq_refl) as [-> | (_ & ? & _)]; lia. }
      split; [done|]. split; [by rewrite fsdb_get_insert_eq|].
      intros j Hj. rewrite fsdb_get_insert_ne by lia.
      assert (name (fsdb_get db' j) ≠ Some f) as Hj'
        by (apply Hkeep, I3; [done|lia]).
      destruct (ff' =? 65535); [|done].
      destruct (decide (old' = j)) as [-> | Hne].
      + by rewrite fsdb_get_insert_eq.
      + by rewrite fsdb_get_insert_ne. }
  split; [done|]. clear Hat Hbefore.
  intros h2 db Hat Hbefore.
  destruct (getitemss_run f (World h2 db))
    as (db' & ff' & old' & found & Hloop & ->).
  cbn [w_host w_fsdb] in Hloop.
  destruct (getitemss_loop_finds (sys_time h2) f (Z.to_nat 65535) 0
              db 65535 0 id) as (db2 & ff2 & old2 & Hloop2 & Hn2);
    [change (Z.of_nat (Z.to_nat 65535)) with 65535; lia|done|done|].
  rewrite Hloop in Hloop2. injection Hloop2 as -> -> -> ->.
  exists db2. done.
Qed.

(** X7: a lookup leaves alone every other slot that was used within the
    last hour: whatever name [getitemss] is asked for, a slot other than the
    one it returns whose last use is not more than 3600 seconds old keeps its
    name, its time and its listing. *)
Theorem getitemss_keeps_recent f (w w1 : world H) id j :
  getitemss f w = Some (id, w1) →
  j ≠ id →
  sys_time (w_host w) - lastused (fsdb_get (w_fsdb w) j) ≤ 3600 →
  fsdb_get (w_fsdb w1) j = fsdb_get (w_fsdb w) j.
Proof.
  intros Hg Hj Hrecent.
  destruct (getitemss_run f w) as (db' & ff' & old' & found & Hloop & Hrun).
  rewrite Hrun in Hg. clear Hrun.
  destruct (getitemss_loop_inv _ _ _ _ _ _ _ _ _ _ _ Hloop) as (I1 & _).
  assert (found ≠ Some j → fsdb_get db' j = fsdb_get (w_fsdb w) j) as Hsame.
  { intros Hf. destruct (I1 j) as [E | [(? & _) | (_ & _ & _ & Hx & _)]];
      [done|done|lia]. }
  destruct found as [i|].
  - injection Hg as <- <-. simpl. apply Hsame. congruence.
  - cbv zeta in Hg. injection Hg as <- <-. simpl.
    rewrite fsdb_get_insert_ne by done.
    destruct (ff' =? 65535); [|by apply Hsame].
    rewrite fsdb_get_insert_ne by done. by apply Hsame.
Qed.

(** X8: a name the table does not hold is given the first slot that is
    free or whose last use is more than 3600 seconds old: the handle that
    idled there is dropped. *)
Theorem getitemss_allocates f (w : world H) k :
  let db := w_fsdb w in
  let now := sys_time (w_host w) in
  0 ≤ k < 65535 →
  (∀ j, 0 ≤ j < 65535 → name (fsdb_get db j) ≠ Some f) →
  (∀ j, 0 ≤ j < k →
     name (fsdb_get db j) ≠ None ∧ now - lastused (fsdb_get db j) ≤ 3600) →
  name (fsdb_get db k) = None ∨ 3600 < now - lastused (fsdb_get db k) →
  ∃ w1, getitemss f w = Some (k, w1).
Proof.
  intros db now Hk Hnot Hbusy Hfree.
  destruct (getitemss_run f w) as (db' & ff' & old' & found & Hloop & ->).
  fold now db in Hloop.
  assert (0 ≤ k < 0 + Z.of_nat (Z.to_nat 65535)) as Hk1
    by (change (Z.of_nat (Z.to_nat 65535)) with 65535; clear -Hk; lia).
  assert (k ≠ 65535) as Hk2 by (clear -Hk; lia).
  destruct (getitemss_loop_alloc now f (Z.to_nat 65535) 0 db 0 k Hk1 Hk2)
    as (db2 & old2 & Hloop2); [|done|done|].
  { intros j Hj. apply Hnot. clear -Hj.
    change (Z.of_nat (Z.to_nat 65535)) with 65535 in Hj. lia. }
  rewrite Hloop in Hloop2. injection Hloop2 as -> -> -> ->.
  cbv zeta. destruct (k =? 65535) eqn:E; [apply Z.eqb_eq in E; clear -Hk E; lia|].
  by eexists.
Qed.

End Table.

(** ** Paths *)

Lemma c_str_id (s : list byte) : NUL ∉ s → c_str s = s.
Proof.
  induction s as [|c rest IH]; intros Hn; simpl; [done|].
  apply not_elem_of_cons in Hn as [Hc Hrest].
  destruct (c =? NUL) eqn:E; [apply Z.eqb_eq in E; congruence|].
  by rewrite IH.
Qed.

Lemma elem_of_take_l (x : byte) n (l : list byte) : x ∈ take n l → x ∈ l.
Proof. intros Hx. rewrite <- (take_drop n l). apply elem_of_app. by left. Qed.

Lemma elem_of_drop_l (x : byte) n (l : list byte) : x ∈ drop n l → x ∈ l.
Proof. intros Hx. rewrite <- (take_drop n l). apply elem_of_app. by right. Qed.

Lemma length_charreplace s rep repby :
  length (charreplace s rep repby) = length s.
Proof. apply length_fmap. Qed.

Lemma charreplace_id s rep repby :
  charreplace s rep repby = s ↔ (rep = repby ∨ rep ∉ s).
Proof.
  unfold charreplace. induction s as [|c rest IH]; simpl.
  - split; [intros _; right; apply not_elem_of_nil|done].
  - destruct (c =? rep) eqn:E; [apply Z.eqb_eq in E|apply Z.eqb_neq in E].
    + subst c. split.
      * intros [= Hr _]. by left.
      * intros [-> | Hn]; [|destruct Hn; left].
        f_equal. apply IH. by left.
    + split.
      * intros [= Hr]. apply IH in Hr as [-> | Hn]; [by left|].
        right. apply not_elem_of_cons. done.
      * intros Hc. f_equal. apply IH. destruct Hc as [-> | Hn]; [by left|].
        right. by apply not_elem_of_cons in Hn as [_ Hn].
Qed.

Section Paths.
Context {H : Type} `{!HostOps H}.

(** X9: every path string the dispatcher hands to [shorttolong] is the
    root, a slash and the request's path, with every backslash of the whole
    string replaced by a slash.  The [assert] at the head of [shorttolong]
    compares the root with the head of that string: it fails, and ends the
    process, exactly when the root itself holds a backslash. *)
Theorem shorttolong_assert root x (w : world H) :
  shorttolong (charreplace (root ++ [SLASH] ++ x) BACKSLASH SLASH) root w = None
  ↔ BACKSLASH ∈ root.
Proof.
  unfold shorttolong.
  assert (take (length root) (charreplace (root ++ [SLASH] ++ x) BACKSLASH SLASH)
          = charreplace root BACKSLASH SLASH) as ->.
  { unfold charreplace. rewrite fmap_app.
    rewrite take_app_length'; [done|by rewrite length_fmap]. }
  destruct (decide (BACKSLASH ∈ root)) as [Hin|Hout].
  - rewrite bool_decide_eq_false_2; [done|].
    intros He. apply charreplace_id in He as [? | ?]; done.
  - rewrite bool_decide_eq_true_2 by (apply charreplace_id; by right).
    simpl. split; [|done].
    destruct (negb _); [done|]. rewrite bind_eq. done.
Qed.

Lemma shorttolong_walk_spec entries fcb has_next found :
  shorttolong_walk entries fcb has_next = Some found →
  ∃ entry, entry ∈ entries ∧ d_name entry = found
    ∧ found ≠ [DOT] ∧ found ≠ [DOT; DOT]
    ∧ streq (filename2fcb found) fcb = true
    ∧ (has_next = true → d_type entry = DT_DIR).
Proof.
  induction entries as [|e rest IH]; simpl; [done|].
  intros Hw.
  assert (∀ r, (∃ entry, entry ∈ rest ∧ r entry) → ∃ entry, entry ∈ e :: rest ∧ r entry)
    as Hmono.
  { intros r (entry & Hin & Hr). exists entry. split; [by right|done]. }
  destruct (bool_decide (d_name e = [DOT])) eqn:E1; [by apply Hmono, IH|].
  destruct (bool_decide (d_name e = [DOT; DOT])) eqn:E2; [by apply Hmono, IH|].
  apply bool_decide_eq_false in E1, E2. simpl in Hw.
  destruct (streq (filename2fcb (d_name e)) fcb) eqn:E3; [|by apply Hmono, IH].
  destruct (has_next && negb (d_type e =? DT_DIR)) eqn:E4; [by apply Hmono, IH|].
  injection Hw as <-. exists e. split; [by left|]. repeat split; try done.
  intros ->. simpl in E4. apply negb_false_iff, Z.eqb_eq in E4. done.
Qed.

Lemma shorttolong_loop_resolves (h : H) tokens : ∀ dst dst',
  shorttolong_loop h tokens dst = (0, dst') → resolves h dst tokens dst'.
Proof.
  induction tokens as [|tok rest IH]; intros dst dst'; simpl.
  - intros [= <-]. constructor.
  - destruct (sys_opendir h dst) as [entries|] eqn:Eo; [|done].
    destruct (shorttolong_walk entries (filename2fcb tok) _) as [found|] eqn:Ew;
      [|done].
    intros Hloop.
    apply shorttolong_walk_spec in Ew as (entry & Hin & <- & Hd1 & Hd2 & Hfcb & Hdir).
    apply (resolves_cons h dst tok rest entries entry); try done.
    + intros Hrest. apply Hdir. by destruct rest.
    + apply IH. by destruct rest.
Qed.

Lemma resolves_prefix (h : H) dst tokens dst' :
  resolves h dst tokens dst' → dst `prefix_of` dst'.
Proof.
  induction 1 as [|dst tok rest entries entry dst' _ _ _ _ _ _ _ IH]; [done|].
  etrans; [|exact IH]. by apply prefix_app_r.
Qed.

(** X10: when [shorttolong] succeeds it has only read the host, and the
    path it leaves in [dst] is the root, a slash, and one directory entry
    per component of the DOS path: each entry was listed by the directory
    reached so far, is neither [.] nor [..], has the FCB name of its
    component, and is a directory when a component follows. *)
Theorem shorttolong_resolves src root (w w' : world H) dst' :
  shorttolong src root w = Some ((0, dst'), w') →
  w' = w
  ∧ resolves (w_host w) (root ++ [SLASH])
             (strtok_slash (drop 1 (drop (length root) src)) []) dst'
  ∧ (root ++ [SLASH]) `prefix_of` dst'.
Proof.
  unfold shorttolong. destruct (negb (bool_decide _)); [done|].
  destruct (negb (ch _ 0 =? SLASH)); [done|].
  rewrite bind_eq. simpl. intros [= Hloop <-]. split; [done|].
  apply shorttolong_loop_resolves in Hloop. split; [done|].
  by apply resolves_prefix in Hloop.
Qed.

Lemma fname_loop_no_sep (fn : list byte) : ∀ fname,
  SLASH ∉ fn → BACKSLASH ∉ fn → fname_loop fn fname = fname.
Proof.
  induction fn as [|c rest IH]; intros fname Hs Hb; simpl; [done|].
  apply not_elem_of_cons in Hs as [Hs Hs'].
  apply not_elem_of_cons in Hb as [Hb Hb'].
  destruct (c =? SLASH) eqn:E1; [apply Z.eqb_eq in E1; congruence|].
  destruct (c =? BACKSLASH) eqn:E2; [apply Z.eqb_eq in E2; congruence|].
  simpl. by apply IH.
Qed.

Lemma fname_loop_basename (fn : list byte) :
  fn ≠ [] → NUL ∉ fn → SLASH ∉ fn → BACKSLASH ∉ fn →
  ∀ dir fname, fname_loop (dir ++ [SLASH] ++ fn) fname = fn.
Proof.
  intros Hne Hn Hs Hb dir.
  assert ((ch fn 0 =? NUL) = false) as Hhead.
  { destruct fn as [|c0 fn']; [done|].
    apply not_elem_of_cons in Hn as [Hc0 _].
    apply Z.eqb_neq. unfold ch. simpl. congruence. }
  induction dir as [|c rest IH]; intros fname; simpl.
  - change (SLASH =? SLASH) with true. rewrite Hhead. simpl.
    by apply fname_loop_no_sep.
  - destruct (_ && _); apply IH.
Qed.

Lemma getitemattr_found (h : H) dir fn fprops st :
  fn ≠ [] → NUL ∉ fn → SLASH ∉ fn → BACKSLASH ∉ fn →
  sys_stat h (dir ++ [SLASH] ++ fn) = Some st →
  getitemattr h (dir ++ [SLASH] ++ fn) fprops 0 =
    if st_isdir st
    then (16, Fileprops (filename2fcb fn) 0 (time2dos h (st_mtime st)) 16)
    else (32, Fileprops (filename2fcb fn) (u64 (st_size st))
                        (time2dos h (st_mtime st)) 0).
Proof.
  intros Hne Hn Hs Hb Hst. unfold getitemattr. rewrite Hst.
  rewrite fname_loop_basename by done.
  by destruct (st_isdir st).
Qed.

(** X11: on a drive that is not FAT, [getitemattr] of [dir/fn] fills the
    properties with the FCB block of the last component [fn], the DOS form
    of the modification time and, for a file, its size; it returns 16 for a
    directory and the fake attribute 20h for a file, but the attribute byte
    it stores for the file is 0.  An item [stat] does not find gives FFh
    and leaves the properties as they were. *)
Theorem getitemattr_nonfat (h : H) dir fn fprops :
  fn ≠ [] → NUL ∉ fn → SLASH ∉ fn → BACKSLASH ∉ fn →
  getitemattr h (dir ++ [SLASH] ++ fn) fprops 0 =
    match sys_stat h (dir ++ [SLASH] ++ fn) with
    | None => (255, fprops)
    | Some st =>
        if st_isdir st
        then (16, Fileprops (filename2fcb fn) 0 (time2dos h (st_mtime st)) 16)
        else (32, Fileprops (filename2fcb fn) (u64 (st_size st))
                            (time2dos h (st_mtime st)) 0)
    end.
Proof.
  intros Hne Hn Hs Hb.
  destruct (sys_stat h (dir ++ [SLASH] ++ fn)) as [st|] eqn:Hst.
  - by apply getitemattr_found.
  - unfold getitemattr. by rewrite Hst.
Qed.

Lemma delfiles_scan_no_slash (m : list byte) : ∀ i isp off,
  SLASH ∉ m →
  delfiles_scan m i isp off = (isp || bool_decide (QMARK ∈ m), off).
Proof.
  induction m as [|c rest IH]; intros i isp off Hs; simpl.
  - by rewrite orb_false_r.
  - apply not_elem_of_cons in Hs as [Hs Hs'].
    destruct (c =? SLASH) eqn:E1; [apply Z.eqb_eq in E1; congruence|].
    rewrite IH by done. f_equal.
    destruct (c =? QMARK) eqn:E2; [apply Z.eqb_eq in E2|apply Z.eqb_neq in E2].
    + subst c. rewrite (bool_decide_eq_true_2 (QMARK ∈ QMARK :: rest)) by left.
      by rewrite orb_true_r.
    + destruct (bool_decide (QMARK ∈ rest)) eqn:E3.
      * apply bool_decide_eq_true in E3.
        rewrite (bool_decide_eq_true_2 (QMARK ∈ c :: rest)) by (by right). done.
      * apply bool_decide_eq_false in E3.
        rewrite (bool_decide_eq_false_2 (QMARK ∈ c :: rest)); [done|].
        intros [?|?]%elem_of_cons; done.
Qed.

Lemma delfiles_scan_split (d m : list byte) : ∀ i isp off,
  SLASH ∉ m → QMARK ∈ m →
  delfiles_scan (d ++ [SLASH] ++ m) i isp off = (true, i + Z.of_nat (length d)).
Proof.
  induction d as [|c rest IH]; intros i isp off Hs Hq; simpl.
  - change (SLASH =? SLASH) with true. rewrite delfiles_scan_no_slash by done.
    rewrite bool_decide_eq_true_2 by done. rewrite orb_true_r. f_equal. lia.
  - rewrite IH by done. f_equal. lia.
Qed.

Lemma delfiles_loop_effect entries dir filfcb : ∀ (w : world H),
  delfiles_loop entries dir filfcb w =
    Some (tt, World
      (unlink_all dir
         (d_name <$> filter (λ e, d_type e ≠ DT_DIR
                      ∧ matchfile2mask filfcb (filename2fcb (d_name e)) = 0)
                            entries) (w_host w))
      (w_fsdb w)).
Proof.
  induction entries as [|e rest IH]; intros w; simpl.
  - by destruct w.
  - rewrite bind_eq.
    destruct (d_type e =? DT_DIR) eqn:E1;
      [apply Z.eqb_eq in E1|apply Z.eqb_neq in E1].
    { simpl. rewrite IH. rewrite filter_cons_False; [done|]. by intros [? _]. }
    destruct (matchfile2mask filfcb (filename2fcb (d_name e)) =? 0) eqn:E2;
      [apply Z.eqb_eq in E2|apply Z.eqb_neq in E2].
    2:{ simpl. rewrite IH. rewrite filter_cons_False; [done|]. by intros [_ ?]. }
    rewrite filter_cons_True by done.
    rewrite bind_eq. unfold sys.
    unfold unlink_all. simpl.
    destruct (sys_unlink (dir ++ SLASH :: d_name e) (w_host w)) as [res h'].
    simpl. by rewrite IH.
Qed.

(** X12: [delfiles] on a pattern [dir/mask] whose mask holds a question
    mark returns 0 as soon as the directory opens, and what it does to the
    host is to unlink, in the order of the listing, exactly the entries that
    are not directories and whose FCB name fits the FCB block of the mask;
    the result of each [unlink] is dropped and the handle table is not
    touched. *)
Theorem delfiles_pattern_effect dir mask entries (w : world H) :
  SLASH ∉ mask → QMARK ∈ mask →
  sys_opendir (w_host w) dir = Some entries →
  delfiles (dir ++ [SLASH] ++ mask) w =
    Some (0, World
      (unlink_all dir
         (d_name <$> filter (λ e, d_type e ≠ DT_DIR
                      ∧ matchfile2mask (filename2fcb mask)
                                       (filename2fcb (d_name e)) = 0)
                            entries) (w_host w))
      (w_fsdb w)).
Proof.
  intros Hs Hq Hdir. unfold delfiles.
  rewrite delfiles_scan_split by done. simpl negb. cbv iota.
  replace (Z.to_nat (0 + Z.of_nat (length dir))) with (length dir) by lia.
  rewrite take_app_length.
  replace (length dir + 1)%nat with (length (dir ++ [SLASH])) by (rewrite length_app; simpl; lia).
  rewrite (app_assoc dir [SLASH] mask), drop_app_length.
  cbn [negb]. cbv iota. rewrite bind_eq. simpl. rewrite Hdir. rewrite bind_eq.
  by rewrite delfiles_loop_effect.
Qed.
End Paths.

(** ** [explodepath] and [copy_after_last_slash] *)

Lemma lastbackslash_loop_spec (src : list byte) : ∀ i lb,
  let r := lastbackslash_loop src i lb in
  (r = lb ∧ (BACKSLASH ∉ src) ∧ (SLASH ∉ src))
  ∨ (i ≤ r < i + Z.of_nat (length src)
     ∧ (rd src (r - i) = BACKSLASH ∨ rd src (r - i) = SLASH)
     ∧ (BACKSLASH ∉ drop (Z.to_nat (r - i + 1)) src)
     ∧ (SLASH ∉ drop (Z.to_nat (r - i + 1)) src)).
Proof.
  induction src as [|c rest IH]; intros i lb; simpl.
  - left. repeat split; apply not_elem_of_nil.
  - specialize (IH (i + 1)).
    destruct ((c =? BACKSLASH) || (c =? SLASH)) eqn:E.
    + right. destruct (IH i) as [(Hr & Hb & Hs) | (Hr & Hc & Hb & Hs)].
      * rewrite Hr. replace (i - i) with 0 by lia.
        split; [lia|]. split; [|by split].
        apply orb_true_iff in E as [E|E]; apply Z.eqb_eq in E; auto.
      * split; [lia|].
        replace (Z.to_nat (lastbackslash_loop rest (i + 1) i - i + 1))
          with (S (Z.to_nat (lastbackslash_loop rest (i + 1) i - (i + 1) + 1)))
          by lia.
        simpl. split; [|by split].
        unfold rd in *.
        replace (Z.to_nat (lastbackslash_loop rest (i + 1) i - i))
          with (S (Z.to_nat (lastbackslash_loop rest (i + 1) i - (i + 1))))
          by lia.
        done.
    + apply orb_false_iff in E as [E1 E2].
      apply Z.eqb_neq in E1, E2.
      destruct (IH lb) as [(Hr & Hb & Hs) | (Hr & Hc & Hb & Hs)].
      * left. split; [done|]. split; apply not_elem_of_cons; done.
      * right. split; [lia|].
        replace (Z.to_nat (lastbackslash_loop rest (i + 1) lb - i + 1))
          with (S (Z.to_nat (lastbackslash_loop rest (i + 1) lb - (i + 1) + 1)))
          by lia.
        simpl. split; [|by split].
        unfold rd in *.
        replace (Z.to_nat (lastbackslash_loop rest (i + 1) lb - i))
          with (S (Z.to_nat (lastbackslash_loop rest (i + 1) lb - (i + 1))))
          by lia.
        done.
Qed.

Lemma explodepath_none buf source sourcelen :
  sourcelen ≤ 0 → explodepath buf source sourcelen = None.
Proof.
  intros Hn. unfold explodepath.
  destruct (2 <=? sourcelen) eqn:E; [apply Z.leb_le in E; lia|]. simpl.
  unfold slice. replace (Z.to_nat sourcelen) with 0%nat by lia. simpl.
  destruct (sourcelen - (0 + 1) <? 0) eqn:E'; [done|apply Z.ltb_ge in E'; lia].
Qed.

(** X13: [explodepath] on a path of at least one character without drive
    letter splits it behind its last slash or backslash: the two parts put
    together are the path, the file part holds no separator, and the
    directory part ends with the last separator.  A path without any
    separator is split behind its first character. *)
Theorem explodepath_split buf source sourcelen :
  let src := slice buf source sourcelen in
  0 ≤ source → 0 < sourcelen →
  source + sourcelen ≤ Z.of_nat (length buf) →
  ¬ (2 ≤ sourcelen ∧ rd buf (source + 1) = COLON) →
  NUL ∉ src →
  ∃ dir file,
    explodepath buf source sourcelen = Some (dir, file)
    ∧ dir ++ file = src
    ∧ (BACKSLASH ∉ file) ∧ (SLASH ∉ file)
    ∧ (BACKSLASH ∈ src ∨ SLASH ∈ src →
       ∃ d c, dir = d ++ [c] ∧ (c = BACKSLASH ∨ c = SLASH))
    ∧ (BACKSLASH ∉ src → SLASH ∉ src → dir = take 1 src).
Proof.
  intros src Hso Hlen Hbuf Hdrv Hnul. unfold explodepath.
  assert ((2 <=? sourcelen) && (rd buf (source + 1) =? COLON) = false) as ->.
  { apply andb_false_iff.
    destruct (2 <=? sourcelen) eqn:E1; [|by left]. right.
    apply Z.leb_le in E1. apply Z.eqb_neq. intros E2. apply Hdrv. done. }
  fold src.
  assert (length src = Z.to_nat sourcelen) as Hlsrc
    by (subst src; apply length_slice; lia).
  pose proof (lastbackslash_loop_spec src 0 0) as Hlb. cbv zeta in Hlb.
  set (lb := lastbackslash_loop src 0 0) in *. clearbody lb.
  assert (0 ≤ lb < sourcelen) as Hlbr by (destruct Hlb as [(-> & _) | (? & _)]; lia).
  destruct (sourcelen - (lb + 1) <? 0) eqn:E; [apply Z.ltb_lt in E; lia|].
  assert (slice buf source (lb + 1) = take (Z.to_nat (lb + 1)) src) as ->.
  { subst src. unfold slice. rewrite take_take. f_equal. lia. }
  assert (slice buf (source + lb + 1) (sourcelen - (lb + 1))
          = drop (Z.to_nat (lb + 1)) src) as ->.
  { subst src. unfold slice.
    replace (Z.to_nat sourcelen)
      with (Z.to_nat (lb + 1) + Z.to_nat (sourcelen - (lb + 1)))%nat by lia.
    rewrite <- take_drop_commute, drop_drop. do 2 f_equal. lia. }
  assert (NUL ∉ take (Z.to_nat (lb + 1)) src) as Hn1.
  { intros Hin. apply Hnul. eapply elem_of_take_l; eauto. }
  assert (NUL ∉ drop (Z.to_nat (lb + 1)) src) as Hn2.
  { intros Hin. apply Hnul. eapply elem_of_drop_l; eauto. }
  rewrite !c_str_id by done.
  eexists _, _. split; [reflexivity|].
  split; [apply take_drop|].
  destruct Hlb as [(Hr & Hb & Hs) | (Hr & Hc & Hb & Hs)].
  - split; [intros Hin; apply Hb; eapply elem_of_drop_l; eauto|].
    split; [intros Hin; apply Hs; eapply elem_of_drop_l; eauto|].
    split; [intros [?|?]; done|].
    intros _ _. by rewrite Hr.
  - replace (lb - 0 + 1) with (lb + 1) in * by lia.
    replace (lb - 0) with lb in * by lia.
    split; [done|]. split; [done|]. split.
    + intros _. exists (take (Z.to_nat lb) src), (rd src lb). split; [|done].
      replace (Z.to_nat (lb + 1)) with (S (Z.to_nat lb)) by lia.
      assert (src !! Z.to_nat lb = Some (rd src lb)) as Hl.
      { replace lb with (Z.of_nat (Z.to_nat lb)) at 2 by lia.
        apply lookup_rd. lia. }
      by rewrite (take_S_r _ _ _ Hl).
    + intros Hb' Hs'. exfalso.
      assert (rd src lb ∈ src) as Hin.
      { apply (list_elem_of_lookup_2 _ (Z.to_nat lb)).
        replace lb with (Z.of_nat (Z.to_nat lb)) at 2 by lia.
        apply lookup_rd. lia. }
      destruct Hc as [Hc|Hc]; rewrite Hc in Hin; done.
Qed.

Lemma after_last_slash_spec (src : list byte) : ∀ found,
  ((SLASH ∉ src) ∧ after_last_slash src found = found)
  ∨ (∃ pre rest, src = pre ++ [SLASH] ++ rest ∧ (SLASH ∉ rest)
                 ∧ after_last_slash src found = Some rest).
Proof.
  induction src as [|c rest IH]; intros found; simpl.
  - left. split; [apply not_elem_of_nil|done].
  - destruct (c =? SLASH) eqn:E; [apply Z.eqb_eq in E|apply Z.eqb_neq in E].
    + subst c. right.
      destruct (IH (Some rest)) as [(Hs & ->) | (pre & r & -> & Hs & ->)].
      * by exists [], rest.
      * by exists (SLASH :: pre), r.
    + destruct (IH found) as [(Hs & ->) | (pre & r & -> & Hs & ->)].
      * left. split; [|done]. apply not_elem_of_cons. done.
      * right. by exists (c :: pre), r.
Qed.

(** X14: [copy_after_last_slash] leaves in [dst] what follows the last
    slash of [src], and leaves [dst] as it was when [src] holds no slash. *)
Theorem copy_after_last_slash_spec dst src :
  ((SLASH ∉ src) ∧ copy_after_last_slash dst src = dst)
  ∨ (∃ pre, src = pre ++ [SLASH] ++ copy_after_last_slash dst src
            ∧ (SLASH ∉ copy_after_last_slash dst src)).
Proof.
  unfold copy_after_last_slash.
  destruct (after_last_slash_spec src None) as [(Hs & ->) | (pre & r & He & Hs & ->)].
  - by left.
  - right. by exists pre.
Qed.

(** ** What the dispatcher answers, and what it ignores *)

Lemma le32_bytes v :
  0 ≤ v →
  le32 (v mod 256) (v / 256 mod 256) (v / 65536 mod 256) (v / 16777216 mod 256)
  = v mod 4294967296.
Proof.
  intros Hv. unfold le32.
  assert (v / 256 / 256 = v / 65536) as E2 by (by rewrite Z.div_div by lia).
  assert (v / 65536 / 256 = v / 16777216) as E3 by (by rewrite Z.div_div by lia).
  pose proof (Z.div_mod v 256 ltac:(lia)) as H1.
  pose proof (Z.div_mod (v / 256) 256 ltac:(lia)) as H2.
  pose proof (Z.div_mod (v / 65536) 256 ltac:(lia)) as H3.
  pose proof (Z.div_mod (v / 16777216) 256 ltac:(lia)) as H4.
  rewrite E2 in H2. rewrite E3 in H3.
  pose proof (Z.mod_pos_bound v 256 ltac:(lia)).
  pose proof (Z.mod_pos_bound (v / 256) 256 ltac:(lia)).
  pose proof (Z.mod_pos_bound (v / 65536) 256 ltac:(lia)).
  pose proof (Z.mod_pos_bound (v / 16777216) 256 ltac:(lia)).
  apply (Z.mod_unique v 4294967296 (v / 16777216 / 256)); lia.
Qed.

Lemma slice_store_same off data (buf : list byte) :
  0 ≤ off → off + Z.of_nat (length data) ≤ Z.of_nat (length buf) →
  slice (store off data buf) off (Z.of_nat (length data)) = data.
Proof.
  intros Ho Hl. unfold slice, store. rewrite Nat2Z.id.
  apply list_eq. intros i.
  destruct (decide (i < length data)%nat) as [Hi|Hi].
  - rewrite lookup_take_lt by done. rewrite lookup_drop.
    rewrite list_lookup_inserts by lia. f_equal. lia.
  - rewrite lookup_take_ge by lia. symmetry. apply lookup_ge_None. lia.
Qed.

Ltac mstep :=
  repeat first
    [ rewrite bind_eq
    | progress cbn [mret M_ret get_fsdb get_host put_fsdb crash w_fsdb w_host] ].

Section Dispatch.
Context {H : Type} `{!HostOps H}.

(** A query byte none of the branches of [process] tests for. *)
Lemma dispatch_unknown query reqdrv root reqbuff reqbufflen drivesfat answ :
  query ∉ [AL_DISKSPACE; AL_READFIL; AL_WRITEFIL; AL_LOCKFIL; AL_UNLOCKFIL;
           AL_FINDFIRST; AL_FINDNEXT; AL_MKDIR; AL_RMDIR; AL_CHDIR; AL_CLSFIL;
           AL_SETATTR; AL_GETATTR; AL_RENAME; AL_DELETE; AL_OPEN; AL_CREATE;
           AL_SPOPNFIL; AL_SKFMEND] →
  dispatch (H:=H) query reqdrv root reqbuff reqbufflen drivesfat answ
  = mret (answ, -1).
Proof.
  intros Hq. rewrite !not_elem_of_cons in Hq. destruct_and!.
  unfold dispatch.
  repeat match goal with
         | Hne : query ≠ ?c |- context [query =? ?c] =>
             rewrite (proj2 (Z.eqb_neq query c) Hne)
         end.
  done.
Qed.

(** A query whose payload has not the length its branch asks for. *)
Lemma dispatch_malformed query reqdrv root reqbuff reqbufflen drivesfat answ :
  query = AL_READFIL ∧ reqbufflen ≠ 8
  ∨ query = AL_WRITEFIL ∧ reqbufflen < 6
  ∨ query = AL_SETATTR ∧ reqbufflen ≤ 1
  ∨ query = AL_GETATTR ∧ reqbufflen ≤ 0
  ∨ query = AL_RENAME ∧ reqbufflen ≤ 2
  ∨ query = AL_SKFMEND ∧ reqbufflen ≠ 6 →
  dispatch (H:=H) query reqdrv root reqbuff reqbufflen drivesfat answ
  = mret (answ, -1).
Proof.
  intros Hq. unfold dispatch.
  destruct Hq as [[-> Hl] | [[-> Hl] | [[-> Hl] | [[-> Hl] | [[-> Hl] | [-> Hl]]]]]].
  - by rewrite (proj2 (Z.eqb_neq reqbufflen 8) Hl).
  - by rewrite (proj2 (Z.leb_gt 6 reqbufflen) Hl).
  - by rewrite (proj2 (Z.ltb_ge 1 reqbufflen) Hl).
  - by rewrite (proj2 (Z.ltb_ge 0 reqbufflen) Hl).
  - by rewrite (proj2 (Z.ltb_ge 2 reqbufflen) Hl).
  - by rewrite (proj2 (Z.eqb_neq reqbufflen 6) Hl).
Qed.

(** When the dispatcher has no branch for a request, or the drive is not a
    mapped one, [process] returns a negative value and the world is as it
    was. *)
Lemma process_no_branch answer reqbuff reqbufflen mymac rootarray drivesfat
    (w : world H) :
  60 ≤ reqbufflen →
  cache_hit answer reqbuff = false →
  (∀ reqdrv root answ,
     dispatch (H:=H) (rd reqbuff 59) reqdrv root reqbuff (reqbufflen - 60)
              drivesfat answ = mret (answ, -1)) →
  ∃ n e, process answer reqbuff reqbufflen mymac rootarray drivesfat w
         = Some ((n, e), w) ∧ n < 0.
Proof.
  intros Hl Hmiss Hd. unfold process.
  destruct (reqbufflen <? 60) eqn:E; [apply Z.ltb_lt in E; lia|]. rewrite Hmiss.
  destruct (_ || _); [eexists _, _; split; [reflexivity|lia]|].
  destruct (default None _) as [root|]; [|eexists _, _; split; [reflexivity|lia]].
  rewrite Hd. eexists _, _. split; [reflexivity|lia].
Qed.

Lemma process_bad_drive answer reqbuff reqbufflen mymac rootarray drivesfat
    (w : world H) :
  60 ≤ reqbufflen →
  cache_hit answer reqbuff = false →
  let reqdrv := Z.land (rd reqbuff 58) 31 in
  reqdrv < 2 ∨ 25 < reqdrv
  ∨ default None (rootarray !! Z.to_nat reqdrv) = None →
  ∃ e, process answer reqbuff reqbufflen mymac rootarray drivesfat w
       = Some ((-3, e), w).
Proof.
  intros Hl Hmiss reqdrv Hd. unfold process.
  destruct (reqbufflen <? 60) eqn:E; [apply Z.ltb_lt in E; lia|]. rewrite Hmiss.
  fold reqdrv.
  destruct ((reqdrv <? 2) || (25 <? reqdrv)) eqn:E1; [by eexists|].
  apply orb_false_iff in E1 as [E1 E2].
  apply Z.ltb_ge in E1, E2.
  destruct Hd as [? | [? | ->]]; [lia|lia|]. by eexists.
Qed.

(** What the main loop does with a negative result of [process]. *)
Lemma serve_negative mymac rootarray drivesfat (st : server H) buff rlen l ck
    n e w :
  accept mymac buff rlen = Some (l, ck) →
  let idx := findcacheentry (answcache st) (slice buff 6 6) in
  process (cache_get (answcache st) idx) buff l mymac rootarray drivesfat
          (srv_world st) = Some ((n, e), w) →
  n < 0 →
  ∃ entry,
    serve mymac rootarray drivesfat st buff rlen
      = Some (Server (<[Z.to_nat idx := entry]> (answcache st)) w, None)
    ∧ len entry = 0.
Proof.
  intros Ha idx Hp Hn. unfold serve. rewrite Ha. fold idx. rewrite Hp.
  destruct (0 <=? n) eqn:E1; [apply Z.leb_le in E1; lia|].
  destruct (0 <? n) eqn:E2; [apply Z.ltb_lt in E2; lia|].
  eexists. split; [reflexivity|done].
Qed.

(** X16: a received frame that passes the checks of the main loop, does not
    hit the reply cache and whose query byte is none of the nineteen the
    dispatcher tests for (COMMIT FILE, 07h, and the two values the
    enumeration calls unknown among them) is not answered: nothing is sent,
    the world stays as it is, and the length of the client's cache entry is
    set to 0. *)
Theorem unknown_query_ignored mymac rootarray drivesfat (st : server H)
    buff rlen l ck :
  accept mymac buff rlen = Some (l, ck) →
  rd buff 59 ∉ [AL_DISKSPACE; AL_READFIL; AL_WRITEFIL; AL_LOCKFIL; AL_UNLOCKFIL;
                AL_FINDFIRST; AL_FINDNEXT; AL_MKDIR; AL_RMDIR; AL_CHDIR;
                AL_CLSFIL; AL_SETATTR; AL_GETATTR; AL_RENAME; AL_DELETE;
                AL_OPEN; AL_CREATE; AL_SPOPNFIL; AL_SKFMEND] →
  let idx := findcacheentry (answcache st) (slice buff 6 6) in
  cache_hit (cache_get (answcache st) idx) buff = false →
  ∃ entry,
    serve mymac rootarray drivesfat st buff rlen
      = Some (Server (<[Z.to_nat idx := entry]> (answcache st)) (srv_world st),
              None)
    ∧ len entry = 0.
Proof.
  intros Ha Hq idx Hmiss. destruct (accept_spec _ _ _ _ _ Ha) as [Hl _].
  destruct (process_no_branch (cache_get (answcache st) idx) buff l mymac
              rootarray drivesfat (srv_world st) Hl Hmiss) as (n & e & Hp & Hn).
  { intros. by apply dispatch_unknown. }
  exact (serve_negative mymac rootarray drivesfat st buff rlen l ck n e _ Ha Hp Hn).
Qed.

(** X17: a received frame that passes the checks of the main loop, does not
    hit the reply cache and carries a request of a known kind whose payload
    has not the length its branch asks for is not answered either: READFIL
    with a payload other than 8 bytes, WRITEFIL with less than 6, SETATTR
    with less than 2, GETATTR without payload, RENAME with less than 3 and
    SKFMEND with a payload other than 6 bytes.  Nothing is sent, the world
    stays as it is, and the length of the client's cache entry is set to
    0. *)
Theorem malformed_query_ignored mymac rootarray drivesfat (st : server H)
    buff rlen l ck :
  accept mymac buff rlen = Some (l, ck) →
  rd buff 59 = AL_READFIL ∧ l - 60 ≠ 8
  ∨ rd buff 59 = AL_WRITEFIL ∧ l - 60 < 6
  ∨ rd buff 59 = AL_SETATTR ∧ l - 60 ≤ 1
  ∨ rd buff 59 = AL_GETATTR ∧ l - 60 ≤ 0
  ∨ rd buff 59 = AL_RENAME ∧ l - 60 ≤ 2
  ∨ rd buff 59 = AL_SKFMEND ∧ l - 60 ≠ 6 →
  let idx := findcacheentry (answcache st) (slice buff 6 6) in
  cache_hit (cache_get (answcache st) idx) buff = false →
  ∃ entry,
    serve mymac rootarray drivesfat st buff rlen
      = Some (Server (<[Z.to_nat idx := entry]> (answcache st)) (srv_world st),
              None)
    ∧ len entry = 0.
Proof.
  intros Ha Hq idx Hmiss. destruct (accept_spec _ _ _ _ _ Ha) as [Hl _].
  destruct (process_no_branch (cache_get (answcache st) idx) buff l mymac
              rootarray drivesfat (srv_world st) Hl Hmiss) as (n & e & Hp & Hn).
  { intros. by apply dispatch_malformed. }
  exact (serve_negative mymac rootarray drivesfat st buff rlen l ck n e _ Ha Hp Hn).
Qed.

(** X18: a received frame that passes the checks of the main loop, does not
    hit the reply cache and asks for a drive below C: or above Z:, or for a
    drive no root path was given for, is not answered, whatever its query:
    nothing is sent, the world stays as it is, and the length of the
    client's cache entry is set to 0. *)
Theorem unmapped_drive_ignored mymac rootarray drivesfat (st : server H)
    buff rlen l ck :
  accept mymac buff rlen = Some (l, ck) →
  let reqdrv := Z.land (rd buff 58) 31 in
  reqdrv < 2 ∨ 25 < reqdrv
  ∨ default None (rootarray !! Z.to_nat reqdrv) = None →
  let idx := findcacheentry (answcache st) (slice buff 6 6) in
  cache_hit (cache_get (answcache st) idx) buff = false →
  ∃ entry,
    serve mymac rootarray drivesfat st buff rlen
      = Some (Server (<[Z.to_nat idx := entry]> (answcache st)) (srv_world st),
              None)
    ∧ len entry = 0.
Proof.
  intros Ha reqdrv Hd idx Hmiss. destruct (accept_spec _ _ _ _ _ Ha) as [Hl _].
  destruct (process_bad_drive (cache_get (answcache st) idx) buff l mymac
              rootarray drivesfat (srv_world st) Hl Hmiss Hd) as (e & Hp).
  apply (serve_negative mymac rootarray drivesfat st buff rlen l ck (-3) e _ Ha Hp).
  lia.
Qed.

(** X19: for a request that reaches its branch of the dispatcher (a frame
    of at least 60 bytes for a mapped drive that does not hit the reply
    cache), LOCKFIL, UNLOCKFIL and CLSFIL are answered with a bare 60-byte
    reply whose AX is 0, whatever the payload says and whatever the state of
    the host and of the handle table, neither of which is looked at or
    changed. *)
Theorem lock_close_acknowledged answer reqbuff reqbufflen mymac rootarray
    drivesfat root (w : world H) :
  (60 ≤ length (frame answer))%nat →
  60 ≤ reqbufflen →
  cache_hit answer reqbuff = false →
  2 ≤ Z.land (rd reqbuff 58) 31 ≤ 25 →
  rootarray !! Z.to_nat (Z.land (rd reqbuff 58) 31) = Some (Some root) →
  rd reqbuff 59 ∈ [AL_LOCKFIL; AL_UNLOCKFIL; AL_CLSFIL] →
  ∃ answ,
    process answer reqbuff reqbufflen mymac rootarray drivesfat w
      = Some ((60, with_frame answer answ), w)
    ∧ ax_of answ = 0.
Proof.
  intros Hfr Hlen Hmiss Hdrv Hroot Hq.
  rewrite (process_miss _ _ _ _ _ _ root) by done.
  set (hdr := set_ax 0 (reply_header (frame answer) reqbuff mymac)).
  assert (ax_of hdr = 0) as Hax.
  { subst hdr. apply ax_of_set_ax; rewrite ?length_reply_header; lia. }
  assert (length hdr = length (frame answer)) as Hl
    by (subst hdr; by rewrite length_set_ax, length_reply_header).
  rewrite !elem_of_cons in Hq.
  destruct Hq as [-> | [-> | [-> | Hq]]]; [| | |by apply elem_of_nil in Hq];
    unfold dispatch; simpl.
  - by exists hdr.
  - by exists hdr.
  - eexists. split; [reflexivity|]. apply ax_of_set_ax; lia.
Qed.

(** X20: a RENAME whose source path [shorttolong] cannot resolve is answered
    with AX=0, as a success, although nothing was renamed: the world is as it
    was. *)
Theorem rename_unresolved_acknowledged answer reqbuff reqbufflen mymac
    rootarray drivesfat root (w : world H) res dst :
  (60 ≤ length (frame answer))%nat →
  cache_hit answer reqbuff = false →
  2 ≤ Z.land (rd reqbuff 58) 31 ≤ 25 →
  rootarray !! Z.to_nat (Z.land (rd reqbuff 58) 31) = Some (Some root) →
  rd reqbuff 59 = AL_RENAME →
  62 < reqbufflen →
  rd reqbuff 60 < reqbufflen - 60 →
  shorttolong (dospath root (slice reqbuff 61 (rd reqbuff 60))) root w
    = Some ((res, dst), w) →
  res ≠ 0 →
  ∃ answ,
    process answer reqbuff reqbufflen mymac rootarray drivesfat w
      = Some ((60, with_frame answer answ), w)
    ∧ ax_of answ = 0.
Proof.
  intros Hfr Hmiss Hdrv Hroot Hq Hlen Hfn1 Hres Hne.
  rewrite (process_miss _ _ _ _ _ _ root) by (done || lia).
  rewrite Hq. unfold dispatch. simpl.
  destruct (2 <? reqbufflen - 60) eqn:E; [|apply Z.ltb_ge in E; lia].
  unfold q_rename.
  destruct (rd reqbuff 60 <? reqbufflen - 60) eqn:E1; [|apply Z.ltb_ge in E1; lia].
  rewrite bind_eq, Hres.
  destruct (res =? 0) eqn:E2; [apply Z.eqb_eq in E2; done|]. simpl.
  eexists. split; [reflexivity|].
  apply ax_of_set_ax; rewrite ?length_reply_header; lia.
Qed.

(** X21: for a mapped drive and without a hit of the reply cache, a
    FINDFIRST request that carries no search path (a frame of 60 or 61
    bytes) and an OPEN, CREATE or SPOPNFIL request that carries no file name
    (a frame of 60 to 66 bytes) make the dispatcher call [memcpy] with a
    negative length: the process ends. *)
Theorem empty_path_ends_process answer reqbuff reqbufflen mymac rootarray
    drivesfat root (w : world H) :
  cache_hit answer reqbuff = false →
  2 ≤ Z.land (rd reqbuff 58) 31 ≤ 25 →
  rootarray !! Z.to_nat (Z.land (rd reqbuff 58) 31) = Some (Some root) →
  rd reqbuff 59 = AL_FINDFIRST ∧ 60 ≤ reqbufflen ≤ 61
  ∨ rd reqbuff 59 ∈ [AL_OPEN; AL_CREATE; AL_SPOPNFIL] ∧ 60 ≤ reqbufflen ≤ 66 →
  process answer reqbuff reqbufflen mymac rootarray drivesfat w = None.
Proof.
  intros Hmiss Hdrv Hroot Hq.
  rewrite (process_miss _ _ _ _ _ _ root) by (done || lia).
  destruct Hq as [[-> Hl] | [Hq Hl]].
  - unfold dispatch. simpl. unfold q_findfirst.
    by rewrite explodepath_none by lia.
  - assert (dispatch (rd reqbuff 59) (Z.land (rd reqbuff 58) 31) root reqbuff
              (reqbufflen - 60) drivesfat
              (set_ax 0 (reply_header (frame answer) reqbuff mymac))
            = q_open (rd reqbuff 59) (Z.land (rd reqbuff 58) 31) root reqbuff
                (reqbufflen - 60) drivesfat
                (set_ax 0 (reply_header (frame answer) reqbuff mymac))) as ->.
    { rewrite !elem_of_cons in Hq.
      destruct Hq as [-> | [-> | [-> | Hq]]]; [done|done|done|].
      by apply elem_of_nil in Hq. }
    unfold q_open.
    destruct (reqbufflen - 60 - 6 <? 0); [done|].
    by rewrite explodepath_none by lia.
Qed.

(** X22: FINDNEXT with a position other than 0 on a directory id whose slot
    holds a listing is answered from that listing alone: the answer is the
    same whatever the host is, the host is not changed, and neither is the
    handle table.  A change of the directory after the listing was made is
    not seen. *)
Theorem findnext_from_listing answer reqbuff reqbufflen mymac rootarray
    drivesfat root db dir :
  60 ≤ reqbufflen →
  cache_hit answer reqbuff = false →
  2 ≤ Z.land (rd reqbuff 58) 31 ≤ 25 →
  rootarray !! Z.to_nat (Z.land (rd reqbuff 58) 31) = Some (Some root) →
  rd reqbuff 59 = AL_FINDNEXT →
  name (fsdb_get db (rd16 reqbuff 60)) = Some dir →
  dirlist (fsdb_get db (rd16 reqbuff 60)) ≠ [] →
  rd16 reqbuff 62 ≠ 0 →
  ∃ n e, ∀ h : H,
    process answer reqbuff reqbufflen mymac rootarray drivesfat (World h db)
      = Some ((n, e), World h db).
Proof.
  intros Hlen Hmiss Hdrv Hroot Hq Hname Hlist Hpos.
  set (hdr := set_ax 0 (reply_header (frame answer) reqbuff mymac)).
  set (flags := find_flags (isroot root dir)
                           (rd drivesfat (Z.land (rd reqbuff 58) 31))).
  destruct (findfile_loop (dirlist (fsdb_get db (rd16 reqbuff 60))) 0
              (rd16 reqbuff 62) (slice reqbuff 65 11) (rd reqbuff 64) flags)
    as [[n e]|] eqn:Ef.
  - exists (24 + 60), (with_frame answer
                         (found_file hdr e (rd16 reqbuff 60) (u16 n))).
    intros h. rewrite (process_miss _ _ _ _ _ _ root) by done.
    rewrite Hq. unfold dispatch. simpl. unfold q_findnext, sstoitem.
    mstep. rewrite Hname. mstep. fold flags. fold hdr.
    unfold findfile. mstep.
    destruct (rd16 reqbuff 62 =? 0) eqn:E; [apply Z.eqb_eq in E; done|].
    rewrite bool_decide_eq_false_2 by done. cbn [orb]. mstep.
    change (0 <? 0) with false. cbv iota. mstep. rewrite Ef. by mstep.
  - exists 60, (with_frame answer (set_ax 18 hdr)).
    intros h. rewrite (process_miss _ _ _ _ _ _ root) by done.
    rewrite Hq. unfold dispatch. simpl. unfold q_findnext, sstoitem.
    mstep. rewrite Hname. mstep. fold flags. fold hdr.
    unfold findfile. mstep.
    destruct (rd16 reqbuff 62 =? 0) eqn:E; [apply Z.eqb_eq in E; done|].
    rewrite bool_decide_eq_false_2 by done. cbn [orb]. mstep.
    change (0 <? 0) with false. cbv iota. mstep. rewrite Ef. by mstep.
Qed.

(** X23: READFIL on a valid file id is answered with AX=0 and, behind the
    60-byte header, the bytes [fread] returned, as many as it returned: the
    reply is 60 bytes longer than the data.  The data have to fit the frame
    buffer of the cache entry for this. *)
Theorem readfil_reply answer reqbuff mymac rootarray drivesfat root
    (w : world H) fname data :
  cache_hit answer reqbuff = false →
  2 ≤ Z.land (rd reqbuff 58) 31 ≤ 25 →
  rootarray !! Z.to_nat (Z.land (rd reqbuff 58) 31) = Some (Some root) →
  rd reqbuff 59 = AL_READFIL →
  name (fsdb_get (w_fsdb w) (rd16 reqbuff 64)) = Some fname →
  sys_fread (w_host w) fname (rd32 reqbuff 60) (rd16 reqbuff 66) = Some data →
  (60 + length data ≤ length (frame answer))%nat →
  ∃ answ,
    process answer reqbuff 68 mymac rootarray drivesfat w
      = Some ((60 + Z.of_nat (length data), with_frame answer answ), w)
    ∧ ax_of answ = 0
    ∧ slice answ 60 (Z.of_nat (length data)) = data.
Proof.
  intros Hmiss Hdrv Hroot Hq Hname Hread Hfit.
  rewrite (process_miss _ _ _ _ _ _ root) by (done || lia).
  rewrite Hq. unfold dispatch. simpl. unfold q_readfil, readfile.
  rewrite !bind_eq. simpl. rewrite Hname. rewrite bind_eq. simpl.
  rewrite Hread. simpl.
  destruct (Z.of_nat (length data) <? 0) eqn:E; [apply Z.ltb_lt in E; lia|].
  set (hdr := set_ax 0 (reply_header (frame answer) reqbuff mymac)).
  assert (length hdr = length (frame answer)) as Hl
    by (subst hdr; by rewrite length_set_ax, length_reply_header).
  exists (store 60 data hdr). split; [do 3 f_equal; lia|]. split.
  - rewrite ax_of_store by lia. subst hdr.
    apply ax_of_set_ax; rewrite ?length_reply_header; lia.
  - apply slice_store_same; lia.
Qed.

(** X24: WRITEFIL with data bytes on a valid file id hands the bytes behind
    the six-byte head of the payload to [fwrite] at the offset of the
    request.  When the file cannot be opened or positioned the answer is
    AX=5; otherwise it is AX=0 with the number of bytes written, and the
    host is in both cases the one the write leaves. *)
Theorem writefil_reply answer reqbuff reqbufflen mymac rootarray drivesfat root
    (w : world H) fname :
  (62 ≤ length (frame answer))%nat →
  cache_hit answer reqbuff = false →
  2 ≤ Z.land (rd reqbuff 58) 31 ≤ 25 →
  rootarray !! Z.to_nat (Z.land (rd reqbuff 58) 31) = Some (Some root) →
  rd reqbuff 59 = AL_WRITEFIL →
  66 < reqbufflen < 65536 →
  name (fsdb_get (w_fsdb w) (rd16 reqbuff 64)) = Some fname →
  let data := slice reqbuff 66 (reqbufflen - 66) in
  let written := sys_fwrite fname (rd32 reqbuff 60) data (w_host w) in
  (∀ n, fst written = Some n → 0 ≤ n < 65536) →
  ∃ answ,
    process answer reqbuff reqbufflen mymac rootarray drivesfat w
      = Some ((if fst written is Some _ then 62 else 60, with_frame answer answ),
              World (snd written) (w_fsdb w))
    ∧ match fst written with
      | Some n => ax_of answ = 0 ∧ rd16 answ 60 = n
      | None => ax_of answ = 5
      end.
Proof.
  intros Hfr Hmiss Hdrv Hroot Hq Hlen Hname data written Hn.
  rewrite (process_miss _ _ _ _ _ _ root) by (done || lia).
  rewrite Hq. unfold dispatch. simpl.
  destruct (6 <=? reqbufflen - 60) eqn:E; [|apply Z.leb_gt in E; lia].
  unfold q_writefil, writefile. rewrite !bind_eq. simpl. rewrite Hname.
  replace (reqbufflen - 60 - 6) with (reqbufflen - 66) by lia.
  assert (u16 (reqbufflen - 66) = reqbufflen - 66) as ->
    by (unfold u16; apply Z.mod_small; lia).
  destruct (reqbufflen - 66 =? 0) eqn:E0; [apply Z.eqb_eq in E0; lia|].
  rewrite !bind_eq. unfold sys. fold data.
  subst written. revert Hn.
  destruct (sys_fwrite fname (rd32 reqbuff 60) data (w_host w)) as [res h'].
  simpl. intros Hn.
  set (hdr := set_ax 0 (reply_header (frame answer) reqbuff mymac)).
  assert (length hdr = length (frame answer)) as Hl
    by (subst hdr; by rewrite length_set_ax, length_reply_header).
  destruct res as [n|]; simpl.
  - specialize (Hn n eq_refl).
    destruct (n <? 0) eqn:E1; [apply Z.ltb_lt in E1; lia|].
    eexists. split; [reflexivity|]. split.
    + rewrite ax_of_store by lia. subst hdr.
      apply ax_of_set_ax; rewrite ?length_reply_header; lia.
    + apply bytes16_rd16; lia.
  - eexists. split; [reflexivity|].
    apply ax_of_set_ax; rewrite ?length_set_ax, ?length_reply_header; lia.
Qed.

(** X25: GETATTR on a drive that is not FAT, for a path [shorttolong]
    resolves to [dir/fn], is answered with nine bytes: the DOS timestamp and
    the size, each cut to its low 32 bits, and the attribute byte, which is 16
    for a directory and 0 for a file.  When [stat] does not find the
    resolved path the answer is AX=2. *)
Theorem getattr_reply answer reqbuff reqbufflen mymac rootarray drivesfat root
    (w : world H) dir fn :
  (69 ≤ length (frame answer))%nat →
  cache_hit answer reqbuff = false →
  2 ≤ Z.land (rd reqbuff 58) 31 ≤ 25 →
  rootarray !! Z.to_nat (Z.land (rd reqbuff 58) 31) = Some (Some root) →
  rd reqbuff 59 = AL_GETATTR →
  60 < reqbufflen →
  rd drivesfat (Z.land (rd reqbuff 58) 31) = 0 →
  shorttolong (dospath root (slice reqbuff 60 (reqbufflen - 60))) root w
    = Some ((0, dir ++ [SLASH] ++ fn), w) →
  fn ≠ [] → NUL ∉ fn → SLASH ∉ fn → BACKSLASH ∉ fn →
  ∃ answ,
    match sys_stat (w_host w) (dir ++ [SLASH] ++ fn) with
    | None =>
        process answer reqbuff reqbufflen mymac rootarray drivesfat w
          = Some ((60, with_frame answer answ), w)
        ∧ ax_of answ = 2
    | Some st =>
        process answer reqbuff reqbufflen mymac rootarray drivesfat w
          = Some ((69, with_frame answer answ), w)
        ∧ ax_of answ = 0
        ∧ rd32 answ 60 = time2dos (w_host w) (st_mtime st) mod 4294967296
        ∧ rd32 answ 64
          = (if st_isdir st then 0 else st_size st mod 4294967296)
        ∧ rd answ 68 = (if st_isdir st then 16 else 0)
    end.
Proof.
  intros Hfr Hmiss Hdrv Hroot Hq Hlen Hfat Hres Hne Hnul Hs Hb.
  rewrite (process_miss _ _ _ _ _ _ root) by (done || lia).
  rewrite Hq. unfold dispatch. simpl.
  destruct (0 <? reqbufflen - 60) eqn:E; [|apply Z.ltb_ge in E; lia].
  unfold q_getattr. rewrite bind_eq, Hres. simpl.
  rewrite bind_eq. unfold get_host. cbv beta iota. rewrite Hfat.
  change (dir ++ SLASH :: fn) with (dir ++ [SLASH] ++ fn).
  set (hdr := set_ax 0 (reply_header (frame answer) reqbuff mymac)).
  assert (length hdr = length (frame answer)) as Hl
    by (subst hdr; by rewrite length_set_ax, length_reply_header).
  assert (ax_of hdr = 0) as Hax.
  { subst hdr. apply ax_of_set_ax; rewrite ?length_reply_header; lia. }
  destruct (sys_stat (w_host w) (dir ++ [SLASH] ++ fn)) as [st|] eqn:Hst.
  2:{ unfold getitemattr. rewrite Hst. simpl. eexists.
      split; [reflexivity|]. apply ax_of_set_ax; lia. }
  rewrite (getitemattr_found _ _ _ _ st) by done.
  assert (0 ≤ time2dos (w_host w) (st_mtime st)) as Ht.
  { unfold time2dos. destruct (sys_localtime _ _); [|done].
    apply Z.lor_nonneg. split; [|apply Z.mod_pos_bound; lia].
    unfold u64. apply Z.mod_pos_bound. lia. }
  set (T := time2dos (w_host w) (st_mtime st)) in *. clearbody T.
  assert (∀ sz a, 0 ≤ sz →
    let answ := store 60 (bytes32 T ++ bytes32 sz ++ [a]) hdr in
    ax_of answ = 0 ∧ rd32 answ 60 = T mod 4294967296
    ∧ rd32 answ 64 = sz mod 4294967296 ∧ rd answ 68 = a) as Hlayout.
  { intros sz a Hsz answ. subst answ. split; [by rewrite ax_of_store by lia|].
    unfold rd32. rewrite !rd_store_in by (simpl; lia).
    replace (60 - 60) with 0 by lia. replace (60 + 1 - 60) with 1 by lia.
    replace (60 + 2 - 60) with 2 by lia. replace (60 + 3 - 60) with 3 by lia.
    replace (64 - 60) with 4 by lia. replace (64 + 1 - 60) with 5 by lia.
    replace (64 + 2 - 60) with 6 by lia. replace (64 + 3 - 60) with 7 by lia.
    replace (68 - 60) with 8 by lia.
    split; [apply (le32_bytes T Ht)|]. split; [apply (le32_bytes sz Hsz)|done]. }
  destruct (st_isdir st); simpl.
  - eexists. split; [reflexivity|].
    destruct (Hlayout 0 16 ltac:(lia)) as (A1 & A2 & A3 & A4).
    cbv zeta in A1, A2, A3, A4. done.
  - eexists. split; [reflexivity|].
    assert (0 ≤ u64 (st_size st)) as Hsz by (unfold u64; apply Z.mod_pos_bound; lia).
    destruct (Hlayout (u64 (st_size st)) 0 Hsz) as (A1 & A2 & A3 & A4).
    cbv zeta in A1, A2, A3, A4.
    split; [exact A1|]. split; [exact A2|]. split; [|exact A4].
    etrans; [exact A3|]. unfold u64.
    change (2 ^ 64) with (4294967296 * 4294967296).
    rewrite Z.mod_mod_divide; [done|]. by exists 4294967296.
Qed.

End Dispatch.

(** ** The frames the main loop sends *)

Lemma rd_slice (buf : list byte) off n i :
  0 ≤ off → 0 ≤ i < n → rd (slice buf off n) i = rd buf (off + i).
Proof.
  intros Ho Hi. unfold rd, slice. rewrite lookup_take_lt by lia.
  rewrite lookup_drop. do 2 f_equal. lia.
Qed.

Lemma slice_eq_of_rd (a b : list byte) oa ob n :
  0 ≤ oa → 0 ≤ ob → 0 ≤ n →
  oa + n ≤ Z.of_nat (length a) → ob + n ≤ Z.of_nat (length b) →
  (∀ i, 0 ≤ i < n → rd a (oa + i) = rd b (ob + i)) →
  slice a oa n = slice b ob n.
Proof.
  intros Hoa Hob Hn Ha Hb Hall. apply list_eq. intros i.
  destruct (decide (i < Z.to_nat n)%nat) as [Hi|Hi].
  - assert (length (slice a oa n) = Z.to_nat n) by (apply length_slice; lia).
    assert (length (slice b ob n) = Z.to_nat n) by (apply length_slice; lia).
    rewrite (lookup_rd (slice a oa n) i), (lookup_rd (slice b ob n) i) by lia.
    rewrite !rd_slice by lia. f_equal. apply Hall. lia.
  - unfold slice. by rewrite !lookup_take_ge by lia.
Qed.

Lemma reply_header_rd answ reqbuff mymac :
  (60 ≤ length answ)%nat → (60 ≤ length reqbuff)%nat → (6 ≤ length mymac)%nat →
  let hdr := reply_header answ reqbuff mymac in
  (∀ i, 0 ≤ i < 6 → rd hdr i = rd reqbuff (6 + i))
  ∧ (∀ i, 6 ≤ i < 12 → rd hdr i = rd mymac (i - 6))
  ∧ (∀ i, 12 ≤ i < 60 → rd hdr i = rd reqbuff i).
Proof.
  intros Ha Hr Hm hdr. subst hdr. unfold reply_header.
  set (a1 := store 0 (slice reqbuff 0 60) answ).
  assert (length (slice reqbuff 0 60) = 60%nat) as Hs60
    by (rewrite length_slice by lia; done).
  assert (length a1 = length answ) as Hla1 by apply length_store.
  assert (∀ i, 0 ≤ i < 60 → rd a1 i = rd reqbuff i) as Ha1.
  { intros i Hi. subst a1. rewrite rd_store_in by lia.
    rewrite rd_slice by lia. f_equal; lia. }
  assert (length (slice a1 6 6) = 6%nat) as Hs6
    by (rewrite length_slice by lia; done).
  assert (length (slice mymac 0 6) = 6%nat) as Hsm
    by (rewrite length_slice by lia; done).
  split; [|split]; intros i Hi.
  - rewrite rd_store_lt by lia. rewrite rd_store_in by (rewrite ?Hs6; lia).
    rewrite rd_slice by lia. replace (i - 0) with i by lia. apply Ha1. lia.
  - rewrite rd_store_in by (rewrite ?length_store, ?Hsm; lia).
    rewrite rd_slice by lia. f_equal; lia.
  - rewrite rd_store_ge by (rewrite ?Hsm; lia).
    rewrite rd_store_ge by (rewrite ?Hs6; lia). apply Ha1. lia.
Qed.

Lemma keeps_header_rd answ answ' i :
  keeps_header answ answ' → 0 ≤ i < 58 → rd answ' i = rd answ i.
Proof.
  intros [Ht _] Hi. by rewrite <- (rd_take 58 answ'), Ht, rd_take by lia.
Qed.

Lemma bsdsum_range data : 0 ≤ bsdsum data < 65536.
Proof.
  unfold bsdsum.
  assert (∀ acc, 0 ≤ acc < 65536 →
    0 ≤ fold_left (λ res b,
          u16 (u16 (Z.lor (Z.shiftl res 15) (Z.shiftr res 1)) + b)) data acc
      < 65536) as Hgen.
  { induction data as [|b rest IH]; intros acc Hacc; simpl; [done|].
    apply IH. unfold u16 at 1. apply Z.mod_pos_bound. lia. }
  apply Hgen. lia.
Qed.

Lemma le16_split x :
  0 ≤ x < 65536 → le16 (Z.land x 255) (Z.land (Z.shiftr x 8) 255) = x.
Proof.
  intros Hx. unfold le16. change 255 with (Z.ones 8).
  rewrite (Z.land_ones x 8), (Z.land_ones (Z.shiftr x 8) 8) by lia.
  rewrite Z.shiftr_div_pow2 by lia. change (2 ^ 8) with 256.
  assert (0 ≤ x / 256 < 256)
    by (split; [apply Z.div_pos; lia|apply Z.div_lt_upper_bound; lia]).
  rewrite (Z.mod_small (x / 256)) by lia.
  pose proof (Z.div_mod x 256 ltac:(lia)). lia.
Qed.

Lemma land_127_unflagged x :
  0 ≤ x < 256 → Z.shiftr x 7 = 0 → Z.land x 127 = x.
Proof.
  intros Hx Hs. rewrite Z.shiftr_div_pow2 in Hs by lia.
  change (2 ^ 7) with 128 in Hs.
  change 127 with (Z.ones 7).
  rewrite (Z.land_ones x 7) by lia. change (2 ^ 7) with 128.
  apply Z.mod_small. split; [lia|].
  destruct (decide (x < 128)); [done|].
  assert (1 ≤ x / 128) by (apply Z.div_le_lower_bound; lia). lia.
Qed.

(** The outgoing frame: the length field, the checksum field and the flag
    byte are rewritten, every other byte stays. *)
Lemma outgoing_spec fr n ck :
  (57 ≤ length fr)%nat → 0 ≤ n < 65536 → 0 ≤ rd fr 56 < 256 →
  ck = Z.shiftr (rd fr 56) 7 →
  let f1 := outgoing fr n ck in
  rd16 f1 52 = n
  ∧ rd f1 56 = rd fr 56
  ∧ (∀ i, 0 ≤ i → i < 52 ∨ 56 < i → rd f1 i = rd fr i)
  ∧ (ck ≠ 0 → bsdsum (slice f1 56 (u16 (n - 56))) = rd16 f1 54).
Proof.
  intros Hl Hn H56 Hck f1. subst f1. unfold outgoing.
  set (f2 := <[53%nat := Z.land (Z.shiftr n 8) 255]> (<[52%nat := Z.land n 255]> fr)).
  assert (length f2 = length fr) as Hl2 by (subst f2; by rewrite !length_insert).
  assert (rd16 f2 52 = n) as H52.
  { unfold rd16. subst f2. rewrite rd_insert_ne by lia.
    rewrite (rd_insert_eq 52) by lia.
    change (52 + 1) with (Z.of_nat 53). rewrite rd_insert_eq by (rewrite length_insert; lia).
    by apply le16_split. }
  assert (∀ i, 0 ≤ i → i < 52 ∨ 53 < i → rd f2 i = rd fr i) as Hf2.
  { intros i Hi Hr. subst f2. by rewrite !rd_insert_ne by lia. }
  destruct (negb (ck =? 0)) eqn:Eck.
  - assert (ck ≠ 0) as Hne by (by apply negb_true_iff, Z.eqb_neq in Eck).
    set (c := bsdsum (slice f2 56 (u16 (n - 56)))).
    pose proof (bsdsum_range (slice f2 56 (u16 (n - 56)))) as Hc. fold c in Hc.
    set (f4 := <[55%nat := Z.land (Z.shiftr c 8) 255]> (<[54%nat := Z.land c 255]> f2)).
    assert (length f4 = length fr) as Hl4 by (subst f4; by rewrite !length_insert).
    assert (rd f4 56 = rd fr 56) as E56.
    { subst f4. rewrite !rd_insert_ne by lia. apply Hf2; lia. }
    assert (<[56%nat := Z.lor (rd f4 56) 128]> f4 = f4) as ->.
    { rewrite E56, lor_128_flagged by (done || by rewrite <- Hck).
      apply list_insert_id. rewrite (lookup_rd f4 56) by lia. by rewrite <- E56. }
    split; [|split; [done|split]].
    + unfold rd16 in *. subst f4. by rewrite !rd_insert_ne by lia.
    + intros i Hi Hr. subst f4. rewrite !rd_insert_ne by lia. apply Hf2; lia.
    + intros _. subst f4. rewrite !slice_insert_lt by lia. fold c.
      unfold rd16. rewrite rd_insert_ne by lia.
      rewrite (rd_insert_eq 54) by lia.
      change (54 + 1) with (Z.of_nat 55).
      rewrite rd_insert_eq by (rewrite length_insert; lia).
      symmetry. by apply le16_split.
  - assert (ck = 0) as Hz by (by apply negb_false_iff, Z.eqb_eq in Eck).
    set (f4 := <[55%nat := 0]> (<[54%nat := 0]> f2)).
    assert (length f4 = length fr) as Hl4 by (subst f4; by rewrite !length_insert).
    assert (rd f4 56 = rd fr 56) as E56.
    { subst f4. rewrite !rd_insert_ne by lia. apply Hf2; lia. }
    rewrite E56, land_127_unflagged by (done || congruence).
    split; [|split; [|split]].
    + unfold rd16 in *. subst f4. by rewrite !rd_insert_ne by lia.
    + apply (rd_insert_eq 56). lia.
    + intros i Hi Hr. rewrite rd_insert_ne by lia.
      subst f4. rewrite !rd_insert_ne by lia. apply Hf2; lia.
    + done.
Qed.

(** The conditions under which the main loop goes on with a frame. *)
Lemma accept_intro mymac buff n :
  60 ≤ n < 65536 →
  slice buff 0 6 = slice mymac 0 6 →
  rd buff 12 = 237 → rd buff 13 = 245 →
  Z.land (rd buff 56) 127 = PROTOVER →
  rd16 buff 52 = n →
  (Z.shiftr (rd buff 56) 7 ≠ 0 →
   bsdsum (slice buff 56 (u16 (n - 56))) = rd16 buff 54) →
  accept mymac buff n = Some (n, Z.shiftr (rd buff 56) 7).
Proof.
  intros Hn Hmac H12 H13 Hver Hlen Hsum. unfold accept.
  destruct (n <? 60) eqn:E; [apply Z.ltb_lt in E; lia|].
  rewrite (bool_decide_eq_true_2 _ Hmac). cbn [negb andb].
  rewrite H12, H13, Hver, Hlen. cbn [Z.eqb Pos.eqb negb andb].
  destruct (0 <? n) eqn:E1; [|apply Z.ltb_ge in E1; lia].
  rewrite Z.ltb_irrefl, E. cbn [orb andb].
  destruct (negb (Z.shiftr (rd buff 56) 7 =? 0)) eqn:E2;
    [|by rewrite ?Z.eqb_refl].
  apply negb_true_iff, Z.eqb_neq in E2.
  rewrite (Hsum E2), !Z.eqb_refl. done.
Qed.

Lemma accept_inv mymac buff rlen l ck :
  accept mymac buff rlen = Some (l, ck) →
  60 ≤ l ∧ ck = Z.shiftr (rd buff 56) 7
  ∧ rd buff 12 = 237 ∧ rd buff 13 = 245
  ∧ Z.land (rd buff 56) 127 = PROTOVER.
Proof.
  intros Ha. destruct (accept_spec _ _ _ _ _ Ha) as [Hl Hck].
  split; [done|]. split; [done|].
  unfold accept in Ha.
  destruct (rlen <? 60); [done|].
  destruct (negb _ && negb _) in Ha; [done|].
  destruct (negb ((rd buff 12 =? 237) && (rd buff 13 =? 245))) eqn:E1; [done|].
  destruct (negb (Z.land (rd buff 56) 127 =? PROTOVER)) eqn:E2; [done|].
  apply negb_false_iff, andb_true_iff in E1 as [E12 E13].
  apply negb_false_iff in E2.
  apply Z.eqb_eq in E12, E13, E2. done.
Qed.

Section ReplyLength.
Context {H : Type} `{!HostOps H}.

Lemma reply_length_ret answ (n : Z) :
  n = -1 ∨ 60 ≤ n → reply_length_ok (H:=H) (mret (answ, n)).
Proof. intros Hn w answ' res w' [= _ <- _]. done. Qed.

Lemma reply_length_bind {A} (m : M H A) f :
  (∀ a, reply_length_ok (f a)) → reply_length_ok (m ≫= f).
Proof.
  intros Hf w answ' res w'. rewrite bind_eq.
  destruct (m w) as [[a w1]|]; [|done]. apply Hf.
Qed.

Lemma reply_length_crash : reply_length_ok (H:=H) crash.
Proof. intros w answ' res w'. done. Qed.

Ltac reply_length_step :=
  first
    [ apply reply_length_crash
    | apply reply_length_ret;
        first [left; reflexivity
              |right;
               repeat match goal with
                      | E : (_ <? _) = false |- _ => apply Z.ltb_ge in E
                      end; lia]
    | apply reply_length_bind; intros ?; cbv beta
    | match goal with
      | |- reply_length_ok (if ?c then _ else _) => destruct c eqn:?
      | |- reply_length_ok (match ?x with _ => _ end) => destruct x
      end ].

Ltac reply_length_go := repeat reply_length_step.

Lemma dispatch_reply_length query reqdrv root reqbuff reqbufflen drivesfat answ :
  reply_length_ok
    (dispatch (H:=H) query reqdrv root reqbuff reqbufflen drivesfat answ).
Proof.
  unfold dispatch.
  repeat match goal with
         | |- reply_length_ok (if ?c then _ else _) => destruct c
         end.
  - unfold q_diskspace. reply_length_go.
  - unfold q_readfil, readfile. reply_length_go.
  - unfold q_writefil. reply_length_go.
  - reply_length_go.
  - unfold q_findfirst. reply_length_go.
  - unfold q_findnext. reply_length_go.
  - unfold q_mkdir_rmdir. reply_length_go.
  - unfold q_chdir. reply_length_go.
  - reply_length_go.
  - unfold q_setattr. reply_length_go.
  - unfold q_getattr. reply_length_go.
  - unfold q_rename. reply_length_go.
  - unfold q_delete. reply_length_go.
  - unfold q_open. reply_length_go.
  - unfold q_skfmend. reply_length_go.
  - reply_length_go.
Qed.

(** A request that misses the cache gives a negative result or the length
    of a frame that holds the whole header. *)
Lemma process_reply_length answer reqbuff l mymac rootarray drivesfat
    (w w1 : world H) n e1 :
  process answer reqbuff l mymac rootarray drivesfat w = Some ((n, e1), w1) →
  60 ≤ l →
  cache_hit answer reqbuff = false →
  n < 0 ∨ 60 ≤ n.
Proof.
  intros Hp Hl Hmiss. unfold process in Hp.
  destruct (l <? 60) eqn:E; [apply Z.ltb_lt in E; lia|].
  rewrite Hmiss in Hp.
  destruct (_ || _); [injection Hp as <- _ _; lia|].
  destruct (default None _) as [root|]; [|injection Hp as <- _ _; lia].
  rewrite bind_eq in Hp.
  destruct (dispatch _ _ _ _ _ _ _ w) as [[[answ res] w']|] eqn:Ed; [|done].
  injection Hp as <- _ _.
  destruct (dispatch_reply_length _ _ _ _ _ _ _ _ _ _ _ Ed); lia.
Qed.

(** What the main loop sends for a request that went through the dispatcher
    and got a positive result. *)
Lemma serve_miss_reply mymac rootarray drivesfat (st : server H) buff rlen l ck
    n e1 w1 :
  let idx := findcacheentry (answcache st) (slice buff 6 6) in
  let answer := cache_get (answcache st) idx in
  accept mymac buff rlen = Some (l, ck) →
  cache_hit answer buff = false →
  process answer buff l mymac rootarray drivesfat (srv_world st)
    = Some ((n, e1), w1) →
  0 < n →
  60 ≤ n
  ∧ keeps_header (reply_header (frame answer) buff mymac) (frame e1)
  ∧ ∃ st',
      serve mymac rootarray drivesfat st buff rlen
        = Some (st', Some (slice (outgoing (frame e1) n ck) 0 n)).
Proof.
  intros idx answer Ha Hmiss Hp Hn.
  destruct (accept_spec _ _ _ _ _ Ha) as [Hl _].
  destruct (process_frame _ _ _ _ _ _ _ _ _ _ Hp Hl Hmiss) as (_ & _ & Hkeep).
  destruct (process_reply_length _ _ _ _ _ _ _ _ _ _ Hp Hl Hmiss) as [?|H60]; [lia|].
  split; [done|]. split; [done|].
  unfold serve. rewrite Ha. fold idx. fold answer. rewrite Hp.
  destruct (0 <=? n) eqn:E1; [|apply Z.leb_gt in E1; lia].
  destruct (0 <? n) eqn:E2; [|apply Z.ltb_ge in E2; lia].
  eexists. reflexivity.
Qed.

(** X26: a reply to a request that went through the dispatcher is itself a
    frame the checks of the main loop accept when they are run for the
    client's address: it is addressed to the client, carries the ethertype
    and the protocol version of the request, its length field holds its
    length, its checksum flag is the one of the request and, when the flag is
    set, its checksum field holds the BSD checksum of its bytes from 56 on.
    The reply has to fit the frame buffer of the cache entry for this. *)
Theorem reply_passes_own_checks mymac rootarray drivesfat (st : server H)
    buff rlen l ck n e1 w1 :
  let idx := findcacheentry (answcache st) (slice buff 6 6) in
  let answer := cache_get (answcache st) idx in
  (60 ≤ length buff)%nat → (6 ≤ length mymac)%nat →
  0 ≤ rd buff 56 < 256 →
  accept mymac buff rlen = Some (l, ck) →
  cache_hit answer buff = false →
  process answer buff l mymac rootarray drivesfat (srv_world st)
    = Some ((n, e1), w1) →
  0 < n < 65536 →
  n ≤ Z.of_nat (length (frame answer)) →
  ∃ st' reply,
    serve mymac rootarray drivesfat st buff rlen = Some (st', Some reply)
    ∧ Z.of_nat (length reply) = n
    ∧ accept (slice buff 6 6) reply n = Some (n, ck).
Proof.
  intros idx answer Hb Hm Hbyte Ha Hmiss Hp Hn Hfit.
  destruct (serve_miss_reply mymac rootarray drivesfat st buff rlen l ck n e1 w1
              Ha Hmiss Hp ltac:(lia)) as (H60 & Hkeep & st' & Hs).
  fold idx answer in Hkeep.
  destruct (accept_inv _ _ _ _ _ Ha) as (_ & Hck & H12 & H13 & Hver).
  assert (60 ≤ length (frame answer))%nat as Hfr by lia.
  destruct (reply_header_rd (frame answer) buff mymac Hfr Hb Hm)
    as (Hh0 & Hh6 & Hh12).
  cbv zeta in Hh0, Hh6, Hh12.
  set (hdr := reply_header (frame answer) buff mymac) in *.
  assert (length (frame e1) = length (frame answer)) as Hle1.
  { destruct Hkeep as [_ ->]. apply length_reply_header. }
  assert (rd (frame e1) 56 = rd buff 56) as He56.
  { rewrite (keeps_header_rd hdr) by (done || lia). apply Hh12. lia. }
  destruct (outgoing_spec (frame e1) n ck) as (O52 & O56 & Oother & Osum);
    [lia|lia|by rewrite He56|by rewrite He56|].
  cbv zeta in O52, O56, Oother, Osum.
  set (f1 := outgoing (frame e1) n ck) in *.
  assert (length f1 = length (frame answer)) as Hlf1
    by (subst f1; by rewrite length_outgoing).
  set (reply := slice f1 0 n).
  assert (length reply = Z.to_nat n) as Hlr
    by (subst reply; apply length_slice; lia).
  assert (∀ i, 0 ≤ i < n → rd reply i = rd f1 i) as Hr.
  { intros i Hi. subst reply. rewrite rd_slice by lia. f_equal; lia. }
  exists st', reply. split; [done|]. split; [lia|].
  assert (Z.shiftr (rd reply 56) 7 = ck) as Hflag.
  { rewrite Hr, O56, He56 by lia. done. }
  rewrite <- Hflag. apply accept_intro.
  - lia.
  - assert (slice (slice buff 6 6) 0 6 = slice buff 6 6) as ->.
    { unfold slice at 1. change (Z.to_nat 0) with 0%nat. rewrite drop_0.
      apply take_ge. rewrite length_slice by lia. lia. }
    apply slice_eq_of_rd; try lia.
    intros i Hi. rewrite Hr, Oother by lia.
    rewrite (keeps_header_rd hdr) by (done || lia). apply Hh0. lia.
  - rewrite Hr, Oother by lia.
    rewrite (keeps_header_rd hdr) by (done || lia). rewrite Hh12 by lia. done.
  - rewrite Hr, Oother by lia.
    rewrite (keeps_header_rd hdr) by (done || lia). rewrite Hh12 by lia. done.
  - rewrite Hr, O56, He56 by lia. done.
  - unfold rd16. rewrite !Hr by lia. exact O52.
  - rewrite Hflag. intros Hne.
    assert (u16 (n - 56) = n - 56) as Hu by (unfold u16; apply Z.mod_small; lia).
    assert (slice reply 56 (u16 (n - 56)) = slice f1 56 (u16 (n - 56))) as ->.
    { rewrite Hu. apply slice_eq_of_rd; try lia.
      intros i Hi. apply Hr. lia. }
    rewrite (Osum Hne). unfold rd16. by rewrite !Hr by lia.
Qed.

(** X27: a reply to a request that went through the dispatcher is addressed
    to the sender of the request and comes from the server's own address;
    the bytes 12 to 51 of the request (ethertype and padding) and its
    sequence byte are sent back as they came. *)
Theorem reply_addressed mymac rootarray drivesfat (st : server H)
    buff rlen l ck n e1 w1 :
  let idx := findcacheentry (answcache st) (slice buff 6 6) in
  let answer := cache_get (answcache st) idx in
  (60 ≤ length buff)%nat → (6 ≤ length mymac)%nat →
  accept mymac buff rlen = Some (l, ck) →
  cache_hit answer buff = false →
  process answer buff l mymac rootarray drivesfat (srv_world st)
    = Some ((n, e1), w1) →
  0 < n ≤ Z.of_nat (length (frame answer)) →
  ∃ st' reply,
    serve mymac rootarray drivesfat st buff rlen = Some (st', Some reply)
    ∧ slice reply 0 6 = slice buff 6 6
    ∧ slice reply 6 6 = slice mymac 0 6
    ∧ (∀ i, 12 ≤ i < 52 → rd reply i = rd buff i)
    ∧ rd reply 57 = rd buff 57.
Proof.
  intros idx answer Hb Hm Ha Hmiss Hp Hn.
  destruct (serve_miss_reply mymac rootarray drivesfat st buff rlen l ck n e1 w1
              Ha Hmiss Hp ltac:(lia)) as (H60 & Hkeep & st' & Hs).
  fold idx answer in Hkeep.
  assert (60 ≤ length (frame answer))%nat as Hfr by lia.
  destruct (reply_header_rd (frame answer) buff mymac Hfr Hb Hm)
    as (Hh0 & Hh6 & Hh12).
  cbv zeta in Hh0, Hh6, Hh12.
  set (hdr := reply_header (frame answer) buff mymac) in *.
  assert (length (frame e1) = length (frame answer)) as Hle1.
  { destruct Hkeep as [_ ->]. apply length_reply_header. }
  set (f1 := outgoing (frame e1) n ck) in *.
  assert (length f1 = length (frame answer)) as Hlf1
    by (subst f1; by rewrite length_outgoing).
  assert (∀ i, 0 ≤ i → i < 52 ∨ i = 57 → rd f1 i = rd hdr i) as Hf1.
  { intros i Hi Hr.
    rewrite <- (keeps_header_rd hdr (frame e1)) by (done || lia).
    destruct Hr as [Hr | ->].
    - rewrite <- (rd_take 52 f1), <- (rd_take 52 (frame e1)) by lia.
      subst f1. by rewrite take_outgoing.
    - unfold rd. change (Z.to_nat 57) with 57%nat. subst f1.
      by rewrite lookup_outgoing_57. }
  set (reply := slice f1 0 n).
  assert (length reply = Z.to_nat n) as Hlr
    by (subst reply; apply length_slice; lia).
  assert (∀ i, 0 ≤ i < n → rd reply i = rd f1 i) as Hr.
  { intros i Hi. subst reply. rewrite rd_slice by lia. f_equal; lia. }
  exists st', reply. split; [done|].
  split; [|split; [|split]].
  - apply slice_eq_of_rd; try lia.
    intros i Hi. rewrite Hr, Hf1 by lia. apply Hh0. lia.
  - apply slice_eq_of_rd; try lia.
    intros i Hi. rewrite Hr, Hf1 by lia. rewrite Hh6 by lia. f_equal. lia.
  - intros i Hi. rewrite Hr, Hf1 by lia. apply Hh12. lia.
  - rewrite Hr, Hf1 by lia. apply Hh12. lia.
Qed.

End ReplyLength.

(** ** The answer cache *)

Lemma findcacheentry_loop_spec c mac : ∀ (fuel : nat) i oldest,
  0 ≤ i → 0 ≤ oldest → (oldest < i ∨ oldest = 0) →
  (∀ k, 0 ≤ k < i → timestamp (cache_get c oldest) ≤ timestamp (cache_get c k)) →
  (∀ k, 0 ≤ k < oldest →
     timestamp (cache_get c oldest) < timestamp (cache_get c k)) →
  let r := findcacheentry_loop fuel i oldest c mac in
  (i ≤ r < i + Z.of_nat fuel
   ∧ slice (frame (cache_get c r)) 0 6 = mac
   ∧ ∀ k, i ≤ k < r → slice (frame (cache_get c k)) 0 6 ≠ mac)
  ∨ ((∀ k, i ≤ k < i + Z.of_nat fuel → slice (frame (cache_get c k)) 0 6 ≠ mac)
     ∧ 0 ≤ r ∧ (r < i + Z.of_nat fuel ∨ r = 0)
     ∧ (∀ k, 0 ≤ k < i + Z.of_nat fuel →
          timestamp (cache_get c r) ≤ timestamp (cache_get c k))
     ∧ (∀ k, 0 ≤ k < r →
          timestamp (cache_get c r) < timestamp (cache_get c k))).
Proof.
  induction fuel as [|fuel IH]; intros i oldest Hi Ho Hoi Hmin Hfirst; simpl.
  - right. split; [intros k Hk; lia|]. split; [done|]. split; [lia|].
    split; [|done]. intros k Hk. apply Hmin. lia.
  - destruct (bool_decide (slice (frame (cache_get c i)) 0 6 = mac)) eqn:E.
    + apply bool_decide_eq_true in E. left. split; [lia|]. split; [done|].
      intros k Hk. lia.
    + apply bool_decide_eq_false in E.
      set (o' := if timestamp (cache_get c i) <? timestamp (cache_get c oldest)
                 then i else oldest).
      assert (0 ≤ o' ∧ (o' < i + 1 ∨ o' = 0)
              ∧ (∀ k, 0 ≤ k < i + 1 →
                   timestamp (cache_get c o') ≤ timestamp (cache_get c k))
              ∧ (∀ k, 0 ≤ k < o' →
                   timestamp (cache_get c o') < timestamp (cache_get c k)))
        as (Ho' & Hoi' & Hmin' & Hfirst').
      { subst o'.
        destruct (timestamp (cache_get c i) <? timestamp (cache_get c oldest)) eqn:Et;
          [apply Z.ltb_lt in Et|apply Z.ltb_ge in Et].
        - split; [done|]. split; [lia|]. split; intros k Hk.
          + destruct (decide (k = i)) as [-> | Hne]; [lia|].
            specialize (Hmin k ltac:(lia)). lia.
          + specialize (Hmin k ltac:(lia)). lia.
        - split; [done|]. split; [lia|]. split; [|done]. intros k Hk.
          destruct (decide (k = i)) as [-> | Hne]; [lia|]. apply Hmin. lia. }
      clearbody o'.
      destruct (IH (i + 1) o' ltac:(lia) Ho' Hoi' Hmin' Hfirst')
        as [(Hr & Hm & Hb) | (Hn & Hr0 & Hr & Hm & Hf)].
      * left. split; [lia|]. split; [done|]. intros k Hk.
        destruct (decide (k = i)) as [-> | Hne]; [done|]. apply Hb. lia.
      * right. split.
        { intros k Hk. destruct (decide (k = i)) as [-> | Hne]; [done|].
          apply Hn. lia. }
        split; [done|]. split; [lia|]. split; [|done].
        intros k Hk. apply Hm. lia.
Qed.

(** X28: [findcacheentry] gives the first of the 16 entries whose frame
    starts with the client's address; when there is none it gives the entry
    with the smallest timestamp, the first of them when several share it:
    the reply stored longest ago is the one overwritten. *)
Theorem findcacheentry_spec c mac :
  let r := findcacheentry c mac in
  0 ≤ r < 16
  ∧ ((slice (frame (cache_get c r)) 0 6 = mac
      ∧ ∀ k, 0 ≤ k < r → slice (frame (cache_get c k)) 0 6 ≠ mac)
     ∨ ((∀ k, 0 ≤ k < 16 → slice (frame (cache_get c k)) 0 6 ≠ mac)
        ∧ (∀ k, 0 ≤ k < 16 →
             timestamp (cache_get c r) ≤ timestamp (cache_get c k))
        ∧ (∀ k, 0 ≤ k < r →
             timestamp (cache_get c r) < timestamp (cache_get c k)))).
Proof.
  intros r. split; [apply findcacheentry_range|].
  subst r. unfold findcacheentry.
  destruct (findcacheentry_loop_spec c mac (Z.to_nat ANSWCACHESZ) 0 0)
    as [(Hr & Hm & Hb) | (Hn & Hr0 & Hr & Hm & Hf)];
    try lia; try (intros k Hk; lia).
  - left. split; [done|]. intros k Hk. apply Hb. lia.
  - right. change (0 + Z.of_nat (Z.to_nat ANSWCACHESZ)) with 16 in *.
    split; [done|]. split; [done|done].
Qed.

(** ** The drive table *)

Section Boot.
Context {H : Type} `{!BootOps H}.

Lemma load_roots_spec (h : H) intname : ∀ paths resolved pre prefat,
  Forall2 (λ p r, sys_realpath h p = Some r) paths resolved →
  (length pre + length paths ≤ 26)%nat →
  length prefat = length pre →
  (2 ≤ length pre)%nat →
  load_roots h (Z.of_nat (length pre) - 2) paths intname
    (pre ++ replicate (26 - length pre) None)
    (prefat ++ replicate (26 - length pre) 0)
  = Some (Mapped intname
      (pre ++ (Some <$> resolved)
           ++ replicate (26 - length pre - length paths) None)
      (prefat ++ ((λ r, if isfat h r =? 0 then 1 else 0) <$> resolved)
              ++ replicate (26 - length pre - length paths) 0)).
Proof.
  intros paths resolved pre prefat Hres. revert pre prefat.
  induction Hres as [|p r paths resolved Hp Hres IH]; intros pre prefat Hlen Hfat Hpre.
  - simpl. by rewrite Nat.sub_0_r.
  - simpl in Hlen. cbn [load_roots]. rewrite Hp.
    destruct (26 <=? Z.of_nat (length pre) - 2 + 2) eqn:E;
      [apply Z.leb_le in E; lia|].
    replace (Z.to_nat (Z.of_nat (length pre) - 2 + 2)) with (length pre) by lia.
    destruct (26 - length pre)%nat as [|m] eqn:Em; [lia|].
    cbn [replicate].
    rewrite insert_app_r_alt, Nat.sub_diag by lia.
    rewrite (insert_app_r_alt prefat), Hfat, Nat.sub_diag by lia.
    cbn [insert list_insert].
    specialize (IH (pre ++ [Some r])
                   (prefat ++ [if isfat h r =? 0 then 1 else 0])).
    rewrite !length_app in IH. simpl in IH.
    replace (Z.of_nat (length pre + 1) - 2) with (Z.of_nat (length pre) - 2 + 1)
      in IH by lia.
    replace (26 - (length pre + 1))%nat with m in IH by lia.
    rewrite <- !app_assoc in IH. simpl in IH.
    rewrite IH by lia.
    replace (m - length paths)%nat
      with (S m - S (length paths))%nat by lia.
    done.
Qed.

(** X29: started with an interface name and one to 24 root paths that
    [realpath] resolves, [main] maps the paths to the drives from C: on, in
    the order they were given: entry 2+k of the root table holds the resolved
    k-th path, entries 0 and 1 (A: and B:) and those behind the last path hold
    none, and an entry of the FAT table is 1 exactly when [isfat] returns 0
    for the resolved path. *)
Theorem main_maps_drives (h : H) intname paths resolved :
  (1 ≤ length paths ≤ 24)%nat →
  Forall2 (λ p r, sys_realpath h p = Some r) paths resolved →
  main_drives h (intname :: paths)
  = Some (Mapped intname
      ([None; None] ++ (Some <$> resolved)
         ++ replicate (24 - length paths) None)
      ([0; 0] ++ ((λ r, if isfat h r =? 0 then 1 else 0) <$> resolved)
         ++ replicate (24 - length paths) 0)).
Proof.
  intros Hlen Hres. unfold main_drives.
  destruct ((Z.of_nat (length (intname :: paths)) <? 2)
            || (26 <? Z.of_nat (length (intname :: paths)))) eqn:E.
  { simpl length in E. apply orb_true_iff in E as [E|E];
      apply Z.ltb_lt in E; lia. }
  exact (load_roots_spec h intname paths resolved [None; None] [0; 0] Hres
           ltac:(simpl; lia) eq_refl ltac:(simpl; lia)).
Qed.

Lemma load_roots_overflow (h : H) intname : ∀ paths i root drivesfat,
  Forall (λ p, is_Some (sys_realpath h p)) paths →
  i + 2 ≤ 26 → 26 < i + 2 + Z.of_nat (length paths) →
  load_roots h i paths intname root drivesfat = None.
Proof.
  induction paths as [|p rest IH]; intros i root drivesfat Hres Hi Hover.
  - simpl in Hover. lia.
  - apply Forall_cons in Hres as [[r Hp] Hres].
    cbn [load_roots]. rewrite Hp.
    destruct (26 <=? i + 2) eqn:E; [done|]. apply Z.leb_gt in E.
    apply IH; [done|lia|]. simpl length in Hover. lia.
Qed.

(** X30: the argument check of [main] lets an interface name and 25 root
    paths through, but the drive tables have 26 entries and the paths start
    at entry 2: with 25 resolvable paths the last one is stored at index 26,
    behind the end of both tables. *)
Theorem main_25_paths_overflow (h : H) intname paths :
  length paths = 25%nat →
  Forall (λ p, is_Some (sys_realpath h p)) paths →
  main_drives h (intname :: paths) = None.
Proof.
  intros Hlen Hres. unfold main_drives.
  destruct ((Z.of_nat (length (intname :: paths)) <? 2)
            || (26 <? Z.of_nat (length (intname :: paths)))) eqn:E.
  { simpl length in E. apply orb_true_iff in E as [E|E];
      apply Z.ltb_lt in E; lia. }
  apply load_roots_overflow; [done|lia|lia].
Qed.
End Boot.

(** ** More runs on the sample installation *)

Import Cases.

Ltac by_decide := refine (bool_decide_unpack _ _); vm_compute; exact I.

Lemma cmpdata_spec_witness :
  (cmpdata MYMAC req_diskspace 6 = 0 ∨ cmpdata MYMAC req_diskspace 6 = 1)
  ∧ (cmpdata MYMAC req_diskspace 6 = 0
     ↔ slice MYMAC 0 6 = slice req_diskspace 0 6)
  ∧ (6 ≤ 0 → cmpdata MYMAC req_diskspace 6 = 0).
Proof.
  apply (cmpdata_spec MYMAC req_diskspace 6); vm_compute; discriminate.
Defined.

Lemma time2dos_fields_witness :
  0 ≤ time2dos (Clock 0) 49485 < 4294967296
  ∧ dos_decode (time2dos (Clock 0) 49485) = Dostime 46 10 30 13 44 22.
Proof.
  apply (time2dos_fields (Clock 0) 49485 (Tm 126 9 30 13 44 45));
    [reflexivity | simpl; lia ..].
Defined.

Lemma getitemss_stable_witness :
  let f := cstr "/srv/c/tmp/keep.txt" in
  let later := Sim.Host (Sim.nodes host0) 100000 false (Sim.vfs host0) in
  (name (fsdb_get (w_fsdb w_opened) 1) = Some f
   ∧ ∀ j, 0 ≤ j < 1 → name (fsdb_get (w_fsdb w_opened) j) ≠ Some f)
  ∧ 3600 < sys_time later - lastused (fsdb_get fsdb_opened 1)
  ∧ ∃ db2,
      getitemss f (World later fsdb_opened) = Some (1, World later db2)
      ∧ name (fsdb_get db2 1) = Some f.
Proof.
  intros f later.
  destruct (getitemss_stable f w_big w_opened 1) as [Hfirst Hany].
  - vm_compute. reflexivity.
  - split; [exact Hfirst|]. split; [reflexivity|].
    exact (Hany later fsdb_opened (proj1 Hfirst) (proj2 Hfirst)).
Defined.

Lemma getitemss_keeps_recent_witness :
  fsdb_get (w_fsdb w_opened) 0
  = fsdb_get (w_fsdb w_big) 0.
Proof.
  apply (getitemss_keeps_recent (cstr "/srv/c/tmp/keep.txt")
           w_big
           w_opened 1 0).
  - vm_compute. reflexivity.
  - discriminate.
  - vm_compute. discriminate.
Defined.

Lemma getitemss_allocates_witness :
  ∃ w1, getitemss (cstr "/srv/c/tmp/a.tmp") w_opened = Some (2, w1).
Proof.
  apply (getitemss_allocates (cstr "/srv/c/tmp/a.tmp") w_opened 2).
  - lia.
  - intros j Hj.
    destruct (decide (j = 0)) as [->|]; [by vm_compute|].
    destruct (decide (j = 1)) as [->|]; [by vm_compute|].
    unfold w_opened, fsdb_opened, fsdb_init, fsdb_get. cbn [w_fsdb].
    rewrite !lookup_insert_ne by congruence. by rewrite lookup_empty.
  - intros j Hj.
    assert (j = 0 ∨ j = 1) as [-> | ->] by lia;
      (split; [by vm_compute | vm_compute; discriminate]).
  - left. reflexivity.
Defined.

Lemma shorttolong_resolves_witness :
  srv_world st0 = srv_world st0
  ∧ resolves host0 (ROOT ++ [SLASH])
      (strtok_slash (drop 1 (drop (length ROOT) (cstr "/srv/c/tmp/keep.txt"))) [])
      (cstr "/srv/c/tmp/keep.txt")
  ∧ (ROOT ++ [SLASH]) `prefix_of` cstr "/srv/c/tmp/keep.txt".
Proof.
  apply (shorttolong_resolves (cstr "/srv/c/tmp/keep.txt") ROOT
           (srv_world st0) (srv_world st0) (cstr "/srv/c/tmp/keep.txt")).
  vm_compute. reflexivity.
Defined.

Lemma getitemattr_nonfat_witness :
  getitemattr host0 (cstr "/srv/c/tmp" ++ [SLASH] ++ cstr "keep.txt")
              (Fileprops [] 0 0 0) 0
  = (32, Fileprops (cstr "KEEP    TXT") 30 0 0).
Proof.
  etrans.
  - apply (getitemattr_nonfat host0 (cstr "/srv/c/tmp") (cstr "keep.txt")
             (Fileprops [] 0 0 0)); [discriminate | by_decide ..].
  - vm_compute. reflexivity.
Defined.

Lemma delfiles_pattern_effect_witness :
  ∃ entries,
    sys_opendir host0 (cstr "/srv/c/tmp") = Some entries
    ∧ delfiles (cstr "/srv/c/tmp" ++ [SLASH] ++ cstr "????????.tmp")
               (srv_world st0)
      = Some (0, World
          (unlink_all (cstr "/srv/c/tmp")
             (d_name <$> filter (λ e, d_type e ≠ DT_DIR
                          ∧ matchfile2mask (filename2fcb (cstr "????????.tmp"))
                                           (filename2fcb (d_name e)) = 0)
                                entries) host0)
          fsdb_init).
Proof.
  eexists. split; [vm_compute; reflexivity|].
  apply (delfiles_pattern_effect (cstr "/srv/c/tmp") (cstr "????????.tmp") _
           (srv_world st0)); [by_decide | by_decide | reflexivity].
Defined.

Lemma explodepath_split_witness :
  ∃ dir file,
    explodepath req_open_keep 66 13 = Some (dir, file)
    ∧ dir ++ file = slice req_open_keep 66 13
    ∧ (BACKSLASH ∉ file) ∧ (SLASH ∉ file)
    ∧ (BACKSLASH ∈ slice req_open_keep 66 13 ∨ SLASH ∈ slice req_open_keep 66 13
       → ∃ d c, dir = d ++ [c] ∧ (c = BACKSLASH ∨ c = SLASH))
    ∧ (BACKSLASH ∉ slice req_open_keep 66 13 → SLASH ∉ slice req_open_keep 66 13
       → dir = take 1 (slice req_open_keep 66 13)).
Proof.
  apply (explodepath_split req_open_keep 66 13).
  - lia.
  - lia.
  - vm_compute. discriminate.
  - intros [_ Hc]. vm_compute in Hc. discriminate Hc.
  - by_decide.
Defined.

Lemma unknown_query_ignored_witness :
  ∃ entry,
    serve MYMAC rootarray drivesfat st0 req_commit 62
      = Some (Server (<[Z.to_nat (findcacheentry (answcache st0)
                                    (slice req_commit 6 6)) := entry]>
                        (answcache st0)) (srv_world st0), None)
    ∧ len entry = 0.
Proof.
  apply (unknown_query_ignored MYMAC rootarray drivesfat st0 req_commit 62 62 0).
  - reflexivity.
  - by_decide.
  - reflexivity.
Defined.

Lemma malformed_query_ignored_witness :
  ∃ entry,
    serve MYMAC rootarray drivesfat st0 req_read_short 64
      = Some (Server (<[Z.to_nat (findcacheentry (answcache st0)
                                    (slice req_read_short 6 6)) := entry]>
                        (answcache st0)) (srv_world st0), None)
    ∧ len entry = 0.
Proof.
  apply (malformed_query_ignored MYMAC rootarray drivesfat st0 req_read_short
           64 64 0).
  - reflexivity.
  - left. split; [reflexivity | discriminate].
  - reflexivity.
Defined.

Lemma unmapped_drive_ignored_witness :
  ∃ entry,
    serve MYMAC rootarray drivesfat st0 req_drive_b 60
      = Some (Server (<[Z.to_nat (findcacheentry (answcache st0)
                                    (slice req_drive_b 6 6)) := entry]>
                        (answcache st0)) (srv_world st0), None)
    ∧ len entry = 0.
Proof.
  apply (unmapped_drive_ignored MYMAC rootarray drivesfat st0 req_drive_b
           60 60 0).
  - reflexivity.
  - left. reflexivity.
  - reflexivity.
Defined.

Lemma lock_close_acknowledged_witness :
  ∃ answ,
    process answer0 req_lock 70 MYMAC rootarray drivesfat (srv_world st0)
      = Some ((60, with_frame answer0 answ), srv_world st0)
    ∧ ax_of answ = 0.
Proof.
  apply (lock_close_acknowledged answer0 req_lock 70 MYMAC rootarray drivesfat
           ROOT (srv_world st0)).
  - vm_compute. lia.
  - lia.
  - reflexivity.
  - vm_compute. split; discriminate.
  - reflexivity.
  - by_decide.
Defined.

Lemma rename_unresolved_acknowledged_witness :
  ∃ answ,
    process answer0 req_rename_missing 78 MYMAC rootarray drivesfat
            (srv_world st0)
      = Some ((60, with_frame answer0 answ), srv_world st0)
    ∧ ax_of answ = 0.
Proof.
  eapply (rename_unresolved_acknowledged answer0 req_rename_missing 78 MYMAC
            rootarray drivesfat ROOT (srv_world st0)).
  - vm_compute. lia.
  - reflexivity.
  - vm_compute. split; discriminate.
  - reflexivity.
  - reflexivity.
  - lia.
  - vm_compute. reflexivity.
  - vm_compute. reflexivity.
  - discriminate.
Defined.

Lemma empty_path_ends_process_witness :
  process answer0 req_findfirst_empty 61 MYMAC rootarray drivesfat
          (srv_world st0) = None.
Proof.
  apply (empty_path_ends_process answer0 req_findfirst_empty 61 MYMAC
           rootarray drivesfat ROOT (srv_world st0)).
  - reflexivity.
  - vm_compute. split; discriminate.
  - reflexivity.
  - left. split; [reflexivity | lia].
Defined.

Lemma findnext_from_listing_witness :
  ∃ n e, ∀ h : Sim.host,
    process answer0 req_findnext 76 MYMAC rootarray drivesfat
            (World h fsdb_listed)
      = Some ((n, e), World h fsdb_listed).
Proof.
  apply (findnext_from_listing answer0 req_findnext 76 MYMAC rootarray
           drivesfat ROOT fsdb_listed (cstr "/srv/c/tmp")).
  - lia.
  - reflexivity.
  - vm_compute. split; discriminate.
  - reflexivity.
  - reflexivity.
  - reflexivity.
  - vm_compute. discriminate.
  - vm_compute. discriminate.
Defined.

Lemma readfil_reply_witness :
  ∃ answ,
    process answer0 req_read_10 68 MYMAC rootarray drivesfat w_opened
      = Some ((60 + Z.of_nat (length (replicate 10 0)), with_frame answer0 answ),
              w_opened)
    ∧ ax_of answ = 0
    ∧ slice answ 60 (Z.of_nat (length (replicate 10 0))) = replicate 10 0.
Proof.
  apply (readfil_reply answer0 req_read_10 MYMAC rootarray drivesfat ROOT
           w_opened (cstr "/srv/c/tmp/keep.txt") (replicate 10 0)).
  - reflexivity.
  - vm_compute. split; discriminate.
  - reflexivity.
  - reflexivity.
  - reflexivity.
  - reflexivity.
  - vm_compute. lia.
Defined.

Lemma writefil_reply_witness :
  ∃ answ w',
    process answer0 req_write_3 69 MYMAC rootarray drivesfat w_opened
      = Some ((62, with_frame answer0 answ), w')
    ∧ ax_of answ = 0 ∧ rd16 answ 60 = 3.
Proof.
  destruct (writefil_reply answer0 req_write_3 69 MYMAC rootarray drivesfat ROOT
              w_opened (cstr "/srv/c/tmp/keep.txt")) as (answ & Hp & Hax).
  - vm_compute. lia.
  - reflexivity.
  - vm_compute. split; discriminate.
  - reflexivity.
  - reflexivity.
  - lia.
  - reflexivity.
  - intros n Hn. vm_compute in Hn. injection Hn as <-. lia.
  - exists answ. eexists. split; [exact Hp | exact Hax].
Defined.

Lemma getattr_reply_witness :
  ∃ answ,
    process answer0 req_getattr 73 MYMAC rootarray drivesfat (srv_world st0)
      = Some ((69, with_frame answer0 answ), srv_world st0)
    ∧ ax_of answ = 0
    ∧ rd32 answ 60 = time2dos host0 0 mod 4294967296
    ∧ rd32 answ 64 = 30
    ∧ rd answ 68 = 0.
Proof.
  destruct (getattr_reply answer0 req_getattr 73 MYMAC rootarray drivesfat ROOT
              (srv_world st0) (cstr "/srv/c/tmp") (cstr "keep.txt"))
    as [answ Hm].
  - vm_compute. lia.
  - reflexivity.
  - vm_compute. split; discriminate.
  - reflexivity.
  - reflexivity.
  - lia.
  - reflexivity.
  - vm_compute. reflexivity.
  - discriminate.
  - by_decide.
  - by_decide.
  - by_decide.
  - exists answ. set (s := sys_stat _ _) in Hm. vm_compute in s. subst s.
    exact Hm.
Defined.

Lemma reply_passes_own_checks_witness :
  ∃ st' reply,
    serve MYMAC rootarray drivesfat st0 req_diskspace_cksum 60
      = Some (st', Some reply)
    ∧ Z.of_nat (length reply) = 66
    ∧ accept (slice req_diskspace_cksum 6 6) reply 66 = Some (66, 1).
Proof.
  eapply (reply_passes_own_checks MYMAC rootarray drivesfat st0
            req_diskspace_cksum 60 60 1 66).
  - vm_compute. lia.
  - vm_compute. lia.
  - vm_compute. split; [discriminate | reflexivity].
  - reflexivity.
  - reflexivity.
  - vm_compute. reflexivity.
  - lia.
  - vm_compute. discriminate.
Defined.

Lemma reply_addressed_witness :
  ∃ st' reply,
    serve MYMAC rootarray drivesfat st0 req_diskspace 60 = Some (st', Some reply)
    ∧ slice reply 0 6 = slice req_diskspace 6 6
    ∧ slice reply 6 6 = slice MYMAC 0 6
    ∧ (∀ i, 12 ≤ i < 52 → rd reply i = rd req_diskspace i)
    ∧ rd reply 57 = rd req_diskspace 57.
Proof.
  eapply (reply_addressed MYMAC rootarray drivesfat st0 req_diskspace
            60 60 0 66).
  - vm_compute. lia.
  - vm_compute. lia.
  - reflexivity.
  - reflexivity.
  - vm_compute. reflexivity.
  - split; [lia | vm_compute; discriminate].
Defined.

Lemma main_maps_drives_witness :
  main_drives boot0 [cstr "eth0"; cstr "/srv/c"; cstr "/mnt/fat"]
  = Some (Mapped (cstr "eth0")
      ([None; None; Some (cstr "/srv/c"); Some (cstr "/mnt/fat")]
         ++ replicate 22 None)
      ([0; 0; 0; 1] ++ replicate 22 0)).
Proof.
  etrans.
  - apply (main_maps_drives boot0 (cstr "eth0")
             [cstr "/srv/c"; cstr "/mnt/fat"] [cstr "/srv/c"; cstr "/mnt/fat"]).
    + simpl. lia.
    + repeat constructor.
  - vm_compute. reflexivity.
Defined.

Lemma main_25_paths_overflow_witness :
  main_drives boot0 (cstr "eth0" :: replicate 25 (cstr "/srv/c")) = None.
Proof.
  apply (main_25_paths_overflow boot0 (cstr "eth0")
           (replicate 25 (cstr "/srv/c"))).
  - reflexivity.
  - apply Forall_replicate. by eexists.
Defined.
